(** * csv-go: a shallow embedding of the reader and the writer

    The development follows the Go sources:
    - [reader.go] (module [Reader]): [ReadCSV], [getField], [setField];
    - the generic [writer[T]] (module [Writer]): [WriteCSV], [writeElem],
      [writeHeader], with [getString], which the earlier, non-generic
      [writer.go] (module [Legacy]) has too.

    Go strings are byte strings ([string]); a cell, a header name and a
    line are strings.  Calls that can return an [error] or panic return an
    [outcome]; code that writes threads the state of the [bufio.Writer].
    The parts of the Go runtime the code calls ([strings], [strconv],
    [fmt], [bufio], [reflect]) are modelled next to it, under the names
    they have in Go; floating point, complex numbers and the Unicode case
    tables are parameters ([Platform]), and so are the methods of the record
    and field types ([Methods], [elemType]).

    The definitions come first; the properties, from [Properties] on,
    follow the claims C1 to C10 about the code. *)

From Stdlib Require Import ZArith Lia List String Ascii Bool Arith.
Import ListNotations.
Open Scope list_scope.
Open Scope string_scope.

Set Implicit Arguments.

(** ** Errors, panics and outcomes *)

(** [strconv.NumError.Err]. *)
Inductive numErr := ErrSyntax | ErrRange.

Inductive error :=
| EOF                                          (* io.EOF *)
| ErrIO (msg : string)                         (* any other error of the byte source or sink *)
| ErrCannotUnmarshalUnknownTypeWithoutHeader
| errFieldNotFound
| ErrNoCommasAllowedInHeader
| ErrNoCommasAllowedInBody
| ErrEmptySlice
| ErrUnsupportedType                           (* errors.New("unsupported type") *)
| NumError (func : string) (num : string) (err : numErr)
| ErrUser (msg : string).                      (* an error returned by a method of the record type *)

Inductive panic :=
| IndexOutOfRange (index len : nat)            (* runtime error: index out of range *)
| ReflectPanic (msg : string)                  (* a panic raised by package reflect *)
| NilDereference
| UserPanic (msg : string)
| OutOfFuel.                                   (* not a Go panic: a model loop ran out of fuel *)

Inductive outcome (A : Type) :=
| Return (a : A)
| Fail (e : error)
| Panicked (p : panic).
Arguments Return {A} a.
Arguments Fail {A} e.
Arguments Panicked {A} p.

Definition bind {A B} (m : outcome A) (k : A -> outcome B) : outcome B :=
  match m with
  | Return a => k a
  | Fail e => Fail e
  | Panicked p => Panicked p
  end.

Declare Scope go_scope.
Delimit Scope go_scope with go.
Notation "x <- m ;; k" := (bind m (fun x => k))
  (at level 61, m at next level, right associativity) : go_scope.
Open Scope go_scope.

(** ** Package strings, on byte strings *)

Module Strings.

Fixpoint drop (n : nat) (s : string) : string :=
  match n, s with
  | S n', String _ r => drop n' r
  | _, _ => s
  end.

Fixpoint take (n : nat) (s : string) : string :=
  match n, s with
  | S n', String c r => String c (take n' r)
  | _, _ => ""
  end.

Fixpoint HasPrefix (s prefix : string) : bool :=
  match prefix, s with
  | "", _ => true
  | String p ps, String c cs => Ascii.eqb c p && HasPrefix cs ps
  | String _ _, "" => false
  end.

(** [len(s) >= len(suffix) && s[len(s)-len(suffix):] == suffix] *)
Definition HasSuffix (s suffix : string) : bool :=
  (length suffix <=? length s)%nat
  && String.eqb (drop (length s - length suffix) s) suffix.

Definition TrimPrefix (s prefix : string) : string :=
  if HasPrefix s prefix then drop (length prefix) s else s.

Definition TrimSuffix (s suffix : string) : string :=
  if HasSuffix s suffix then take (length s - length suffix) s else s.

(** [ContainsRune(s, r)] for a rune below [utf8.RuneSelf], which is one
    byte of [s]. *)
Fixpoint ContainsRune (s : string) (r : ascii) : bool :=
  match s with
  | "" => false
  | String c rest => Ascii.eqb c r || ContainsRune rest r
  end.

(** [Split(s, string(r))] for a one-byte separator: the fields between
    the separators, [[""]] for the empty string. *)
Fixpoint Split (s : string) (sep : ascii) : list string :=
  match s with
  | "" => [""]
  | String c rest =>
      if Ascii.eqb c sep then "" :: Split rest sep
      else match Split rest sep with
           | h :: t => String c h :: t
           | [] => [String c ""]
           end
  end.

Fixpoint Join (elems : list string) (sep : string) : string :=
  match elems with
  | [] => ""
  | [e] => e
  | e :: rest => e ++ sep ++ Join rest sep
  end.

Fixpoint rev (s : string) : string :=
  match s with
  | "" => ""
  | String c r => rev r ++ String c ""
  end.

Definition bytes (l : list nat) : string :=
  string_of_list_ascii (map ascii_of_nat l).

(** The UTF-8 encodings of the runes of [unicode.IsSpace]: the six ASCII
    ones, U+0085, U+00A0, U+1680, U+2000..U+200A, U+2028, U+2029, U+202F,
    U+205F and U+3000. *)
Definition spaces : list string :=
  map bytes
    [ [9]; [10]; [11]; [12]; [13]; [32];
      [194; 133]; [194; 160];
      [225; 154; 128];
      [226; 128; 128]; [226; 128; 129]; [226; 128; 130]; [226; 128; 131];
      [226; 128; 132]; [226; 128; 133]; [226; 128; 134]; [226; 128; 135];
      [226; 128; 136]; [226; 128; 137]; [226; 128; 138];
      [226; 128; 168]; [226; 128; 169]; [226; 128; 175];
      [226; 129; 159];
      [227; 128; 128] ].

Fixpoint stripAny (ps : list string) (s : string) : option string :=
  match ps with
  | [] => None
  | p :: ps' => if HasPrefix s p then Some (drop (length p) s) else stripAny ps' s
  end.

(** Removes leading occurrences of the sequences [ps]; [fuel] bounds the
    number of removals, and [length s] is always enough. *)
Fixpoint trimLeft (fuel : nat) (ps : list string) (s : string) : string :=
  match fuel with
  | O => s
  | S fuel' =>
      match stripAny ps s with
      | Some r => trimLeft fuel' ps r
      | None => s
      end
  end.

Definition TrimLeftSpace (s : string) : string := trimLeft (length s) spaces s.

Definition TrimRightSpace (s : string) : string :=
  rev (trimLeft (length s) (map rev spaces) (rev s)).

Definition TrimSpace (s : string) : string := TrimRightSpace (TrimLeftSpace s).

(** ASCII case folding, the part of [EqualFold] that does not need the
    Unicode tables; used to instantiate the platform on ASCII names. *)
Definition lower (c : ascii) : ascii :=
  let n := nat_of_ascii c in
  if (65 <=? n)%nat && (n <=? 90)%nat then ascii_of_nat (n + 32) else c.

Fixpoint EqualFoldASCII (s t : string) : bool :=
  match s, t with
  | "", "" => true
  | String a s', String b t' => Ascii.eqb (lower a) (lower b) && EqualFoldASCII s' t'
  | _, _ => false
  end.

End Strings.

(** ** Packages strconv and fmt *)

Module Strconv.

Definition maxUint64 : Z := 2 ^ 64 - 1.

Definition isDigit (c : ascii) : bool :=
  let n := nat_of_ascii c in (48 <=? n)%nat && (n <=? 57)%nat.

Definition digitVal (c : ascii) : Z := Z.of_nat (nat_of_ascii c) - 48.

Definition digitChar (d : Z) : ascii := ascii_of_nat (48 + Z.to_nat d).

(** The loop of [ParseUint(s, 10, 64)]: [n] is the value read so far.  A
    byte that is not a decimal digit is a syntax error; [n >= cutoff]
    ([n*10] overflows) and [n*10 + d > maxVal] are range errors. *)
Fixpoint parseDigits (s : string) (n : Z) : numErr + Z :=
  match s with
  | "" => inr n
  | String c rest =>
      if isDigit c then
        if (maxUint64 / 10 + 1 <=? n)%Z then inl ErrRange
        else
          let n1 := (n * 10 + digitVal c)%Z in
          if (maxUint64 <? n1)%Z then inl ErrRange else parseDigits rest n1
      else inl ErrSyntax
  end.

(** [strconv.ParseUint(s, 10, 64)] *)
Definition ParseUint (s : string) : numErr + Z :=
  match s with
  | "" => inl ErrSyntax
  | _ => parseDigits s 0
  end.

(** [strconv.ParseInt(s, 10, 64)]: an optional sign, then [ParseUint]; the
    cutoff is [1 << 63]. *)
Definition ParseInt (s : string) : numErr + Z :=
  match s with
  | "" => inl ErrSyntax
  | String c rest =>
      let neg := Ascii.eqb c "-" in
      let s' := if Ascii.eqb c "+" || neg then rest else s in
      match ParseUint s' with
      | inl e => inl e
      | inr un =>
          if negb neg && (2 ^ 63 <=? un)%Z then inl ErrRange
          else if neg && (2 ^ 63 <? un)%Z then inl ErrRange
          else inr (if neg then (- un)%Z else un)
      end
  end.

(** [strconv.ParseBool] *)
Definition ParseBool (s : string) : numErr + bool :=
  if existsb (String.eqb s) ["1"; "t"; "T"; "TRUE"; "true"; "True"] then inr true
  else if existsb (String.eqb s) ["0"; "f"; "F"; "FALSE"; "false"; "False"] then inr false
  else inl ErrSyntax.

(** [formatBits] for base 10: the digits of [u] are pushed in front of
    [acc], least significant first.  A [uint64] has at most 20 digits. *)
Fixpoint formatBits (fuel : nat) (u : Z) (acc : string) : string :=
  match fuel with
  | O => acc
  | S fuel' =>
      if (u <? 10)%Z then String (digitChar u) acc
      else formatBits fuel' (u / 10) (String (digitChar (u mod 10)) acc)
  end.

Definition FormatUint (u : Z) : string := formatBits 20 u "".

Definition FormatInt (i : Z) : string :=
  if (i <? 0)%Z then String "-" (FormatUint (- i)) else FormatUint i.

End Strconv.

Module Fmt.

(** [fmt.Sprint] of an [int64], a [uint64] and a [bool]. *)
Definition SprintInt (i : Z) : string := Strconv.FormatInt i.
Definition SprintUint (u : Z) : string := Strconv.FormatUint u.
Definition SprintBool (b : bool) : string := if b then "true" else "false".

End Fmt.

(** ** The platform

    Floating point and complex numbers, their formatting and parsing, and
    the Unicode tables behind [strings.EqualFold] are parameters of the
    development. *)

Class Platform := {
  float64 : Type;
  complex128 : Type;
  float_zero : float64;
  complex_zero : complex128;
  SprintFloat : float64 -> string;               (* fmt.Sprint(float64) *)
  ParseFloat : string -> numErr + float64;       (* strconv.ParseFloat(s, 64) *)
  ParseComplex : string -> numErr + complex128;  (* strconv.ParseComplex(s, 128) *)
  toFloat32 : float64 -> float64;                (* float64(float32(x)) *)
  toComplex64 : complex128 -> complex128;        (* complex128(complex64(x)) *)
  EqualFold : string -> string -> bool           (* strings.EqualFold *)
}.

(** ** Package reflect *)

Module Kind.
Inductive t :=
| Invalid | Bool | Int | Int8 | Int16 | Int32 | Int64
| Uint | Uint8 | Uint16 | Uint32 | Uint64 | Uintptr
| Float32 | Float64 | Complex64 | Complex128
| Array | Chan | Func | Interface | Map | Pointer | Slice | String | Struct
| UnsafePointer.

Definition eqb (a b : t) : bool :=
  match a, b with
  | Invalid, Invalid | Bool, Bool | Int, Int | Int8, Int8 | Int16, Int16
  | Int32, Int32 | Int64, Int64 | Uint, Uint | Uint8, Uint8 | Uint16, Uint16
  | Uint32, Uint32 | Uint64, Uint64 | Uintptr, Uintptr | Float32, Float32
  | Float64, Float64 | Complex64, Complex64 | Complex128, Complex128
  | Array, Array | Chan, Chan | Func, Func | Interface, Interface | Map, Map
  | Pointer, Pointer | Slice, Slice | String, String | Struct, Struct
  | UnsafePointer, UnsafePointer => true
  | _, _ => false
  end.
End Kind.

(** A type is a named type of a kind other than pointer (the predeclared
    [int], [string], ... and the defined types), or a pointer type [*T]. *)
Inductive type :=
| Named (name : string) (k : Kind.t)
| PtrTo (elem : type).

Definition kindOf (t : type) : Kind.t :=
  match t with
  | Named _ k => k
  | PtrTo _ => Kind.Pointer
  end.

Fixpoint type_eqb (a b : type) : bool :=
  match a, b with
  | Named n k, Named n' k' => String.eqb n n' && Kind.eqb k k'
  | PtrTo a', PtrTo b' => type_eqb a' b'
  | _, _ => false
  end.

(** The number of bits of the integer kinds (a 64-bit platform). *)
Definition bitSize (k : Kind.t) : Z :=
  match k with
  | Kind.Int8 | Kind.Uint8 => 8
  | Kind.Int16 | Kind.Uint16 => 16
  | Kind.Int32 | Kind.Uint32 => 32
  | _ => 64
  end.

(** Conversion of an [int64] to the signed type of [bits] bits, and of a
    [uint64] to the unsigned one: the high bits are dropped. *)
Definition wrapInt (bits : Z) (x : Z) : Z :=
  ((x + 2 ^ (bits - 1)) mod 2 ^ bits - 2 ^ (bits - 1))%Z.

Definition wrapUint (bits : Z) (x : Z) : Z := (x mod 2 ^ bits)%Z.

(** [StructTag]: the key/value pairs of the tag string, in order. *)
Definition StructTag := list (string * string).

Fixpoint Lookup (tag : StructTag) (key : string) : option string :=
  match tag with
  | [] => None
  | (k, v) :: rest => if String.eqb k key then Some v else Lookup rest key
  end.

Definition Get (tag : StructTag) (key : string) : string :=
  match Lookup tag key with
  | Some v => v
  | None => ""
  end.

Record StructField := {
  Name : string;
  PkgPath : string;          (* empty for an exported field *)
  Type_ : type;
  Tag : StructTag;
  Anonymous : bool
}.

Definition IsExported (f : StructField) : bool := String.eqb (PkgPath f) "".

(** Replaces the element at position [i]; nothing happens out of range
    (the callers look the position up first). *)
Fixpoint update {A} (i : nat) (x : A) (l : list A) : list A :=
  match l, i with
  | [], _ => []
  | _ :: t, O => x :: t
  | h :: t, S i' => h :: update i' x t
  end.

Fixpoint findIndex {A} (p : A -> bool) (l : list A) : option nat :=
  match l with
  | [] => None
  | x :: t => if p x then Some O else option_map S (findIndex p t)
  end.

Section Values.
Context {P : Platform}.

(** The value held by a variable of some type: integers of every signed
    kind are [VInt] (as [v.Int()] returns them, sign-extended to 64 bits),
    of every unsigned kind [VUint], floats of both sizes [VFloat], a
    pointer is nil ([VNil]) or points to a value, and values of the kinds the
    engine never looks into (structs, slices, maps, ...) are opaque. *)
Inductive govalue :=
| VInt (i : Z)
| VUint (u : Z)
| VFloat (f : float64)
| VComplex (c : complex128)
| VBool (b : bool)
| VString (s : string)
| VNil
| VPtr (pointee : govalue)
| VOther (payload : string).

(** A valid [reflect.Value], or the dynamic content of a non-nil
    interface value: a type and a value of it.  The zero [reflect.Value]
    and the nil interface are [None : option Value]. *)
Record Value := { typ : type; content : govalue }.

(** The zero value of a type, as [reflect.New] allocates it. *)
Definition Zero (t : type) : govalue :=
  match kindOf t with
  | Kind.Bool => VBool false
  | Kind.Int | Kind.Int8 | Kind.Int16 | Kind.Int32 | Kind.Int64 => VInt 0
  | Kind.Uint | Kind.Uint8 | Kind.Uint16 | Kind.Uint32 | Kind.Uint64
  | Kind.Uintptr => VUint 0
  | Kind.Float32 | Kind.Float64 => VFloat float_zero
  | Kind.Complex64 | Kind.Complex128 => VComplex complex_zero
  | Kind.String => VString ""
  | Kind.Pointer => VNil
  | _ => VOther ""
  end.

(** [v.Set(x)] for an addressable [v] of type [t] reached through exported
    fields: [x] must be a valid Value whose type is assignable to [t];
    the result is the new content of [v]. *)
Definition Set_ (t : type) (x : option Value) : outcome govalue :=
  match x with
  | None => Panicked (ReflectPanic "reflect: call of reflect.Value.Set on zero Value")
  | Some x =>
      if type_eqb (typ x) t then Return (content x)
      else Panicked (ReflectPanic "reflect.Set: value is not assignable to type")
  end.

(** The methods of the field types that the engine looks for with a type
    assertion: [Parse(string) (interface{}, error)] of [Parser] and
    [String() string] of [Stringer].  The receiver is the current value of
    the field. *)
Class Methods := {
  parserOf : type -> option (govalue -> string -> outcome (option Value));
  stringerOf : type -> option (govalue -> outcome string)
}.

(** A struct value is the list of the values of its fields. *)
Definition structValue := list govalue.

End Values.

(** ** reader.go *)

Module Reader.
Section Reader.
Context {P : Platform} {M : Methods}.

(** [bufio.Reader] over a source that delivers [pending] and then fails
    with [final] ([EOF] at the end of a file). *)
Record bufioReader := { pending : string; final : error }.

(** The prefix of [s] up to and including the first [delim], and the rest. *)
Fixpoint cutAfter (delim : ascii) (s : string) : option (string * string) :=
  match s with
  | "" => None
  | String c rest =>
      if Ascii.eqb c delim then Some (String c "", rest)
      else match cutAfter delim rest with
           | Some (line, rest') => Some (String c line, rest')
           | None => None
           end
  end.

(** [b.ReadString(delim)]: the data up to and including the delimiter; when
    the source fails before a delimiter is found, the data read so far and
    the error. *)
Definition ReadString (b : bufioReader) (delim : ascii)
  : string * option error * bufioReader :=
  match cutAfter delim (pending b) with
  | Some (line, rest) => (line, None, {| pending := rest; final := final b |})
  | None => (pending b, Some (final b), {| pending := ""; final := final b |})
  end.

Record reader := {
  reader_ : bufioReader;
  WithHeader : bool;
  Comma : ascii;        (* a rune below utf8.RuneSelf *)
  UseCRLF : bool
}.

(** [NewReader] *)
Definition NewReader (r : bufioReader) : reader :=
  {| reader_ := r; Comma := ","; WithHeader := true; UseCRLF := false |}.

(** The element type of the slice [ReadCSV] fills: a struct type with its
    visible fields (no embedded struct, so that [reflect.VisibleFields] is
    the list of the declared fields) and the methods of its pointer type
    that implement [UnmarshalerWithoutHeader] and [Unmarshaler]. *)
Record elemType := {
  VisibleFields : list StructField;
  UnmarshalCSV : option (list string -> structValue -> outcome structValue);
  UnmarshalCSVWithHeader :
    option (list string -> list string -> structValue -> outcome structValue)
}.

(** [reflect.New(elemType)]: a pointer to the zero value. *)
Definition New (T : elemType) : structValue :=
  map (fun f => Zero (Type_ f)) (VisibleFields T).

Definition EOL : ascii := ascii_of_nat 10.
Definition CRLF : string := String (ascii_of_nat 13) (String (ascii_of_nat 10) "").
Definition LF : string := String (ascii_of_nat 10) "".

(** The one-byte string of the double quote character. *)
Definition quote : string := String (ascii_of_nat 34) "".

Definition getField (fields : list StructField) (attr : string) : outcome nat :=
  (* first look for tag *)
  match findIndex (fun field => String.eqb (Get (Tag field) "csv") attr) fields with
  | Some i => Return i
  | None =>
      (* then look for name; if field is tagged, we ignore the name *)
      match findIndex (fun field =>
                         (String.eqb (Name field) attr || EqualFold (Name field) attr)
                         && match Lookup (Tag field) "csv" with
                            | Some _ => false
                            | None => true
                            end) fields with
      | Some i => Return i
      | None => Fail errFieldNotFound
      end
  end.

(** [item.Elem().Field(field)] *)
Definition Field (fields : list StructField) (item : structValue) (field : nat)
  : outcome (StructField * govalue) :=
  match nth_error fields field, nth_error item field with
  | Some f, Some v => Return (f, v)
  | _, _ => Panicked (ReflectPanic "reflect: Field index out of range")
  end.

(** [v.Interface()] on a field *)
Definition Interface (f : StructField) : outcome unit :=
  if IsExported f then Return tt
  else Panicked (ReflectPanic
         "reflect.Value.Interface: cannot return value obtained from unexported field or method").

(** [v.Elem().Kind()] of a pointer: [Invalid] for the nil pointer. *)
Definition ElemKind (t : type) (v : govalue) : Kind.t :=
  match t, v with
  | PtrTo t', VPtr _ => kindOf t'
  | _, _ => Kind.Invalid
  end.

Definition numError {A} (func num : string) (r : numErr + A) : outcome A :=
  match r with
  | inl e => Fail (NumError func num e)
  | inr a => Return a
  end.

Definition int64T : type := Named "int64" Kind.Int64.
Definition uint64T : type := Named "uint64" Kind.Uint64.
Definition boolT : type := Named "bool" Kind.Bool.
Definition float64T : type := Named "float64" Kind.Float64.
Definition complex128T : type := Named "complex128" Kind.Complex128.
Definition stringT : type := Named "string" Kind.String.

Definition setField (fields : list StructField) (item : structValue)
           (field : nat) (value : string) : outcome structValue :=
  fv <- Field fields item field ;;
  let f := fst fv in
  _ <- Interface f ;;
  item <-
    match parserOf (Type_ f) with
    | Some Parse =>
        newItem <- Parse (snd fv) value ;;
        if Kind.eqb (kindOf (Type_ f)) Kind.Pointer then
          match Type_ f, snd fv with
          | PtrTo t, VPtr _ =>
              x <- Set_ t newItem ;; Return (update field (VPtr x) item)
          | _, _ =>
              Panicked (ReflectPanic "reflect: call of reflect.Value.Set on zero Value")
          end
        else
          x <- Set_ (Type_ f) newItem ;; Return (update field x item)
    | None => Return item
    end ;;
  fv <- Field fields item field ;;
  let fieldKind := kindOf (Type_ f) in
  let isPointer := Kind.eqb fieldKind Kind.Pointer in
  let fieldKind := if isPointer then ElemKind (Type_ f) (snd fv) else fieldKind in
  let store (native : govalue) (boxed : Value) :=
    if negb isPointer then Return (update field native item)
    else x <- Set_ (Type_ f) (Some boxed) ;; Return (update field x item) in
  match fieldKind with
  | Kind.Int | Kind.Int8 | Kind.Int16 | Kind.Int32 | Kind.Int64 =>
      let value := Strings.TrimSpace value in
      val <- numError "ParseInt" value (Strconv.ParseInt value) ;;
      store (VInt (wrapInt (bitSize fieldKind) val)) {| typ := int64T; content := VInt val |}
  | Kind.Uint | Kind.Uint8 | Kind.Uint16 | Kind.Uint32 | Kind.Uint64 =>
      let value := Strings.TrimSpace value in
      val <- numError "ParseUint" value (Strconv.ParseUint value) ;;
      store (VUint (wrapUint (bitSize fieldKind) val)) {| typ := uint64T; content := VUint val |}
  | Kind.Bool =>
      let value := Strings.TrimSpace value in
      val <- numError "ParseBool" value (Strconv.ParseBool value) ;;
      store (VBool val) {| typ := boolT; content := VBool val |}
  | Kind.Float32 | Kind.Float64 =>
      let value := Strings.TrimSpace value in
      val <- numError "ParseFloat" value (ParseFloat value) ;;
      store (VFloat (match fieldKind with Kind.Float32 => toFloat32 val | _ => val end))
            {| typ := float64T; content := VFloat val |}
  | Kind.Complex64 | Kind.Complex128 =>
      let value := Strings.TrimSpace value in
      val <- numError "ParseComplex" value (ParseComplex value) ;;
      store (VComplex (match fieldKind with Kind.Complex64 => toComplex64 val | _ => val end))
            {| typ := complex128T; content := VComplex val |}
  | Kind.String =>
      let val := Strings.TrimPrefix (Strings.TrimSuffix value quote) quote in
      store (VString val) {| typ := stringT; content := VString val |}
  | _ => Return item
  end.

(** [strings.TrimSuffix] of the line terminator and of one trailing
    separator, then [strings.Split]. *)
Definition cells (r : reader) (line : string) : list string :=
  let line := if UseCRLF r then Strings.TrimSuffix line CRLF
              else Strings.TrimSuffix line LF in
  let line := Strings.TrimSuffix line (String (Comma r) "") in
  Strings.Split line (Comma r).

(** [for i, attr := range attrs { ... }] of [ReadCSV], from column [i]. *)
Fixpoint bindFields (fields : list StructField) (attrs values : list string)
         (i : nat) (item : structValue) : outcome structValue :=
  match attrs with
  | [] => Return item
  | attr :: attrs' =>
      match getField fields attr with
      | Fail errFieldNotFound => bindFields fields attrs' values (S i) item
      | Fail err => Fail err
      | Panicked p => Panicked p
      | Return field =>
          match nth_error values i with
          | None => Panicked (IndexOutOfRange i (List.length values))
          | Some value =>
              item <- setField fields item field value ;;
              bindFields fields attrs' values (S i) item
          end
      end
  end.

(** The body of the row loop of [ReadCSV], after the line has been read. *)
Definition decodeLine (r : reader) (T : elemType) (attrs : list string)
           (line : string) : outcome structValue :=
  let values := cells r line in
  let item := New T in
  item <-
    (if negb (WithHeader r) then
       match UnmarshalCSV T with
       | Some unm => unm values item
       | None => Fail ErrCannotUnmarshalUnknownTypeWithoutHeader
       end
     else Return item) ;;
  match UnmarshalCSVWithHeader T with
  | Some unm => unm values attrs item
  | None => bindFields (VisibleFields T) attrs values 0 item
  end.

(** The row loop of [ReadCSV].  Every round with a complete line consumes
    at least one byte, so [S (length (pending b))] rounds are enough. *)
Fixpoint readRows (fuel : nat) (r : reader) (T : elemType) (attrs : list string)
         (b : bufioReader) (result : list structValue)
  : outcome (list structValue) :=
  match fuel with
  | O => Panicked OutOfFuel
  | S fuel' =>
      match ReadString b EOL with
      | (_, Some err, _) =>
          match err with
          | EOF => Return result
          | _ => Fail err
          end
      | (line, None, b') =>
          item <- decodeLine r T attrs line ;;
          readRows fuel' r T attrs b' (result ++ [item])
      end
  end.

(** [ReadCSV]: the slice stored in [arr] when the call returns nil, or the
    error or panic it ends with ([arr] is left untouched then). *)
Definition ReadCSV (r : reader) (T : elemType) : outcome (list structValue) :=
  st <-
    (if WithHeader r then
       match ReadString (reader_ r) EOL with
       | (_, Some err, _) => Fail err
       | (header, None, b') => Return (cells r header, b')
       end
     else Return ([], reader_ r)) ;;
  readRows (S (length (pending (snd st)))) r T (fst st) (snd st) [].

End Reader.
End Reader.

(** ** The byte sink and the parts shared by both writers *)

Section Sink.
Context {P : Platform} {M : Methods}.

(** [bufio.Writer]: [buf] holds the bytes written and not yet flushed,
    [sink] those handed to the underlying writer, [err] the sticky error
    of the writer (once set, every write returns it).  When the buffer
    fills up, [bufio] hands a prefix of [buf] to the sink early; the
    concatenation [sink ++ buf] is the same. *)
Record bufioWriter := { sink : string; buf : string; err : option error }.

(** Code that writes: a result and the state of the writer afterwards. *)
Definition W (A : Type) : Type := bufioWriter -> outcome A * bufioWriter.

Definition ret {A} (a : A) : W A := fun b => (Return a, b).
Definition fail {A} (e : error) : W A := fun b => (Fail e, b).
Definition raise {A} (p : panic) : W A := fun b => (Panicked p, b).
Definition lift {A} (m : outcome A) : W A := fun b => (m, b).

Definition bindW {A B} (m : W A) (k : A -> W B) : W B :=
  fun b => match m b with
           | (Return a, b') => k a b'
           | (Fail e, b') => (Fail e, b')
           | (Panicked p, b') => (Panicked p, b')
           end.

Definition WriteString (s : string) : W unit :=
  fun b => match err b with
           | Some e => (Fail e, b)
           | None => (Return tt, {| sink := sink b; buf := buf b ++ s; err := None |})
           end.

Definition WriteRune (r : ascii) : W unit := WriteString (String r "").

Definition Flush : W unit :=
  fun b => match err b with
           | Some e => (Fail e, b)
           | None => (Return tt, {| sink := sink b ++ buf b; buf := ""; err := None |})
           end.

(** An element handed to a writer: a struct, or a pointer to one (nil or
    not). *)
Inductive elem :=
| StructElem (v : structValue)
| PointerElem (p : option structValue).

(** [elem.FieldByName(name)] on a struct: the first field of that name. *)
Fixpoint FieldByName (fields : list StructField) (v : structValue) (name : string)
  : option (StructField * govalue) :=
  match fields, v with
  | f :: fields', x :: v' =>
      if String.eqb (Name f) name then Some (f, x) else FieldByName fields' v' name
  | _, _ => None
  end.

Definition asString (v : govalue) : string := match v with VString s => s | _ => "" end.
Definition asInt (v : govalue) : Z := match v with VInt i => i | _ => 0%Z end.
Definition asUint (v : govalue) : Z := match v with VUint u => u | _ => 0%Z end.
Definition asFloat (v : govalue) : float64 := match v with VFloat f => f | _ => float_zero end.
Definition asBool (v : govalue) : bool := match v with VBool b => b | _ => false end.

(** [getString(v)] for a valid [v] of type [t] holding [x]; [exported]
    tells whether [v.Interface()] is allowed.  The recursive call on
    [v.Elem()] of a nil pointer panics in [Interface], on the zero Value. *)
Fixpoint getString (exported : bool) (t : type) (x : govalue) : outcome string :=
  if negb exported then
    Panicked (ReflectPanic
      "reflect.Value.Interface: cannot return value obtained from unexported field or method")
  else
    (* if v has String method, will use it to get the string *)
    match stringerOf t with
    | Some String_ => String_ x
    | None =>
        match t with
        | Named _ Kind.String => Return (asString x)
        | Named _ (Kind.Int | Kind.Int8 | Kind.Int16 | Kind.Int32 | Kind.Int64) =>
            Return (Fmt.SprintInt (asInt x))
        | Named _ (Kind.Uint | Kind.Uint8 | Kind.Uint16 | Kind.Uint32 | Kind.Uint64) =>
            Return (Fmt.SprintUint (asUint x))
        | Named _ (Kind.Float32 | Kind.Float64) => Return (SprintFloat (asFloat x))
        | Named _ Kind.Bool => Return (Fmt.SprintBool (asBool x))
        | PtrTo t' =>
            match x with
            | VPtr x' => getString exported t' x'
            | _ => Panicked (ReflectPanic
                     "reflect: call of reflect.Value.Interface on zero Value")
            end
        | _ => Fail ErrUnsupportedType
        end
    end.

End Sink.

Declare Scope writer_scope.
Delimit Scope writer_scope with writer.
Notation "x <- m ;; k" := (bindW m (fun x => k))
  (at level 61, m at next level, right associativity) : writer_scope.
Notation "m ;; k" := (bindW m (fun _ => k))
  (at level 61, right associativity) : writer_scope.

(** ** The generic writer *)

Module Writer.
Section Writer.
Context {P : Platform} {M : Methods}.
Local Open Scope writer_scope.

Record writer := {
  writer_ : bufioWriter;
  WithHeader : bool;
  Comma : ascii;        (* a rune below utf8.RuneSelf *)
  UseCRLF : bool
}.

(** [NewWriter] *)
Definition NewWriter (w : bufioWriter) : writer :=
  {| writer_ := w; Comma := ","; WithHeader := true; UseCRLF := false |}.

(** The type parameter [T]: a struct type or a pointer to one, with the
    visible fields of the struct (no embedded struct) and the methods of
    [T] that implement [HeaderMarshaler] and [BodyMarshaler]. *)
Record elemType := {
  VisibleFields : list StructField;
  Header : option (elem -> outcome (list string));
  MarshalCSV : option (elem -> outcome (list string))
}.

(** [for i, value := range ... ] of the marshaler paths: a separator before
    every value but the first, the delimiter check, the value. *)
Fixpoint writeValues (comma : ascii) (e : error) (values : list string) (i : nat)
  : W unit :=
  match values with
  | [] => ret tt
  | value :: rest =>
      (if (0 <? i)%nat then WriteRune comma else ret tt) ;;
      (if Strings.ContainsRune value comma then fail e else ret tt) ;;
      WriteString value ;;
      writeValues comma e rest (S i)
  end.

(** [for _, field := range fields { ... }] of [writeElem]; [i] counts the
    fields written so far and [elem] is [None] for the zero Value that
    [Elem()] of a nil pointer returns. *)
Fixpoint writeFields (comma : ascii) (all : list StructField)
         (elem : option structValue) (fields : list StructField) (i : nat)
  : W unit :=
  match fields with
  | [] => ret tt
  | field :: rest =>
      if Strings.ContainsRune (Name field) comma then fail ErrNoCommasAllowedInBody
      else if negb (IsExported field) then writeFields comma all elem rest i
      else if String.eqb (Get (Tag field) "csv") "-" then writeFields comma all elem rest i
      else
        (if (0 <? i)%nat then WriteRune comma else ret tt) ;;
        str <- lift
          match elem with
          | None => Panicked (ReflectPanic
                      "reflect: call of reflect.Value.FieldByName on zero Value")
          | Some v =>
              match FieldByName all v (Name field) with
              | Some (f, x) => getString (IsExported f) (Type_ f) x
              | None => Panicked (ReflectPanic
                          "reflect: call of reflect.Value.Interface on zero Value")
              end
          end ;;
        WriteString str ;;
        writeFields comma all elem rest (S i)
  end.

Definition writeElem (w : writer) (T : elemType) (e : elem) : W unit :=
  match MarshalCSV T with
  | Some mar =>
      values <- lift (mar e) ;;
      writeValues (Comma w) ErrNoCommasAllowedInBody values 0
  | None =>
      let elem := match e with
                  | StructElem v => Some v
                  | PointerElem p => p
                  end in
      writeFields (Comma w) (VisibleFields T) elem (VisibleFields T) 0
  end.

(** The field loop of [writeHeader]. *)
Fixpoint writeNames (comma : ascii) (fields : list StructField) (i : nat) : W unit :=
  match fields with
  | [] => ret tt
  | field :: rest =>
      if Anonymous field || negb (IsExported field) then writeNames comma rest i
      else
        match Lookup (Tag field) "csv" with
        | Some tag =>
            if String.eqb tag "-" then writeNames comma rest i
            else if Strings.ContainsRune tag comma then fail ErrNoCommasAllowedInHeader
            else
              (if (0 <? i)%nat then WriteRune comma else ret tt) ;;
              WriteString tag ;;
              writeNames comma rest (S i)
        | None =>
            (if (0 <? i)%nat then WriteRune comma else ret tt) ;;
            WriteString (Name field) ;;
            writeNames comma rest (S i)
        end
  end.

Definition writeHeader (w : writer) (T : elemType) (arr : list elem) : W unit :=
  match arr with
  | [] => fail ErrEmptySlice
  | first :: _ =>
      match Header T with
      | Some mar =>
          headerNames <- lift (mar first) ;;
          writeValues (Comma w) ErrNoCommasAllowedInHeader headerNames 0
      | None =>
          match first with
          | PointerElem None =>
              raise (ReflectPanic "reflect: call of reflect.Value.Type on zero Value")
          | _ => writeNames (Comma w) (VisibleFields T) 0
          end
      end
  end.

(** [for _, elem := range arr { ... }] of [WriteCSV]. *)
Fixpoint writeElems (w : writer) (T : elemType) (EOL : string) (arr : list elem)
  : W unit :=
  match arr with
  | [] => ret tt
  | elem :: rest =>
      writeElem w T elem ;;
      WriteString EOL ;;
      writeElems w T EOL rest
  end.

Definition WriteCSV (w : writer) (T : elemType) (arr : list elem) : W unit :=
  let EOL := if UseCRLF w then Reader.CRLF else Reader.LF in
  (if WithHeader w then
     writeHeader w T arr ;;
     WriteString EOL
   else ret tt) ;;
  writeElems w T EOL arr ;;
  (fun b => (Return tt, snd (Flush b))).

(** [WriteCSVElems(elems ...T)]: the variadic form of [WriteCSV]. *)
Definition WriteCSVElems (w : writer) (T : elemType) (elems : list elem) : W unit :=
  WriteCSV w T elems.

(** [WriteCSV] run on the writer's own [bufio.Writer]. *)
Definition run (w : writer) (T : elemType) (arr : list elem)
  : outcome unit * bufioWriter :=
  WriteCSV w T arr (writer_ w).

End Writer.
End Writer.

(** ** writer.go, the non-generic writer *)

Module Legacy.
Section Legacy.
Context {P : Platform} {M : Methods}.
Local Open Scope writer_scope.

(** [for i, field := range fields { ... }] of [writeElem]: every visible
    field is written, followed by a separator unless it is the last. *)
Fixpoint writeFields (comma : ascii) (all : list StructField)
         (elem : option structValue) (fields : list StructField) (i : nat)
  : W unit :=
  match fields with
  | [] => ret tt
  | field :: rest =>
      if Strings.ContainsRune (Name field) comma then fail ErrNoCommasAllowedInBody
      else
        str <- lift
          match elem with
          | None => Panicked (ReflectPanic
                      "reflect: call of reflect.Value.FieldByName on zero Value")
          | Some v =>
              match FieldByName all v (Name field) with
              | Some (f, x) => getString (IsExported f) (Type_ f) x
              | None => Panicked (ReflectPanic
                          "reflect: call of reflect.Value.Interface on zero Value")
              end
          end ;;
        WriteString str ;;
        (if (i <? List.length all - 1)%nat then WriteRune comma else ret tt) ;;
        writeFields comma all elem rest (S i)
  end.

(** [e] is an [interface{}] whose dynamic type is described by [T]. *)
Definition writeElem (w : Writer.writer) (T : Writer.elemType) (e : elem) : W unit :=
  match Writer.MarshalCSV T with
  | Some mar =>
      values <- lift (mar e) ;;
      Writer.writeValues (Writer.Comma w) ErrNoCommasAllowedInBody values 0
  | None =>
      let elem := match e with
                  | StructElem v => Some v
                  | PointerElem p => p
                  end in
      writeFields (Writer.Comma w) (Writer.VisibleFields T) elem (Writer.VisibleFields T) 0
  end.

(** [writeHeader] builds [reflect.New(reflect.TypeOf(arr).Elem())], a
    [*interface{}]: it has no [Header] method, and [reflect.VisibleFields]
    panics on its type, which is not a struct type. *)
Definition writeHeader (w : Writer.writer) (arr : list elem) : W unit :=
  raise (ReflectPanic "reflect.VisibleFields of non-struct type").

Fixpoint writeElems (w : Writer.writer) (T : Writer.elemType) (EOL : string)
         (arr : list elem) : W unit :=
  match arr with
  | [] => ret tt
  | elem :: rest =>
      writeElem w T elem ;;
      WriteString EOL ;;
      writeElems w T EOL rest
  end.

(** No flush at the end: the bytes stay in the buffer of the writer. *)
Definition WriteCSV (w : Writer.writer) (T : Writer.elemType) (arr : list elem)
  : W unit :=
  let EOL := if Writer.UseCRLF w then Reader.CRLF else Reader.LF in
  (if Writer.WithHeader w then
     writeHeader w arr ;;
     WriteString EOL
   else ret tt) ;;
  writeElems w T EOL arr.

Definition WriteCSVElems (w : Writer.writer) (T : Writer.elemType) (elems : list elem)
  : W unit :=
  WriteCSV w T elems.

End Legacy.
End Legacy.

(** ** Notions used to state the properties *)

Module Props.
Section Props.
Context {P : Platform} {M : Methods}.

(** The reader [r] over a source that delivers [s] and then reports the
    end of the input. *)
Definition onInput (r : Reader.reader) (s : string) : Reader.reader :=
  {| Reader.reader_ := {| Reader.pending := s; Reader.final := EOF |};
     Reader.WithHeader := Reader.WithHeader r;
     Reader.Comma := Reader.Comma r;
     Reader.UseCRLF := Reader.UseCRLF r |}.

(** [s] is empty or ends with the end-of-line byte: every line of [s] is
    complete. *)
Fixpoint terminated (s : string) : bool :=
  match s with
  | "" => true
  | String c rest =>
      match rest with
      | "" => Ascii.eqb c Reader.EOL
      | _ => terminated rest
      end
  end.

(** Every byte of [s] satisfies [p]. *)
Fixpoint allb (p : ascii -> bool) (s : string) : bool :=
  match s with
  | "" => true
  | String c rest => p c && allb p rest
  end.

(** The last byte of [s] is [c]. *)
Fixpoint endsWith (c : ascii) (s : string) : bool :=
  match s with
  | "" => false
  | String a rest =>
      match rest with
      | "" => Ascii.eqb a c
      | _ => endsWith c rest
      end
  end.

(** No sequence of [ps] starts with the byte [c]. *)
Definition headFree (ps : list string) (c : ascii) : bool :=
  forallb (fun p => match p with
                    | "" => false
                    | String a _ => negb (Ascii.eqb c a)
                    end) ps.

(** [c] neither starts nor ends the encoding of a white space rune. *)
Definition solid (c : ascii) : bool :=
  headFree Strings.spaces c && headFree (map Strings.rev Strings.spaces) c.

(** The bytes of the decimal text of an integer. *)
Definition numeric (c : ascii) : bool := Strconv.isDigit c || Ascii.eqb c "-".

(** The outcome is not an index-out-of-range panic. *)
Definition inBounds {A} (m : outcome A) : Prop :=
  forall j n, m <> Panicked (IndexOutOfRange j n).

(** The [Parse] methods of the field types raise no index panic of their
    own. *)
Definition parsersInBounds : Prop :=
  forall t parse v s, parserOf t = Some parse -> inBounds (parse v s).

(** An element type with the given fields and no method of its own. *)
Definition readerType (fields : list StructField) : Reader.elemType :=
  {| Reader.VisibleFields := fields;
     Reader.UnmarshalCSV := None;
     Reader.UnmarshalCSVWithHeader := None |}.

Definition writerType (fields : list StructField) : Writer.elemType :=
  {| Writer.VisibleFields := fields; Writer.Header := None; Writer.MarshalCSV := None |}.

(** A source that delivers [s] and then reports the end of the input, and
    a fresh writer. *)
Definition source (s : string) : Reader.bufioReader :=
  {| Reader.pending := s; Reader.final := EOF |}.

Definition fresh : bufioWriter := {| sink := ""; buf := ""; err := None |}.

(** The state of a working writer after [s] has been written to it. *)
Definition emit (s : string) (b : bufioWriter) : bufioWriter :=
  {| sink := sink b; buf := buf b ++ s; err := None |}.

(** The column a field is written under and read from: its [csv] tag if
    it has one, its name otherwise. *)
Definition columnName (f : StructField) : string :=
  match Lookup (Tag f) "csv" with
  | Some tag => tag
  | None => Name f
  end.

(** A cell or a name without the delimiter and without a line break. *)
Definition clean (s : string) : Prop :=
  Strings.ContainsRune s "," = false /\ Strings.ContainsRune s Reader.EOL = false.

(** The kinds that both [getString] and [setField] have a case for. *)
Definition roundTripKind (k : Kind.t) : bool :=
  match k with
  | Kind.String | Kind.Bool
  | Kind.Int | Kind.Int8 | Kind.Int16 | Kind.Int32 | Kind.Int64
  | Kind.Uint | Kind.Uint8 | Kind.Uint16 | Kind.Uint32 | Kind.Uint64
  | Kind.Float32 | Kind.Float64 => true
  | _ => false
  end.

(** A field that the writer writes and the reader binds with the built-in
    rules: exported, not embedded, not excluded, of a scalar kind other
    than complex, without a [Parse] or a [String] method, under a clean
    column name. *)
Definition plainField (f : StructField) : Prop :=
  IsExported f = true
  /\ Anonymous f = false
  /\ (exists name k, Type_ f = Named name k /\ roundTripKind k = true)
  /\ parserOf (Type_ f) = None
  /\ stringerOf (Type_ f) = None
  /\ Get (Tag f) "csv" <> "-"
  /\ Strings.ContainsRune (Name f) "," = false
  /\ clean (columnName f).

(** With two cells or more, the last one is not empty (the reader takes
    one trailing delimiter off every line). *)
Definition lastCellKept (cells : list string) : Prop :=
  (2 <= List.length cells)%nat -> last cells "" <> "".

Definition shapeOK (fields : list StructField) : Prop :=
  Forall plainField fields
  /\ NoDup (map Name fields)
  /\ (forall i f, nth_error fields i = Some f ->
        Reader.getField fields (columnName f) = Return i)
  /\ lastCellKept (map columnName fields).

(** The text of a scalar value. *)
Definition render (x : govalue) : string :=
  match x with
  | VString s => s
  | VInt i => Fmt.SprintInt i
  | VUint u => Fmt.SprintUint u
  | VFloat g => SprintFloat g
  | VBool b => Fmt.SprintBool b
  | _ => ""
  end.

(** The value [x] is a value of the type of [f] that survives the round
    trip: a text that is clean and neither starts nor ends with a double
    quote, an integer in the range of its kind, a boolean, a float whose
    text is clean and parses back to it. *)
Definition fits (f : StructField) (x : govalue) : Prop :=
  match kindOf (Type_ f), x with
  | Kind.String, VString s =>
      clean s /\ Strings.HasPrefix s Reader.quote = false
      /\ Strings.HasSuffix s Reader.quote = false
  | (Kind.Int | Kind.Int8 | Kind.Int16 | Kind.Int32 | Kind.Int64) as k, VInt i =>
      (- 2 ^ (bitSize k - 1) <= i < 2 ^ (bitSize k - 1))%Z
  | (Kind.Uint | Kind.Uint8 | Kind.Uint16 | Kind.Uint32 | Kind.Uint64) as k, VUint u =>
      (0 <= u < 2 ^ bitSize k)%Z
  | Kind.Bool, VBool _ => True
  | Kind.Float32, VFloat g =>
      clean (SprintFloat g)
      /\ exists h, ParseFloat (Strings.TrimSpace (SprintFloat g)) = inr h /\ toFloat32 h = g
  | Kind.Float64, VFloat g =>
      clean (SprintFloat g) /\ ParseFloat (Strings.TrimSpace (SprintFloat g)) = inr g
  | _, _ => False
  end.

Definition recordOK (fields : list StructField) (record : structValue) : Prop :=
  Forall2 fits fields record /\ lastCellKept (map render record).

(** Every element preceded by the separator. *)
Fixpoint sepBefore (sep : string) (elems : list string) : string :=
  match elems with
  | [] => ""
  | e :: rest => sep ++ e ++ sepBefore sep rest
  end.

(** The text of a document: the header line and one line per record. *)
Fixpoint rowsText (records : list structValue) : string :=
  match records with
  | [] => ""
  | record :: rest => Strings.Join (map render record) "," ++ Reader.LF ++ rowsText rest
  end.

Definition documentText (fields : list StructField) (records : list structValue) : string :=
  Strings.Join (map columnName fields) "," ++ Reader.LF ++ rowsText records.

(** The first [k] fields of [record] in front of the other fields of [item]. *)
Definition fill (k : nat) (record item : structValue) : structValue :=
  (firstn k record ++ skipn k item)%list.

(** The fields [fields] of the record are written with the cells [cells]. *)
Definition cellsOf (all : list StructField) (v : structValue)
           (fields : list StructField) (cells : list string) : Prop :=
  Forall2 (fun f c => plainField f /\ exists x,
             FieldByName all v (Name f) = Some (f, x)
             /\ getString true (Type_ f) x = Return c) fields cells.

(** The number of bytes [c] in [s] ([strings.Count] for a one-byte
    separator). *)
Fixpoint countByte (c : ascii) (s : string) : nat :=
  match s with
  | "" => O
  | String a rest => (if Ascii.eqb a c then 1 else 0) + countByte c rest
  end.

(** The fields [writeHeader] writes a column for, and those [writeElem]
    writes a cell for. *)
Definition inHeader (f : StructField) : bool :=
  negb (Anonymous f) && IsExported f && negb (String.eqb (Get (Tag f) "csv") "-").

Definition inRow (f : StructField) : bool :=
  IsExported f && negb (String.eqb (Get (Tag f) "csv") "-").

(** The kinds [setField] deals with: those its [switch] has a case for,
    and the pointers, which it follows first.  Then the [strconv] function
    it calls for the integer, unsigned and boolean kinds. *)
Definition decodedKind (k : Kind.t) : bool :=
  match k with
  | Kind.Bool | Kind.String | Kind.Pointer
  | Kind.Int | Kind.Int8 | Kind.Int16 | Kind.Int32 | Kind.Int64
  | Kind.Uint | Kind.Uint8 | Kind.Uint16 | Kind.Uint32 | Kind.Uint64
  | Kind.Float32 | Kind.Float64 | Kind.Complex64 | Kind.Complex128 => true
  | _ => false
  end.

Definition signedKind (k : Kind.t) : bool :=
  match k with
  | Kind.Int | Kind.Int8 | Kind.Int16 | Kind.Int32 | Kind.Int64 => true
  | _ => false
  end.

Definition strconvFunc (k : Kind.t) : option string :=
  match k with
  | Kind.Int | Kind.Int8 | Kind.Int16 | Kind.Int32 | Kind.Int64 => Some "ParseInt"
  | Kind.Uint | Kind.Uint8 | Kind.Uint16 | Kind.Uint32 | Kind.Uint64 => Some "ParseUint"
  | Kind.Bool => Some "ParseBool"
  | _ => None
  end.

(** Every result that [m] returns satisfies [Q]. *)
Definition returns {A} (Q : A -> Prop) (m : outcome A) : Prop :=
  forall a, m = Return a -> Q a.

(** [item'] has the fields of [item], except possibly field [field]. *)
Definition sameBut (field : nat) (item item' : structValue) : Prop :=
  List.length item' = List.length item
  /\ forall j, j <> field -> nth_error item' j = nth_error item j.

(** The carriage return. *)
Definition CR : ascii := ascii_of_nat 13.

(** The line terminator of a reader. *)
Definition terminator (r : Reader.reader) : string :=
  if Reader.UseCRLF r then Reader.CRLF else Reader.LF.

(** The element type [T] with the header-free decoder followed by the
    header-aware one, which gets no names, as its only decoder. *)
Definition chained (T : Reader.elemType) : Reader.elemType :=
  {| Reader.VisibleFields := Reader.VisibleFields T;
     Reader.UnmarshalCSV :=
       match Reader.UnmarshalCSV T, Reader.UnmarshalCSVWithHeader T with
       | Some unm, Some unm' =>
           Some (fun values item => item <- unm values item ;; unm' values [] item)
       | other, _ => other
       end;
     Reader.UnmarshalCSVWithHeader := None |}.

(** The cells [writeElem] writes for the fields [fields] of the struct
    [v]: the texts of the exported, non-excluded ones, in order. *)
Definition rendered (all : list StructField) (v : structValue)
           (fields : list StructField) (cells : list string) : Prop :=
  Forall2 (fun f c => exists f' x,
             FieldByName all v (Name f) = Some (f', x)
             /\ getString (IsExported f') (Type_ f') x = Return c)
          (filter inRow fields) cells.

(** The elements [elems] written from position [i] on: joined by the
    separator, with one more separator in front when [i] is not the first
    position. *)
Definition joinedFrom (i : nat) (sep : string) (elems : list string) : string :=
  if (0 <? i)%nat then sepBefore sep elems else Strings.Join elems sep.


(** Dereferencing the pointers of a value of type [t] meets a nil
    pointer. *)
Fixpoint reachesNil (t : type) (x : govalue) : bool :=
  match t with
  | PtrTo t' =>
      match x with
      | VPtr x' => reachesNil t' x'
      | _ => true
      end
  | Named _ _ => false
  end.


End Props.
End Props.

(** ** A platform to run the model on

    Floats and complex numbers with integral values only, printed and
    parsed as integers, and case folding on ASCII. *)

Module Run.

#[export] Instance platform : Platform := {|
  float64 := Z;
  complex128 := Z;
  float_zero := 0%Z;
  complex_zero := 0%Z;
  SprintFloat := Strconv.FormatInt;
  ParseFloat := Strconv.ParseInt;
  ParseComplex := Strconv.ParseInt;
  toFloat32 := fun x => x;
  toComplex64 := fun x => x;
  EqualFold := Strings.EqualFoldASCII
|}.

(** No field type has a [Parse] or a [String] method. *)
Definition plain : Methods :=
  {| parserOf := fun _ => None; stringerOf := fun _ => None |}.

Definition field (name : string) (t : type) : StructField :=
  {| Name := name; PkgPath := ""; Type_ := t; Tag := []; Anonymous := false |}.

Definition tagged (name : string) (t : type) (tag : string) : StructField :=
  {| Name := name; PkgPath := ""; Type_ := t; Tag := [("csv", tag)]; Anonymous := false |}.

Definition unexported (name : string) (t : type) : StructField :=
  {| Name := name; PkgPath := "csv_test"; Type_ := t; Tag := []; Anonymous := false |}.

Definition intT : type := Named "int" Kind.Int.
Definition uintT : type := Named "uint" Kind.Uint.
Definition complex64T : type := Named "complex64" Kind.Complex64.

Definition nl : string := Reader.LF.

End Run.

(** Record types and inputs used to run the code on concrete data. *)

Module Data.
Import Run.

(** [struct { Name string; Age int }] *)
Definition NameAge : list StructField := [field "Name" Reader.stringT; field "Age" intT].

(** [struct { TaggedString string `csv:"String"` }] *)
Definition Tagged : list StructField := [tagged "TaggedString" Reader.stringT "String"].

(** [struct { P *int }] *)
Definition WithPointer : list StructField := [field "P" (PtrTo intT)].

(** [struct { A string }] *)
Definition OneText : list StructField := [field "A" Reader.stringT].

(** [struct { C complex64 }] *)
Definition OneComplex : list StructField := [field "C" complex64T].

(** [type Label string] with
    [func (Label) Parse(s string) (interface{}, error) { return Label("custom:" + s), nil }]
    and [type Color int] with a [Parse] that maps every text to [Color(1)]. *)
Definition LabelT : type := Named "Label" Kind.String.
Definition ColorT : type := Named "Color" Kind.Int.

Definition withParsers : Methods :=
  {| parserOf := fun t =>
       if type_eqb t LabelT then
         Some (fun _ s => Return (Some {| typ := LabelT; content := VString ("custom:" ++ s) |}))
       else if type_eqb t ColorT then
         Some (fun _ _ => Return (Some {| typ := ColorT; content := VInt 1 |}))
       else None;
     stringerOf := fun _ => None |}.

(** [struct { L Label }] and [struct { C Color }] *)
Definition OneLabel : list StructField := [field "L" LabelT].
Definition OneColor : list StructField := [field "C" ColorT].

(** A record type with a [Header] method, as [sHeaderBody] in the tests. *)
Definition WithHeaderMethod : Writer.elemType :=
  {| Writer.VisibleFields := OneText;
     Writer.Header := Some (fun _ => Return ["Custom Header String"]);
     Writer.MarshalCSV := None |}.

(** One record of [NameAge], and one record of [OneText] whose text is an
    [x] between double quotes. *)
Definition Ada : list structValue := [[VString "Ada"; VInt 36]].

Definition quotedX : string := Reader.quote ++ "x" ++ Reader.quote.

Definition Quoted : list structValue := [[VString quotedX]].

Definition Unquoted : list structValue := [[VString "x"]].

(** [struct { A string; B string }] and [struct { Ab int; AB int }], with
    one record each, and a text with a line break. *)
Definition TwoTexts : list StructField :=
  [field "A" Reader.stringT; field "B" Reader.stringT].

Definition emptyLast : list structValue := [[VString "x"; VString ""]].

Definition Collide : list StructField := [field "Ab" intT; field "AB" intT].

Definition oneTwo : list structValue := [[VInt 1; VInt 2]].

Definition twoLines : list structValue := [[VString ("a" ++ nl ++ "b")]].

(** The record types of the writer tests: [s] of [TestArbitraryStruct] and
    [s] of [TestStructWithTags], with the value the tests write (the float
    is 2 here, the floats of [Run.platform] being integral), and
    [*sHeaderBody] with its [Header] and [MarshalCSV] methods. *)
Definition Arbitrary : list StructField :=
  [field "String" Reader.stringT; field "Int" intT; field "Float" Reader.float64T;
   unexported "complex" complex64T; field "Bool" Reader.boolT; field "Uint" uintT;
   field "PointerInt" (PtrTo intT)].

Definition WithTags : list StructField :=
  [tagged "String" Reader.stringT "string"; tagged "Int" intT "weird tag";
   field "Float" Reader.float64T; unexported "complex" complex64T;
   field "Bool" Reader.boolT; field "Uint" uintT;
   tagged "PointerInt" (PtrTo intT) "-"].

Definition sample : elem :=
  PointerElem (Some [VString "string"; VInt 1; VFloat 2%Z; VComplex 1%Z; VBool true;
                     VUint 1; VPtr (VInt 0)]).

Definition HeaderBody : Writer.elemType :=
  {| Writer.VisibleFields := Arbitrary;
     Writer.Header := Some (fun _ =>
       Return ["Custom Header String"; "Custom Header Int"; "Custom Header Float";
               "Custom Header Bool"; "Custom Header Uint"; "Custom Header PointerInt"]);
     Writer.MarshalCSV := Some (fun e =>
       match e with
       | PointerElem (Some [VString s; VInt i; VFloat g; _; VBool b; VUint u; VPtr (VInt p)]) =>
           Return [s; Fmt.SprintInt i; SprintFloat g; Fmt.SprintBool b; Fmt.SprintUint u;
                   Fmt.SprintInt p]
       | _ => Panicked NilDereference
       end) |}.

(** The record types of the reader tests: [sTagged], and [sCustom] whose
    field has the struct type [custom] with
    [func (c custom) Parse(s string) (interface{}, error) { return custom{string: s}, nil }]. *)
Definition sTagged : list StructField :=
  [tagged "TaggedString" Reader.stringT "String"; tagged "TaggedInt" intT "Int";
   tagged "TaggedFloat" Reader.float64T "Float"; tagged "TaggedComplex" complex64T "Complex";
   tagged "TaggedBool" Reader.boolT "Bool"; tagged "TaggedUint" uintT "Uint";
   tagged "PointerInt" (PtrTo intT) "_"].

Definition taggedRows : list structValue :=
  [[VString "a"; VInt 1; VFloat 2%Z; VComplex 3%Z; VBool true; VUint 4; VNil];
   [VString "b"; VInt (-1); VFloat 2%Z; VComplex 3%Z; VBool false; VUint 4; VNil]].

Definition customT : type := Named "custom" Kind.Struct.

Definition withCustom : Methods :=
  {| parserOf := fun t =>
       if type_eqb t customT then
         Some (fun _ s => Return (Some {| typ := customT; content := VOther s |}))
       else None;
     stringerOf := fun _ => None |}.

Definition sCustom : list StructField := [field "Custom" customT].

(** A reader with header mode switched off ([csvReader.WithHeader = false]). *)
Definition headerless (s : string) : Reader.reader :=
  {| Reader.reader_ := Props.source s; Reader.WithHeader := false;
     Reader.Comma := ","; Reader.UseCRLF := false |}.

End Data.

(** Further record types and inputs, for the properties of the reader and
    of the writer. *)

Module Samples.
Import Run.

(** [struct { Int int; Other int `csv:"Int"` }] *)
Definition Shadowed : list StructField := [field "Int" intT; tagged "Other" intT "Int"].

(** [struct { N int8 }] *)
Definition Tiny : list StructField := [field "N" (Named "int8" Kind.Int8)].

(** [struct { A string; B string `csv:"b,c"` }] *)
Definition CommaTag : list StructField :=
  [field "A" Reader.stringT; tagged "B" Reader.stringT "b,c"].

(** A reader with [UseCRLF] set, and a reader over a source that fails
    after its text. *)
Definition crlf (s : string) : Reader.reader :=
  {| Reader.reader_ := Props.source s; Reader.WithHeader := true;
     Reader.Comma := ","; Reader.UseCRLF := true |}.

Definition broken (s : string) : Reader.reader :=
  Reader.NewReader {| Reader.pending := s; Reader.final := ErrIO "read failed" |}.

(** [struct { A string; B string }] with both decoders: [UnmarshalCSV]
    stores the first cell in [A], [UnmarshalCSVWithHeader] stores the number
    of names it is given in [B]. *)
Definition Both : Reader.elemType :=
  {| Reader.VisibleFields := Data.TwoTexts;
     Reader.UnmarshalCSV := Some (fun values item =>
       Return (update 0 (VString (nth 0 values "")) item));
     Reader.UnmarshalCSVWithHeader := Some (fun values names item =>
       Return (update 1 (VString (Strconv.FormatInt (Z.of_nat (List.length names)))) item)) |}.

(** A record of [Data.NameAge], and the cells of [Data.sample]. *)
Definition ada : structValue := [VString "Ada"; VInt 36].

Definition sampleValue : structValue :=
  [VString "string"; VInt 1; VFloat 2%Z; VComplex 1%Z; VBool true; VUint 1; VPtr (VInt 0)].

Definition sampleCells : list string := ["string"; "1"; "2"; "true"; "1"; "0"].

(** Two elements of [Data.OneComplex]. *)
Definition complexOne : elem := StructElem [VComplex 1%Z].

Definition complexTwo : elem := StructElem [VComplex 2%Z].

End Samples.

(** * Properties *)

Unset Implicit Arguments.
Import Props.

(** ** Generic facts *)

Lemma string_length_app (s t : string) : length (s ++ t) = (length s + length t)%nat.
Proof. induction s as [|c s IH]; simpl; [reflexivity | rewrite IH; reflexivity]. Qed.

Lemma findIndex_Some {A} (p : A -> bool) (l : list A) (i : nat) :
  findIndex p l = Some i -> exists x, nth_error l i = Some x /\ p x = true.
Proof.
  revert i; induction l as [|a l IH]; intros i H; simpl in H.
  - discriminate.
  - destruct (p a) eqn:Ha.
    + inversion H; subst. exists a. split; [reflexivity | assumption].
    + destruct (findIndex p l) as [j|]; simpl in H; [|discriminate].
      inversion H; subst. simpl. apply IH. reflexivity.
Qed.

Section ReaderFacts.
Context {P : Platform} {M : Methods}.

(** What a successful [getField] tells about the field it returns: it was
    found by the tag loop, or it has no [csv] tag and was found by name. *)
Lemma getField_Return (fields : list StructField) (attr : string) (i : nat) :
  Reader.getField fields attr = Return i ->
  exists f, nth_error fields i = Some f /\
    (Get (Tag f) "csv" = attr \/
     (Lookup (Tag f) "csv" = None /\
      (Name f = attr \/ EqualFold (Name f) attr = true))).
Proof.
  unfold Reader.getField. intros H.
  destruct (findIndex _ fields) as [j|] eqn:H1.
  - inversion H; subst. apply findIndex_Some in H1 as (f & Hf & Hp).
    exists f. split; [assumption|]. left. apply String.eqb_eq. exact Hp.
  - destruct (findIndex _ fields) as [j|] eqn:H2 in H; [|discriminate].
    inversion H; subst. apply findIndex_Some in H2 as (f & Hf & Hp).
    exists f. split; [assumption|]. right.
    apply andb_true_iff in Hp as [Hn Ht].
    destruct (Lookup (Tag f) "csv"); [discriminate|]. split; [reflexivity|].
    apply orb_true_iff in Hn as [Hn|Hn]; [left; apply String.eqb_eq|right]; exact Hn.
Qed.

(** C8.  During read binding a field that declares an override name (a
    [csv] tag) is never matched by its declared name: whatever the record
    shape and the column name, when the column differs from the override
    of a field, [getField] does not answer that field, also when the column
    equals the declared name of the field, exactly or up to case. *)
Theorem getField_override_precedence
  (fields : list StructField) (attr : string) (i : nat) (f : StructField)
  (tag : string) :
  nth_error fields i = Some f ->
  Lookup (Tag f) "csv" = Some tag ->
  tag <> attr ->
  (Name f = attr \/ EqualFold (Name f) attr = true ->
   Reader.getField fields attr <> Return i)
  /\ Reader.getField fields attr <> Return i.
Proof.
  intros Hf Ht Hne.
  assert (Hno : Reader.getField fields attr <> Return i).
  { intros H. apply getField_Return in H as (f' & Hf' & Hcase).
    rewrite Hf in Hf'. inversion Hf'; subst f'.
    destruct Hcase as [Hg | [Hnone _]].
    - unfold Get in Hg. rewrite Ht in Hg. contradiction.
    - rewrite Ht in Hnone. discriminate. }
  split; [intros _|]; exact Hno.
Qed.

End ReaderFacts.

(** ** The cell lookup of the field-by-field path *)

Section CellLookup.
Context {P : Platform} {M : Methods}.

Lemma inBounds_Return {A} (a : A) : inBounds (Return a).
Proof. intros j n H; discriminate. Qed.

Lemma inBounds_Fail {A} (e : error) : inBounds (@Fail A e).
Proof. intros j n H; discriminate. Qed.

Lemma inBounds_reflect {A} (msg : string) : inBounds (@Panicked A (ReflectPanic msg)).
Proof. intros j n H; discriminate. Qed.

Lemma inBounds_bind {A B} (m : outcome A) (k : A -> outcome B) :
  inBounds m -> (forall a, inBounds (k a)) -> inBounds (bind m k).
Proof.
  intros Hm Hk j n. destruct m as [a|e|p]; simpl.
  - apply Hk.
  - discriminate.
  - intros H. inversion H; subst. exact (Hm j n eq_refl).
Qed.

Lemma inBounds_Set (t : type) (x : option Value) : inBounds (Set_ t x).
Proof.
  unfold Set_. destruct x as [x|]; [destruct (type_eqb (typ x) t)|];
    auto using @inBounds_Return, @inBounds_reflect.
Qed.

Lemma inBounds_numError {A} (func num : string) (r : numErr + A) :
  inBounds (Reader.numError func num r).
Proof. destruct r; simpl; auto using @inBounds_Return, @inBounds_Fail. Qed.

Ltac in_bounds :=
  repeat first
    [ apply inBounds_Return | apply inBounds_Fail | apply inBounds_reflect
    | apply inBounds_Set | apply inBounds_numError
    | apply inBounds_bind; [|intro]
    | match goal with
      | |- inBounds (if ?b then _ else _) => destruct b
      | |- inBounds (match ?x with _ => _ end) => destruct x
      end ].

Lemma setField_inBounds (fields : list StructField) (item : structValue)
      (field : nat) (value : string) :
  parsersInBounds -> inBounds (Reader.setField fields item field value).
Proof.
  intros HP. unfold Reader.setField.
  apply inBounds_bind.
  { unfold Reader.Field. in_bounds. }
  intros [f v]. simpl fst; simpl snd.
  apply inBounds_bind.
  { unfold Reader.Interface. in_bounds. }
  intros _.
  apply inBounds_bind.
  { destruct (parserOf (Type_ f)) as [parse|] eqn:Hparse.
    - apply inBounds_bind; [eapply HP; eassumption|]. intros newItem. in_bounds.
    - in_bounds. }
  intros item'. apply inBounds_bind.
  { unfold Reader.Field. in_bounds. }
  intros [f' v'].
  destruct (Kind.eqb (kindOf (Type_ f)) Kind.Pointer);
    cbv zeta; simpl negb; cbv iota;
    match goal with |- inBounds (match ?k with _ => _ end) => destruct k end;
    in_bounds.
Qed.

Lemma bindFields_inBounds (fields : list StructField) (attrs values : list string)
      (i : nat) (item : structValue) :
  parsersInBounds ->
  (i + List.length attrs <= List.length values)%nat ->
  inBounds (Reader.bindFields fields attrs values i item).
Proof.
  intros HP. revert i item.
  induction attrs as [|attr attrs IH]; intros i item Hlen; simpl.
  - apply inBounds_Return.
  - simpl in Hlen.
    destruct (Reader.getField fields attr) as [field|e|p] eqn:Hg.
    + destruct (nth_error values i) as [value|] eqn:Hv.
      * apply inBounds_bind; [apply setField_inBounds; exact HP|].
        intros item'. apply IH. lia.
      * apply nth_error_None in Hv. lia.
    + assert (He : inBounds (@Fail structValue e)) by apply inBounds_Fail.
      destruct e; try exact He. apply IH. lia.
    + unfold Reader.getField in Hg.
      destruct (findIndex _ fields); [discriminate|].
      destruct (findIndex _ fields); discriminate.
Qed.

End CellLookup.

(** C9.  The field-by-field path indexes the cells of the row by the
    position of the column in the header, without a bounds check.  On the
    input [Name,Age / Ada] (a row with one cell under a header with two
    columns, the second of which matches a field) [ReadCSV] panics with an
    index out of range instead of returning an error.  In general the
    column loop panics so as soon as it reaches a column that matches a
    field and whose position is not below the number of cells; and when
    the row has at least as many cells as the header has columns, the loop
    raises no such panic (the [Parse] methods of the fields raising none
    themselves). *)
Theorem ReadCSV_cell_index_unchecked :
  Reader.ReadCSV (M := Run.plain)
    (Reader.NewReader (source ("Name,Age" ++ Run.nl ++ "Ada" ++ Run.nl)))
    (readerType Data.NameAge)
  = Panicked (IndexOutOfRange 1 1)
  /\ (forall (P : Platform) (M : Methods) (fields : list StructField)
        (attrs values : list string) (item : structValue),
        parsersInBounds ->
        (List.length attrs <= List.length values)%nat ->
        forall j n,
          Reader.bindFields fields attrs values 0 item
          <> Panicked (IndexOutOfRange j n))
  /\ (forall (P : Platform) (M : Methods) (fields : list StructField)
        (attr : string) (attrs values : list string) (i field : nat)
        (item : structValue),
        Reader.getField fields attr = Return field ->
        (List.length values <= i)%nat ->
        Reader.bindFields fields (attr :: attrs) values i item
        = Panicked (IndexOutOfRange i (List.length values))).
Proof.
  split; [|split].
  - reflexivity.
  - intros P M fields attrs values item HP Hlen.
    apply bindFields_inBounds; [exact HP | simpl; exact Hlen].
  - intros P M fields attr attrs values i field item Hg Hlen.
    cbn [Reader.bindFields]. rewrite Hg.
    apply nth_error_None in Hlen. rewrite Hlen. reflexivity.
Qed.

Lemma ReadCSV_cell_index_unchecked_witness :
  Reader.bindFields (M := Run.plain) Data.NameAge ["Name"; "Age"] ["Ada"; "36"] 0
    (Reader.New (readerType Data.NameAge))
  <> Panicked (IndexOutOfRange 1 2)
  /\ Reader.bindFields (M := Run.plain) Data.NameAge ["Age"] ["Ada"] 1
       (Reader.New (readerType Data.NameAge))
     = Panicked (IndexOutOfRange 1 1).
Proof.
  split.
  - refine (proj1 (proj2 ReadCSV_cell_index_unchecked) Run.platform Run.plain
              Data.NameAge ["Name"; "Age"] ["Ada"; "36"]
              (Reader.New (readerType Data.NameAge)) _ _ 1%nat 2%nat).
    + intros t parse v s H. discriminate H.
    + simpl. lia.
  - refine (proj2 (proj2 ReadCSV_cell_index_unchecked) Run.platform Run.plain
              Data.NameAge "Age" [] ["Ada"] 1%nat 1%nat
              (Reader.New (readerType Data.NameAge)) _ _).
    + reflexivity.
    + simpl. lia.
Defined.

(** ** The row loop and the end of the input *)

Section RowLoop.
Context {P : Platform} {M : Methods}.

Lemma cutAfter_length (d : ascii) (s line rest : string) :
  Reader.cutAfter d s = Some (line, rest) -> (length rest < length s)%nat.
Proof.
  revert line rest; induction s as [|c s IH]; simpl; intros line rest H.
  - discriminate.
  - destruct (Ascii.eqb c d).
    + inversion H; subst. lia.
    + destruct (Reader.cutAfter d s) as [[l r]|]; [|discriminate].
      inversion H; subst. specialize (IH l rest eq_refl). lia.
Qed.

Lemma cutAfter_app (d : ascii) (s t line rest : string) :
  Reader.cutAfter d s = Some (line, rest) ->
  Reader.cutAfter d (s ++ t) = Some (line, rest ++ t).
Proof.
  revert line rest; induction s as [|c s IH]; simpl; intros line rest H.
  - discriminate.
  - destruct (Ascii.eqb c d).
    + inversion H; subst. reflexivity.
    + destruct (Reader.cutAfter d s) as [[l r]|]; [|discriminate].
      inversion H; subst. rewrite (IH l rest eq_refl). reflexivity.
Qed.

Lemma cutAfter_absent (d : ascii) (s : string) :
  Strings.ContainsRune s d = false -> Reader.cutAfter d s = None.
Proof.
  induction s as [|c s IH]; simpl; intros H; [reflexivity|].
  apply orb_false_iff in H as [Hc Hs]. rewrite Hc, (IH Hs). reflexivity.
Qed.

Lemma cutAfter_terminated (s : string) :
  terminated s = true -> s <> "" ->
  exists line rest,
    Reader.cutAfter Reader.EOL s = Some (line, rest) /\ terminated rest = true.
Proof.
  induction s as [|c s IH]; intros Ht Hne; [contradiction|].
  simpl. destruct (Ascii.eqb c Reader.EOL) eqn:Hc.
  - exists (String c ""), s. split; [reflexivity|].
    destruct s; [reflexivity | exact Ht].
  - destruct s as [|c' s'].
    + simpl in Ht. rewrite Hc in Ht. discriminate.
    + destruct IH as (l & r & Hcut & Hr); [exact Ht | discriminate |].
      rewrite Hcut. exists (String c l), r. split; [reflexivity | exact Hr].
Qed.

(** Fuel above the number of pending bytes is never exhausted. *)
Lemma readRows_fuel (r : Reader.reader) (T : Reader.elemType) (attrs : list string) :
  forall fuel fuel' b result,
    (length (Reader.pending b) < fuel)%nat ->
    (length (Reader.pending b) < fuel')%nat ->
    Reader.readRows fuel r T attrs b result = Reader.readRows fuel' r T attrs b result.
Proof.
  induction fuel as [|fuel IH]; intros fuel' b result H1 H2; [lia|].
  destruct fuel' as [|fuel']; [lia|].
  simpl. unfold Reader.ReadString.
  destruct (Reader.cutAfter Reader.EOL (Reader.pending b)) as [[line rest]|] eqn:Hcut.
  - apply cutAfter_length in Hcut.
    destruct (Reader.decodeLine r T attrs line); simpl; try reflexivity.
    apply IH; simpl; lia.
  - reflexivity.
Qed.

Lemma readRows_partial (r : Reader.reader) (T : Reader.elemType) (attrs : list string)
      (partial : string) (e : error) :
  Strings.ContainsRune partial Reader.EOL = false ->
  forall fuel complete result,
    (length complete < fuel)%nat ->
    terminated complete = true ->
    Reader.readRows fuel r T attrs
      {| Reader.pending := complete ++ partial; Reader.final := e |} result
    = Reader.readRows fuel r T attrs
        {| Reader.pending := complete; Reader.final := e |} result.
Proof.
  intros Hp. induction fuel as [|fuel IH]; intros complete result Hf Ht; [lia|].
  simpl. unfold Reader.ReadString. simpl Reader.pending.
  destruct complete as [|c s].
  - simpl. rewrite (cutAfter_absent _ _ Hp). reflexivity.
  - destruct (cutAfter_terminated _ Ht) as (line & rest & Hcut & Hr); [discriminate|].
    rewrite (cutAfter_app _ _ partial _ _ Hcut), Hcut. simpl Reader.final.
    destruct (Reader.decodeLine r T attrs line); simpl; try reflexivity.
    apply cutAfter_length in Hcut. apply IH; [simpl in *; lia | exact Hr].
Qed.

Lemma cells_config (r r' : Reader.reader) (line : string) :
  Reader.Comma r = Reader.Comma r' -> Reader.UseCRLF r = Reader.UseCRLF r' ->
  Reader.cells r line = Reader.cells r' line.
Proof. unfold Reader.cells. intros -> ->. reflexivity. Qed.

(** The row loop reads the options of the reader only. *)
Lemma readRows_config (r r' : Reader.reader) (T : Reader.elemType) (attrs : list string) :
  Reader.WithHeader r = Reader.WithHeader r' ->
  Reader.Comma r = Reader.Comma r' -> Reader.UseCRLF r = Reader.UseCRLF r' ->
  forall fuel b result,
    Reader.readRows fuel r T attrs b result = Reader.readRows fuel r' T attrs b result.
Proof.
  intros Hh Hc Hu. induction fuel as [|fuel IH]; intros b result; [reflexivity|].
  simpl. destruct (Reader.ReadString b Reader.EOL) as [[line [e|]] b']; [reflexivity|].
  unfold Reader.decodeLine. rewrite Hh, (cells_config r r' line Hc Hu).
  match goal with |- bind ?m _ = bind ?m _ => destruct m; simpl; try reflexivity end.
  apply IH.
Qed.

Lemma ReadCSV_unfold (r : Reader.reader) (T : Reader.elemType) :
  Reader.ReadCSV r T =
  if Reader.WithHeader r then
    match Reader.cutAfter Reader.EOL (Reader.pending (Reader.reader_ r)) with
    | Some (header, rest) =>
        Reader.readRows (S (length rest)) r T (Reader.cells r header)
          {| Reader.pending := rest; Reader.final := Reader.final (Reader.reader_ r) |} []
    | None => Fail (Reader.final (Reader.reader_ r))
    end
  else
    Reader.readRows (S (length (Reader.pending (Reader.reader_ r)))) r T []
      (Reader.reader_ r) [].
Proof.
  unfold Reader.ReadCSV, Reader.ReadString.
  destruct (Reader.WithHeader r); [|reflexivity].
  destruct (Reader.cutAfter Reader.EOL (Reader.pending (Reader.reader_ r)))
    as [[header rest]|]; reflexivity.
Qed.

End RowLoop.

(** C10, as the code has it.  When the input ends with a line that is not
    terminated by the end-of-line byte, [ReadCSV] ends exactly as it does
    on the input without that line: the end of the input met while reading
    the partial line ends the row loop before the line is processed, the
    data of the line is dropped without an error, and the collection
    returned has no record for it.  This covers the case where the partial
    line is the header line (header mode on, no complete line at all):
    there the end of the input is returned as the error of the call. *)
Theorem ReadCSV_discards_partial_line
  (P : Platform) (M : Methods) (r : Reader.reader) (T : Reader.elemType)
  (complete partial : string) :
  terminated complete = true ->
  Strings.ContainsRune partial Reader.EOL = false ->
  Reader.ReadCSV (onInput r (complete ++ partial)) T
  = Reader.ReadCSV (onInput r complete) T
  /\ (Reader.WithHeader r = true -> complete = "" ->
      Reader.ReadCSV (onInput r (complete ++ partial)) T = Fail EOF)
  /\ (Reader.WithHeader r = false -> complete = "" ->
      Reader.ReadCSV (onInput r (complete ++ partial)) T = Return []).
Proof.
  intros Ht Hp.
  assert (Hcfg : forall s fuel attrs b result,
             Reader.readRows fuel (onInput r s) T attrs b result
             = Reader.readRows fuel r T attrs b result).
  { intros. apply readRows_config; reflexivity. }
  split; [|split].
  - rewrite !ReadCSV_unfold.
    cbn [onInput Reader.WithHeader Reader.reader_ Reader.pending Reader.final].
    destruct (Reader.WithHeader r) eqn:Hh.
    + destruct complete as [|c s].
      * cbn [append Reader.cutAfter]. rewrite (cutAfter_absent _ _ Hp). reflexivity.
      * destruct (cutAfter_terminated _ Ht) as (line & rest & Hcut & Hr); [discriminate|].
        rewrite (cutAfter_app _ _ partial _ _ Hcut), Hcut.
        rewrite !Hcfg.
        rewrite (cells_config (onInput r (String c s ++ partial))
                   (onInput r (String c s)) line eq_refl eq_refl).
        rewrite (readRows_fuel _ _ _ (S (length (rest ++ partial)))
                   (S (length rest + length partial)))
          by (cbn [Reader.pending]; rewrite ?string_length_app; lia).
        rewrite (readRows_fuel _ _ _ (S (length rest))
                   (S (length rest + length partial)))
          by (cbn [Reader.pending]; lia).
        apply readRows_partial; [exact Hp | lia | exact Hr].
    + rewrite !Hcfg.
      rewrite (readRows_fuel _ _ _ (S (length (complete ++ partial)))
                 (S (length complete + length partial)))
        by (cbn [Reader.pending]; rewrite ?string_length_app; lia).
      rewrite (readRows_fuel _ _ _ (S (length complete))
                 (S (length complete + length partial)))
        by (cbn [Reader.pending]; lia).
      apply readRows_partial; [exact Hp | lia | exact Ht].
  - intros Hh ->. rewrite ReadCSV_unfold.
    cbn [onInput Reader.WithHeader Reader.reader_ Reader.pending Reader.final append].
    rewrite Hh, (cutAfter_absent _ _ Hp). reflexivity.
  - intros Hh ->. rewrite ReadCSV_unfold.
    cbn [onInput Reader.WithHeader Reader.reader_ Reader.pending Reader.final append].
    rewrite Hh. cbn [Reader.readRows]. unfold Reader.ReadString.
    cbn [Reader.pending Reader.final]. rewrite (cutAfter_absent _ _ Hp). reflexivity.
Qed.

Lemma ReadCSV_discards_partial_line_witness :
  Reader.ReadCSV (M := Run.plain)
    (onInput (Reader.NewReader (source ""))
       (("Name,Age" ++ Run.nl ++ "Ada,36" ++ Run.nl) ++ "Bob,1"))
    (readerType Data.NameAge)
  = Reader.ReadCSV (M := Run.plain)
      (onInput (Reader.NewReader (source ""))
         ("Name,Age" ++ Run.nl ++ "Ada,36" ++ Run.nl))
      (readerType Data.NameAge).
Proof.
  apply (ReadCSV_discards_partial_line Run.platform Run.plain
           (Reader.NewReader (source "")) (readerType Data.NameAge)
           ("Name,Age" ++ Run.nl ++ "Ada,36" ++ Run.nl) "Bob,1");
    reflexivity.
Defined.

(** C10 as stated fails: the input [Name,Age] ends with a line that is not
    terminated, and the call does not succeed; with header mode on, the end
    of the input met while reading the header is returned as an error. *)
Lemma ReadCSV_partial_header_is_error :
  terminated "Name,Age" = false
  /\ Reader.ReadCSV (M := Run.plain) (Reader.NewReader (source "Name,Age"))
       (readerType Data.NameAge)
     = Fail EOF.
Proof. split; reflexivity. Qed.

(** ** Header mode off and no header-free decoder *)

(** C4, as the code has it.  With header mode off and an element type
    without [UnmarshalCSV], the check is made in the row loop, once a
    complete line has been read: the call fails with
    [ErrCannotUnmarshalUnknownTypeWithoutHeader] when the input holds a
    complete line, and otherwise ends as the row loop does at the end of the
    input, with an empty collection and no error at [EOF]. *)
Theorem ReadCSV_missing_decoder
  (P : Platform) (M : Methods) (r : Reader.reader) (T : Reader.elemType) :
  Reader.WithHeader r = false ->
  Reader.UnmarshalCSV T = None ->
  (forall line rest,
      Reader.cutAfter Reader.EOL (Reader.pending (Reader.reader_ r)) = Some (line, rest) ->
      Reader.ReadCSV r T = Fail ErrCannotUnmarshalUnknownTypeWithoutHeader)
  /\ (Reader.cutAfter Reader.EOL (Reader.pending (Reader.reader_ r)) = None ->
      Reader.final (Reader.reader_ r) = EOF ->
      Reader.ReadCSV r T = Return []).
Proof.
  intros Hh Hu. rewrite ReadCSV_unfold, Hh. cbn [Reader.readRows].
  unfold Reader.ReadString. split.
  - intros line rest Hcut. rewrite Hcut.
    unfold Reader.decodeLine. rewrite Hh, Hu. reflexivity.
  - intros Hcut He. rewrite Hcut, He. reflexivity.
Qed.

Lemma ReadCSV_missing_decoder_witness :
  Reader.ReadCSV (M := Run.plain) (Data.headerless ("Ada,36" ++ Run.nl))
    (readerType Data.NameAge)
  = Fail ErrCannotUnmarshalUnknownTypeWithoutHeader.
Proof.
  apply (proj1 (ReadCSV_missing_decoder Run.platform Run.plain
                  (Data.headerless ("Ada,36" ++ Run.nl)) (readerType Data.NameAge)
                  eq_refl eq_refl)
           ("Ada,36" ++ Run.nl) "").
  reflexivity.
Defined.

(** C4 as stated fails: on the empty input the call does not fail with the
    Missing-Decoder error, it returns an empty collection. *)
Lemma ReadCSV_missing_decoder_empty_input :
  Reader.ReadCSV (M := Run.plain) (Data.headerless "") (readerType Data.NameAge)
  = Return [].
Proof. reflexivity. Qed.

(** ** The writer on an empty collection *)

(** C3, as the code has it.  With header mode on, [WriteCSV] on an empty
    collection fails with [ErrEmptySlice] whatever the element type, with
    or without a [Header] method, and writes nothing: [writeHeader] tests
    the length before it looks for the method, which it calls on the first
    element. *)
Theorem WriteCSV_empty_collection
  (P : Platform) (M : Methods) (w : Writer.writer) (T : Writer.elemType)
  (b : bufioWriter) :
  Writer.WithHeader w = true ->
  Writer.WriteCSV w T [] b = (Fail ErrEmptySlice, b).
Proof.
  intros Hh. unfold Writer.WriteCSV. rewrite Hh. reflexivity.
Qed.

Lemma WriteCSV_empty_collection_witness :
  Writer.WriteCSV (M := Run.plain) (Writer.NewWriter fresh) (writerType Data.OneText)
    [] fresh
  = (Fail ErrEmptySlice, fresh).
Proof.
  apply (WriteCSV_empty_collection Run.platform Run.plain
           (Writer.NewWriter fresh) (writerType Data.OneText) fresh).
  reflexivity.
Defined.

(** C3 as stated fails: the element type has a [Header] method, and the
    empty collection is an error all the same; no header is written. *)
Lemma WriteCSV_empty_with_Header_method :
  Writer.Header Data.WithHeaderMethod <> None
  /\ Writer.run (M := Run.plain) (Writer.NewWriter fresh) Data.WithHeaderMethod []
     = (Fail ErrEmptySlice, fresh).
Proof. split; [discriminate | reflexivity]. Qed.

(** ** Rendering a field *)

(** C6, as the code has it.  [getString], which both writers share, has no
    case for the complex kinds: a field of kind [Complex64] or [Complex128]
    without a [String] method fails with the unsupported-type error, while
    a field of a float kind renders as [fmt.Sprint] prints its value. *)
Theorem getString_complex_unsupported
  (P : Platform) (M : Methods) (name : string) (k : Kind.t) (x : govalue) :
  stringerOf (Named name k) = None ->
  (k = Kind.Complex64 \/ k = Kind.Complex128 ->
   getString true (Named name k) x = Fail ErrUnsupportedType)
  /\ (k = Kind.Float32 \/ k = Kind.Float64 ->
      getString true (Named name k) x = Return (SprintFloat (asFloat x))).
Proof.
  intros Hs. split; intros [-> | ->]; simpl; rewrite Hs; reflexivity.
Qed.

Lemma getString_complex_unsupported_witness :
  getString (M := Run.plain) true Run.complex64T (VComplex (P := Run.platform) 1%Z)
  = Fail ErrUnsupportedType.
Proof.
  apply (proj1 (getString_complex_unsupported Run.platform Run.plain
                  "complex64" Kind.Complex64 (VComplex (P := Run.platform) 1%Z) eq_refl)).
  left. reflexivity.
Defined.

(** C6 as stated fails: writing a record [struct { C complex64 }] does not
    succeed, the call returns the unsupported-type error; only the header
    has reached the buffer, and nothing is flushed. *)
Lemma WriteCSV_complex_field_fails :
  Writer.run (M := Run.plain) (Writer.NewWriter fresh) (writerType Data.OneComplex)
    [StructElem [VComplex (P := Run.platform) 1%Z]]
  = (Fail ErrUnsupportedType,
     {| sink := ""; buf := "C" ++ Run.nl; err := None |}).
Proof. reflexivity. Qed.

(** C2: the code at the failing input.  The record [struct { A string }]
    with [A = "a,b"] goes through the field iteration of [writeElem] with
    the comma as the delimiter: both writers return no error and write the
    cell with its comma. *)
Theorem writeElem_comma_in_value_not_rejected :
  Writer.run (M := Run.plain) (Writer.NewWriter fresh) (writerType Data.OneText)
    [StructElem [VString "a,b"]]
  = (Return tt, {| sink := "A" ++ Run.nl ++ "a,b" ++ Run.nl; buf := ""; err := None |})
  /\ Legacy.writeElem (M := Run.plain) (Writer.NewWriter fresh)
       (writerType Data.OneText) (StructElem [VString "a,b"]) fresh
     = (Return tt, {| sink := ""; buf := "a,b"; err := None |}).
Proof. split; reflexivity. Qed.

(** ** Decoding a cell *)

Section SetField.
Context {P : Platform} {M : Methods}.

Lemma type_eqb_refl (t : type) : type_eqb t t = true.
Proof.
  induction t as [name k|t IH]; simpl; [|exact IH].
  rewrite String.eqb_refl. destruct k; reflexivity.
Qed.

Lemma nth_error_update {A} (l : list A) (i : nat) (x y : A) :
  nth_error l i = Some y -> nth_error (update i x l) i = Some x.
Proof.
  revert i. induction l as [|a l IH]; intros i H; [destruct i; discriminate|].
  destruct i as [|i]; simpl in *; [reflexivity | apply IH; exact H].
Qed.

Lemma update_update {A} (l : list A) (i : nat) (x y : A) :
  update i x (update i y l) = update i x l.
Proof.
  revert i. induction l as [|a l IH]; intros i; [destruct i; reflexivity|].
  destruct i as [|i]; simpl; [reflexivity | rewrite IH; reflexivity].
Qed.

(** A nil pointer field without a [Parse] method: [setField] leaves the
    record as it is, whatever the cell. *)
Lemma setField_nil_pointer (fields : list StructField) (item : structValue)
      (field : nat) (f : StructField) (t : type) (value : string) :
  nth_error fields field = Some f -> nth_error item field = Some VNil ->
  IsExported f = true -> Type_ f = PtrTo t -> parserOf (PtrTo t) = None ->
  Reader.setField fields item field value = Return item.
Proof.
  intros Hf Hv Hexp Ht Hparse.
  unfold Reader.setField, Reader.Field, Reader.Interface.
  rewrite Hf, Hv. cbn [bind fst snd]. rewrite Hexp, Ht, Hparse. cbn [bind].
  rewrite Hv. reflexivity.
Qed.

(** A text field with a [Parse] method: whatever value of the field type
    the method returns, the field ends up with the result of the built-in
    text rule. *)
Lemma setField_text_after_Parse (fields : list StructField) (item : structValue)
      (field : nat) (f : StructField) (name : string)
      (parse : govalue -> string -> outcome (option Value))
      (y newItem : govalue) (value : string) :
  nth_error fields field = Some f -> nth_error item field = Some y ->
  IsExported f = true -> Type_ f = Named name Kind.String ->
  parserOf (Type_ f) = Some parse ->
  parse y value = Return (Some {| typ := Type_ f; content := newItem |}) ->
  Reader.setField fields item field value
  = Return (update field
              (VString (Strings.TrimPrefix (Strings.TrimSuffix value Reader.quote)
                          Reader.quote)) item).
Proof.
  intros Hf Hv Hexp Ht Hparse Hres.
  unfold Reader.setField, Reader.Field, Reader.Interface.
  rewrite Hf, Hv. cbn [bind fst snd]. rewrite Hexp, Hparse. cbn [bind]. rewrite Hres.
  cbn [bind]. rewrite Ht. cbn [kindOf Kind.eqb]. unfold Set_. cbn [typ content].
  rewrite type_eqb_refl. cbn [bind].
  rewrite (nth_error_update item field newItem y Hv). cbn [bind snd negb].
  rewrite update_update. reflexivity.
Qed.

End SetField.

(** C5: the code at the failing input.  For the record [struct { P *int }]
    and the input [P / 5] the call succeeds and the pointer field of the
    record is nil: on the nil pointer of the fresh record [Elem().Kind()]
    is [Invalid], no case of [setField] applies, and nothing is allocated
    or decoded. *)
Theorem ReadCSV_pointer_field_left_nil :
  Reader.ReadCSV (M := Run.plain)
    (Reader.NewReader (source ("P" ++ Run.nl ++ "5" ++ Run.nl)))
    (readerType Data.WithPointer)
  = Return [[VNil]].
Proof. reflexivity. Qed.

(** C7: the code at the failing inputs.  [Label] is a string type whose
    [Parse] returns [Label("custom:" + s)]: after [setField] on the cell
    [ab] the field holds [ab], the result of the built-in text rule, which
    ran after the custom parser and overwrote its result.  [Color] is an
    integer type whose [Parse] accepts every text: on the cell [red]
    [setField] fails with the syntax error of the built-in integer rule. *)
Theorem setField_builtin_rule_after_Parse :
  Reader.setField (P := Run.platform) (M := Data.withParsers) Data.OneLabel [VString ""] 0 "ab"
  = Return [VString "ab"]
  /\ Reader.setField (P := Run.platform) (M := Data.withParsers) Data.OneColor [VInt 0] 0 "red"
     = Fail (NumError "ParseInt" "red" ErrSyntax).
Proof. split; reflexivity. Qed.

Lemma getField_override_precedence_witness :
  Reader.getField (P := Run.platform) Data.Tagged "TaggedString" <> Return 0%nat.
Proof.
  apply (proj2 (getField_override_precedence (P := Run.platform)
                  Data.Tagged "TaggedString" 0%nat
                  (Run.tagged "TaggedString" Reader.stringT "String") "String"
                  eq_refl eq_refl ltac:(discriminate))).
Defined.

(** ** Decimal text of integers *)

Lemma digitChar_isDigit (d : Z) :
  (0 <= d < 10)%Z -> Strconv.isDigit (Strconv.digitChar d) = true.
Proof.
  intros H.
  assert (d = 0 \/ d = 1 \/ d = 2 \/ d = 3 \/ d = 4 \/ d = 5 \/ d = 6 \/ d = 7
          \/ d = 8 \/ d = 9)%Z as Hd by lia.
  repeat (destruct Hd as [-> | Hd]; [reflexivity|]). subst; reflexivity.
Qed.

Lemma digitVal_digitChar (d : Z) :
  (0 <= d < 10)%Z -> Strconv.digitVal (Strconv.digitChar d) = d.
Proof.
  intros H.
  assert (d = 0 \/ d = 1 \/ d = 2 \/ d = 3 \/ d = 4 \/ d = 5 \/ d = 6 \/ d = 7
          \/ d = 8 \/ d = 9)%Z as Hd by lia.
  repeat (destruct Hd as [-> | Hd]; [reflexivity|]). subst; reflexivity.
Qed.

Lemma parseDigits_digit (d : Z) (rest : string) (n : Z) :
  (0 <= d < 10)%Z -> (0 <= n)%Z -> (n * 10 + d <= Strconv.maxUint64)%Z ->
  Strconv.parseDigits (String (Strconv.digitChar d) rest) n
  = Strconv.parseDigits rest (n * 10 + d).
Proof.
  intros Hd Hn Hmax. cbn [Strconv.parseDigits].
  rewrite (digitChar_isDigit d Hd), (digitVal_digitChar d Hd).
  assert (Strconv.maxUint64 = 18446744073709551615)%Z as Hm by reflexivity.
  destruct (Z.leb_spec (Strconv.maxUint64 / 10 + 1) n) as [Hc|Hc].
  - rewrite Hm in Hc, Hmax. change (18446744073709551615 / 10)%Z with 1844674407370955161%Z in Hc. lia.
  - destruct (Z.ltb_spec Strconv.maxUint64 (n * 10 + d)) as [Hlt|Hlt]; [lia | reflexivity].
Qed.

(** Reading back the digits that [formatBits] pushes in front of [acc]
    leaves [u] as the value read when [acc] is reached. *)
Lemma parseDigits_formatBits (fuel : nat) :
  forall u acc,
    (0 <= u <= Strconv.maxUint64)%Z -> (u < 10 ^ Z.of_nat fuel)%Z ->
    Strconv.parseDigits (Strconv.formatBits fuel u acc) 0
    = Strconv.parseDigits acc u.
Proof.
  induction fuel as [|fuel IH]; intros u acc Hu Hf.
  - simpl in Hf. assert (u = 0)%Z by lia. subst. reflexivity.
  - cbn [Strconv.formatBits].
    destruct (Z.ltb_spec u 10) as [Hlt|Hge].
    + rewrite parseDigits_digit by lia. reflexivity.
    + rewrite IH.
      * rewrite parseDigits_digit.
        -- f_equal. pose proof (Z.div_mod u 10). lia.
        -- apply Z.mod_pos_bound. lia.
        -- apply Z.div_pos; lia.
        -- pose proof (Z.div_mod u 10). lia.
      * split; [apply Z.div_pos; lia|].
        pose proof (Z.div_mod u 10). pose proof (Z.mod_pos_bound u 10). lia.
      * rewrite Nat2Z.inj_succ, Z.pow_succ_r in Hf by lia.
        apply Z.div_lt_upper_bound; lia.
Qed.

Lemma formatBits_allb (p : ascii -> bool) (fuel : nat) :
  (forall d, (0 <= d < 10)%Z -> p (Strconv.digitChar d) = true) ->
  forall u acc, (0 <= u)%Z -> allb p acc = true ->
    allb p (Strconv.formatBits fuel u acc) = true.
Proof.
  intros Hp. induction fuel as [|fuel IH]; intros u acc Hu Hacc; [exact Hacc|].
  cbn [Strconv.formatBits]. destruct (Z.ltb_spec u 10) as [Hlt|Hge].
  - cbn [allb]. rewrite Hp by lia. exact Hacc.
  - apply IH; [apply Z.div_pos; lia|].
    cbn [allb]. rewrite Hp by (apply Z.mod_pos_bound; lia). exact Hacc.
Qed.

Lemma formatBits_nonempty (fuel : nat) (u : Z) (acc : string) :
  Strconv.formatBits (S fuel) u acc <> "".
Proof.
  revert u acc. induction fuel as [|fuel IH]; intros u acc; cbn [Strconv.formatBits].
  - destruct (u <? 10)%Z; discriminate.
  - destruct (u <? 10)%Z; [discriminate|]. apply IH.
Qed.

Lemma ParseUint_FormatUint (u : Z) :
  (0 <= u <= Strconv.maxUint64)%Z ->
  Strconv.ParseUint (Strconv.FormatUint u) = inr u.
Proof.
  intros Hu. unfold Strconv.ParseUint, Strconv.FormatUint.
  pose proof (formatBits_nonempty 19 u "") as Hne.
  destruct (Strconv.formatBits 20 u "") eqn:Hf; [contradiction|].
  rewrite <- Hf. rewrite parseDigits_formatBits; [reflexivity | exact Hu |].
  assert (Strconv.maxUint64 = 18446744073709551615)%Z as Hm by reflexivity.
  change (10 ^ Z.of_nat 20)%Z with 100000000000000000000%Z. lia.
Qed.

Lemma FormatUint_digits (u : Z) :
  (0 <= u)%Z -> allb Strconv.isDigit (Strconv.FormatUint u) = true.
Proof.
  intros Hu. apply formatBits_allb; [apply digitChar_isDigit | exact Hu | reflexivity].
Qed.

Lemma ParseInt_FormatInt (i : Z) :
  (- 2 ^ 63 <= i < 2 ^ 63)%Z ->
  Strconv.ParseInt (Strconv.FormatInt i) = inr i.
Proof.
  intros Hi. unfold Strconv.FormatInt.
  assert (Strconv.maxUint64 = 18446744073709551615)%Z as Hm by reflexivity.
  change (2 ^ 63)%Z with 9223372036854775808%Z in Hi.
  destruct (Z.ltb_spec i 0) as [Hneg|Hpos].
  - unfold Strconv.ParseInt.
    change (Ascii.eqb "-" "-") with true. change (Ascii.eqb "-" "+") with false.
    cbn [orb negb andb].
    rewrite ParseUint_FormatUint by lia.
    change (2 ^ 63)%Z with 9223372036854775808%Z.
    destruct (Z.ltb_spec 9223372036854775808 (- i)); [lia|]. f_equal. lia.
  - pose proof (FormatUint_digits i Hpos) as Hd.
    pose proof (ParseUint_FormatUint i ltac:(lia)) as Hparse.
    unfold Strconv.ParseInt.
    destruct (Strconv.FormatUint i) as [|c rest] eqn:Hf; [discriminate|].
    cbn [allb] in Hd. apply andb_true_iff in Hd as [Hc _].
    assert (Ascii.eqb c "-" = false) as Hm1.
    { destruct (Ascii.eqb_spec c "-"); [subst; discriminate | reflexivity]. }
    assert (Ascii.eqb c "+" = false) as Hp1.
    { destruct (Ascii.eqb_spec c "+"); [subst; discriminate | reflexivity]. }
    rewrite Hm1, Hp1. cbn [orb negb andb]. rewrite Hparse.
    change (2 ^ 63)%Z with 9223372036854775808%Z.
    destruct (Z.leb_spec 9223372036854775808 i); [lia | reflexivity].
Qed.

(** ** Byte strings *)

Lemma append_nil_r (s : string) : s ++ "" = s.
Proof. induction s as [|c s IH]; simpl; [reflexivity | rewrite IH; reflexivity]. Qed.

Lemma append_assoc (s t u : string) : (s ++ t) ++ u = s ++ (t ++ u).
Proof. induction s as [|c s IH]; simpl; [reflexivity | rewrite IH; reflexivity]. Qed.

Lemma drop_app (s t : string) : Strings.drop (length s) (s ++ t) = t.
Proof. induction s as [|c s IH]; simpl; [destruct t; reflexivity | exact IH]. Qed.

Lemma take_app (s t : string) : Strings.take (length s) (s ++ t) = s.
Proof.
  induction s as [|c s IH]; simpl; [destruct t; reflexivity | rewrite IH; reflexivity].
Qed.

Lemma TrimSuffix_app (s suffix : string) : Strings.TrimSuffix (s ++ suffix) suffix = s.
Proof.
  unfold Strings.TrimSuffix, Strings.HasSuffix.
  rewrite string_length_app.
  replace (length s + length suffix - length suffix)%nat with (length s) by lia.
  rewrite drop_app, take_app, String.eqb_refl.
  destruct (Nat.leb_spec (length suffix) (length s + length suffix)); [reflexivity | lia].
Qed.

Lemma drop_length_cons (a : ascii) (s : string) :
  exists b, Strings.drop (length s) (String a s) = String b ""
            /\ endsWith b (String a s) = true
            /\ forall c, endsWith c (String a s) = Ascii.eqb b c.
Proof.
  revert a. induction s as [|a' s IH]; intros a.
  - exists a. simpl. rewrite Ascii.eqb_refl. auto.
  - destruct (IH a') as (b & Hd & He & Hall). exists b.
    split; [exact Hd|]. split; [exact He | exact Hall].
Qed.

Lemma HasSuffix_single (s : string) (c : ascii) :
  Strings.HasSuffix s (String c "") = endsWith c s.
Proof.
  unfold Strings.HasSuffix. destruct s as [|a s]; [reflexivity|].
  cbn [length]. replace (S (length s) - 1)%nat with (length s) by lia.
  destruct (drop_length_cons a s) as (b & Hd & _ & Hall).
  rewrite Hd, Hall. cbn [Nat.leb andb].
  unfold String.eqb. rewrite Ascii.eqb_sym.
  destruct (Ascii.eqb c b); reflexivity.
Qed.

Lemma ContainsRune_app (s t : string) (c : ascii) :
  Strings.ContainsRune (s ++ t) c = Strings.ContainsRune s c || Strings.ContainsRune t c.
Proof.
  induction s as [|a s IH]; simpl; [reflexivity|].
  rewrite IH, orb_assoc. reflexivity.
Qed.

Lemma endsWith_absent (s : string) (c : ascii) :
  Strings.ContainsRune s c = false -> endsWith c s = false.
Proof.
  induction s as [|a s IH]; simpl; intros H; [reflexivity|].
  apply orb_false_iff in H as [Ha Hs]. destruct s; [exact Ha | exact (IH Hs)].
Qed.

Lemma endsWith_app (s t : string) (c : ascii) :
  t <> "" -> endsWith c (s ++ t) = endsWith c t.
Proof.
  intros Ht. induction s as [|a s IH]; [reflexivity|].
  cbn [append endsWith]. destruct (s ++ t) eqn:Hst.
  - destruct s; [simpl in Hst; contradiction | discriminate].
  - exact IH.
Qed.

Lemma TrimSuffix_absent (s : string) (c : ascii) :
  endsWith c s = false -> Strings.TrimSuffix s (String c "") = s.
Proof.
  intros H. unfold Strings.TrimSuffix. rewrite HasSuffix_single, H. reflexivity.
Qed.

Lemma Split_absent (s : string) (c : ascii) :
  Strings.ContainsRune s c = false -> Strings.Split s c = [s].
Proof.
  induction s as [|a s IH]; simpl; intros H; [reflexivity|].
  apply orb_false_iff in H as [Ha Hs]. rewrite Ha, (IH Hs). reflexivity.
Qed.

Lemma Split_app (s t : string) (c : ascii) :
  Strings.ContainsRune s c = false ->
  Strings.Split (s ++ String c t) c = s :: Strings.Split t c.
Proof.
  induction s as [|a s IH]; simpl; intros H.
  - rewrite Ascii.eqb_refl. reflexivity.
  - apply orb_false_iff in H as [Ha Hs]. rewrite Ha, (IH Hs). reflexivity.
Qed.

Lemma Split_Join (elems : list string) (c : ascii) :
  elems <> [] ->
  Forall (fun e => Strings.ContainsRune e c = false) elems ->
  Strings.Split (Strings.Join elems (String c "")) c = elems.
Proof.
  induction elems as [|e rest IH]; intros Hne Hall; [contradiction|].
  inversion Hall as [|? ? He Hrest]; subst.
  destruct rest as [|e' rest'].
  - simpl. apply Split_absent. exact He.
  - change (Strings.Join (e :: e' :: rest') (String c ""))
      with (e ++ String c (Strings.Join (e' :: rest') (String c ""))).
    rewrite Split_app by exact He. rewrite IH; [reflexivity | discriminate | exact Hrest].
Qed.

Lemma Join_absent (elems : list string) (sep : string) (c : ascii) :
  Strings.ContainsRune sep c = false ->
  Forall (fun e => Strings.ContainsRune e c = false) elems ->
  Strings.ContainsRune (Strings.Join elems sep) c = false.
Proof.
  intros Hsep. induction elems as [|e rest IH]; intros Hall; [reflexivity|].
  inversion Hall as [|? ? He Hrest]; subst.
  destruct rest as [|e' rest']; [exact He|].
  change (Strings.Join (e :: e' :: rest') sep)
    with (e ++ sep ++ Strings.Join (e' :: rest') sep).
  rewrite !ContainsRune_app, He, Hsep, (IH Hrest). reflexivity.
Qed.

(** A joined row does not end with the separator when its last cell is
    not empty. *)
Lemma Join_endsWith (elems : list string) (c : ascii) :
  elems <> [] ->
  Forall (fun e => Strings.ContainsRune e c = false) elems ->
  last elems "" <> "" ->
  endsWith c (Strings.Join elems (String c "")) = false
  /\ Strings.Join elems (String c "") <> "".
Proof.
  induction elems as [|e rest IH]; intros Hne Hall Hlast; [contradiction|].
  inversion Hall as [|? ? He Hrest]; subst.
  destruct rest as [|e' rest'].
  - simpl in *. split; [apply endsWith_absent; exact He | exact Hlast].
  - change (Strings.Join (e :: e' :: rest') (String c ""))
      with (e ++ String c (Strings.Join (e' :: rest') (String c ""))).
    destruct IH as [IH1 IH2]; [discriminate | exact Hrest | exact Hlast |].
    split.
    + rewrite endsWith_app by discriminate.
      cbn [endsWith].
      destruct (Strings.Join (e' :: rest') (String c "")) eqn:HJ; [contradiction | exact IH1].
    + destruct e; discriminate.
Qed.

Lemma cutAfter_line (d : ascii) (line rest : string) :
  Strings.ContainsRune line d = false ->
  Reader.cutAfter d (line ++ String d rest) = Some (line ++ String d "", rest).
Proof.
  induction line as [|a s IH]; simpl; intros H.
  - rewrite Ascii.eqb_refl. reflexivity.
  - apply orb_false_iff in H as [Ha Hs]. rewrite Ha, (IH Hs). reflexivity.
Qed.

(** Surrounding quotes: nothing is stripped from a text that neither
    starts nor ends with a double quote. *)
Lemma unquote_id (s : string) :
  Strings.HasPrefix s Reader.quote = false ->
  Strings.HasSuffix s Reader.quote = false ->
  Strings.TrimPrefix (Strings.TrimSuffix s Reader.quote) Reader.quote = s.
Proof.
  intros Hp Hs. unfold Strings.TrimSuffix. rewrite Hs.
  unfold Strings.TrimPrefix. rewrite Hp. reflexivity.
Qed.

(** ** White space *)

Lemma stripAny_headFree (ps : list string) (c : ascii) (rest : string) :
  headFree ps c = true -> Strings.stripAny ps (String c rest) = None.
Proof.
  induction ps as [|p ps IH]; simpl; intros H; [reflexivity|].
  apply andb_true_iff in H as [Hp Hps].
  destruct p as [|a p]; [discriminate|].
  cbn [Strings.HasPrefix]. apply negb_true_iff in Hp. rewrite Hp. cbn [andb].
  exact (IH Hps).
Qed.

Lemma rev_app (s t : string) : Strings.rev (s ++ t) = Strings.rev t ++ Strings.rev s.
Proof.
  induction s as [|c s IH]; simpl.
  - rewrite append_nil_r. reflexivity.
  - rewrite IH, append_assoc. reflexivity.
Qed.

Lemma rev_involutive (s : string) : Strings.rev (Strings.rev s) = s.
Proof.
  induction s as [|c s IH]; simpl; [reflexivity|].
  rewrite rev_app, IH. reflexivity.
Qed.

Lemma allb_app (p : ascii -> bool) (s t : string) :
  allb p (s ++ t) = allb p s && allb p t.
Proof.
  induction s as [|c s IH]; simpl; [reflexivity|].
  rewrite IH, andb_assoc. reflexivity.
Qed.

Lemma allb_rev (p : ascii -> bool) (s : string) : allb p (Strings.rev s) = allb p s.
Proof.
  induction s as [|c s IH]; simpl; [reflexivity|].
  rewrite allb_app, IH. simpl. rewrite andb_true_r, andb_comm. reflexivity.
Qed.

Lemma stripAny_nil (ps : list string) :
  Strings.stripAny ps "" = None \/ Strings.stripAny ps "" = Some "".
Proof.
  induction ps as [|p ps IH]; simpl; [left; reflexivity|].
  destruct p; simpl; [right; reflexivity | exact IH].
Qed.

Lemma trimLeft_nil (ps : list string) (fuel : nat) : Strings.trimLeft fuel ps "" = "".
Proof.
  induction fuel as [|fuel IH]; simpl; [reflexivity|].
  destruct (stripAny_nil ps) as [-> | ->]; [reflexivity | exact IH].
Qed.

Lemma trimLeft_solid (ps : list string) (fuel : nat) (s : string) :
  allb (headFree ps) s = true -> Strings.trimLeft fuel ps s = s.
Proof.
  intros H. destruct s as [|c s]; [apply trimLeft_nil|].
  destruct fuel as [|fuel]; [reflexivity|].
  simpl in H. apply andb_true_iff in H as [Hc _].
  simpl. rewrite (stripAny_headFree ps c s Hc). reflexivity.
Qed.

(** [TrimSpace] leaves a text made of solid bytes as it is. *)
Lemma TrimSpace_solid (s : string) : allb solid s = true -> Strings.TrimSpace s = s.
Proof.
  intros H.
  assert (allb (headFree Strings.spaces) s = true
          /\ allb (headFree (map Strings.rev Strings.spaces)) s = true) as [H1 H2].
  { clear -H. induction s as [|c s IH]; cbn [allb] in *; [auto|].
    apply andb_true_iff in H as [Hc Hs]. unfold solid in Hc.
    apply andb_true_iff in Hc as [Hc1 Hc2].
    destruct (IH Hs) as [IH1 IH2]. rewrite Hc1, Hc2, IH1, IH2. auto. }
  unfold Strings.TrimSpace, Strings.TrimLeftSpace, Strings.TrimRightSpace.
  rewrite (trimLeft_solid _ _ _ H1).
  rewrite trimLeft_solid by (rewrite allb_rev; exact H2).
  apply rev_involutive.
Qed.

Lemma allb_impl (p q : ascii -> bool) (s : string) :
  (forall c, p c = true -> q c = true) -> allb p s = true -> allb q s = true.
Proof.
  intros Hpq. induction s as [|c s IH]; simpl; [reflexivity|].
  intros H. apply andb_true_iff in H as [Hc Hs]. rewrite (Hpq c Hc), (IH Hs). reflexivity.
Qed.

Lemma allb_absent (p : ascii -> bool) (s : string) (c : ascii) :
  p c = false -> allb p s = true -> Strings.ContainsRune s c = false.
Proof.
  intros Hc. induction s as [|a s IH]; simpl; [reflexivity|].
  intros H. apply andb_true_iff in H as [Ha Hs].
  destruct (Ascii.eqb_spec a c) as [->|_]; [congruence|]. exact (IH Hs).
Qed.

Lemma numeric_solid (c : ascii) : numeric c = true -> solid c = true.
Proof.
  destruct c as [[] [] [] [] [] [] [] []]; vm_compute; intros H;
    first [reflexivity | discriminate H].
Qed.

Lemma FormatInt_numeric (i : Z) : allb numeric (Strconv.FormatInt i) = true.
Proof.
  unfold Strconv.FormatInt. destruct (Z.ltb_spec i 0).
  - cbn [allb]. change (numeric "-") with true. cbn [andb].
    apply (allb_impl Strconv.isDigit); [|apply FormatUint_digits; lia].
    intros c Hc. unfold numeric. rewrite Hc. reflexivity.
  - apply (allb_impl Strconv.isDigit); [|apply FormatUint_digits; lia].
    intros c Hc. unfold numeric. rewrite Hc. reflexivity.
Qed.

Lemma FormatUint_numeric (u : Z) : (0 <= u)%Z -> allb numeric (Strconv.FormatUint u) = true.
Proof.
  intros Hu. apply (allb_impl Strconv.isDigit); [|apply FormatUint_digits; exact Hu].
  intros c Hc. unfold numeric. rewrite Hc. reflexivity.
Qed.

(** ** What the writer writes *)

Section WriterOutput.
Context {P : Platform} {M : Methods}.
Local Open Scope writer_scope.

Lemma WriteString_ok (s : string) (b : bufioWriter) :
  err b = None -> WriteString s b = (Return tt, emit s b).
Proof. intros H. unfold WriteString. rewrite H. reflexivity. Qed.

Lemma bindW_WriteString {B} (s : string) (k : unit -> W B) (b : bufioWriter) :
  err b = None -> bindW (WriteString s) k b = k tt (emit s b).
Proof. intros H. unfold bindW, WriteString. rewrite H. reflexivity. Qed.

Lemma bindW_WriteRune {B} (c : ascii) (k : unit -> W B) (b : bufioWriter) :
  err b = None -> bindW (WriteRune c) k b = k tt (emit (String c "") b).
Proof. apply bindW_WriteString. Qed.

Lemma bindW_Return {A B} (m : W A) (k : A -> W B) (b b' : bufioWriter) (a : A) :
  m b = (Return a, b') -> bindW m k b = k a b'.
Proof. intros H. unfold bindW. rewrite H. reflexivity. Qed.

Lemma emit_emit (s t : string) (b : bufioWriter) : emit t (emit s b) = emit (s ++ t) b.
Proof. unfold emit. simpl. rewrite append_assoc. reflexivity. Qed.

Lemma emit_nil (b : bufioWriter) : err b = None -> emit "" b = b.
Proof.
  destruct b as [s u e]. simpl. intros ->. unfold emit. simpl.
  rewrite append_nil_r. reflexivity.
Qed.

Lemma Join_cons (e : string) (rest : list string) (sep : string) :
  Strings.Join (e :: rest) sep = e ++ sepBefore sep rest.
Proof.
  revert e. induction rest as [|e' rest IH]; intros e.
  - simpl. rewrite append_nil_r. reflexivity.
  - change (Strings.Join (e :: e' :: rest) sep) with (e ++ sep ++ Strings.Join (e' :: rest) sep).
    rewrite IH. reflexivity.
Qed.

Lemma writeNames_later (fields : list StructField) :
  Forall plainField fields ->
  forall i b, (0 < i)%nat -> err b = None ->
    Writer.writeNames "," fields i b
    = (Return tt, emit (sepBefore "," (map columnName fields)) b).
Proof.
  induction 1 as [|f fields Hf _ IH]; intros i b Hi Hb.
  - simpl. rewrite emit_nil by exact Hb. reflexivity.
  - destruct Hf as (Hexp & Han & _ & _ & _ & Hdash & _ & Hclean & _).
    cbn [Writer.writeNames map sepBefore]. rewrite Han, Hexp. cbn [orb negb].
    unfold columnName in *. unfold Get in Hdash.
    assert ((0 <? i)%nat = true) as Hpos by (apply Nat.ltb_lt; exact Hi).
    destruct (Lookup (Tag f) "csv") as [tag|].
    + destruct (String.eqb_spec tag "-") as [->|_]; [contradiction|].
      rewrite Hclean, Hpos.
      rewrite bindW_WriteRune by exact Hb.
      rewrite bindW_WriteString by reflexivity.
      rewrite IH by (simpl; auto; lia).
      rewrite !emit_emit. reflexivity.
    + rewrite Hpos.
      rewrite bindW_WriteRune by exact Hb.
      rewrite bindW_WriteString by reflexivity.
      rewrite IH by (simpl; auto; lia).
      rewrite !emit_emit. reflexivity.
Qed.

Lemma writeNames_first (fields : list StructField) (b : bufioWriter) :
  Forall plainField fields -> err b = None ->
  Writer.writeNames "," fields 0 b
  = (Return tt, emit (Strings.Join (map columnName fields) ",") b).
Proof.
  intros Hall Hb. destruct Hall as [|f fields Hf Hrest].
  - simpl. rewrite emit_nil by exact Hb. reflexivity.
  - destruct Hf as (Hexp & Han & _ & _ & _ & Hdash & _ & Hclean & _).
    cbn [map]. rewrite Join_cons.
    cbn [Writer.writeNames]. rewrite Han, Hexp. cbn [orb negb].
    unfold columnName in *. unfold Get in Hdash.
    destruct (Lookup (Tag f) "csv") as [tag|].
    + destruct (String.eqb_spec tag "-") as [->|_]; [contradiction|].
      rewrite Hclean. cbn [Nat.ltb Nat.leb].
      unfold bindW at 1. cbn [ret].
      rewrite bindW_WriteString by exact Hb.
      rewrite (writeNames_later fields Hrest) by (simpl; auto).
      rewrite !emit_emit. reflexivity.
    + cbn [Nat.ltb Nat.leb].
      unfold bindW at 1. cbn [ret].
      rewrite bindW_WriteString by exact Hb.
      rewrite (writeNames_later fields Hrest) by (simpl; auto).
      rewrite !emit_emit. reflexivity.
Qed.

(** [getString] on a value that fits its field is its text. *)
Lemma getString_render (f : StructField) (x : govalue) :
  plainField f -> fits f x -> getString true (Type_ f) x = Return (render x).
Proof.
  intros (_ & _ & (name & k & Ht & Hk) & _ & Hstr & _) Hfit.
  unfold fits in Hfit. rewrite Ht in *. simpl in Hfit.
  cbn [getString negb]. rewrite Hstr.
  destruct k; try discriminate Hk; destruct x; try contradiction; reflexivity.
Qed.

(** The cell of a value that fits its field is clean. *)
Lemma render_clean (f : StructField) (x : govalue) :
  plainField f -> fits f x -> clean (render x).
Proof.
  intros (_ & _ & (name & k & Ht & Hk) & _) Hfit.
  unfold fits in Hfit. rewrite Ht in Hfit. simpl in Hfit.
  assert (forall s, allb numeric s = true -> clean s) as Hnum.
  { intros s Hs. split; apply (allb_absent numeric); auto. }
  destruct k; try discriminate Hk; destruct x; try contradiction; simpl;
    try (apply Hnum; apply FormatInt_numeric);
    try (apply Hnum; apply FormatUint_numeric; lia);
    try exact (proj1 Hfit).
  destruct b; split; reflexivity.
Qed.

Lemma FieldByName_nth (all : list StructField) :
  NoDup (map Name all) ->
  forall (v : structValue) i f x,
    nth_error all i = Some f -> nth_error v i = Some x ->
    FieldByName all v (Name f) = Some (f, x).
Proof.
  induction all as [|g all IH]; intros Hnd v i f x Hf Hx.
  - destruct i; discriminate.
  - inversion Hnd as [|? ? Hnotin Hnd']; subst.
    destruct v as [|y v]; [destruct i; discriminate|].
    destruct i as [|i]; simpl in Hf, Hx.
    + inversion Hf; inversion Hx; subst. simpl. rewrite String.eqb_refl. reflexivity.
    + simpl. destruct (String.eqb_spec (Name g) (Name f)) as [Heq|_].
      * exfalso. apply Hnotin. rewrite Heq. apply in_map.
        apply nth_error_In with i. exact Hf.
      * apply (IH Hnd' v i f x Hf Hx).
Qed.

Lemma writeFields_later (all : list StructField) (v : structValue)
      (fields : list StructField) (cells : list string) :
  cellsOf all v fields cells ->
  forall i b, (0 < i)%nat -> err b = None ->
    Writer.writeFields "," all (Some v) fields i b
    = (Return tt, emit (sepBefore "," cells) b).
Proof.
  induction 1 as [|f c fields cells [Hf (x & Hby & Hget)] _ IH]; intros i b Hi Hb.
  - simpl. rewrite emit_nil by exact Hb. reflexivity.
  - destruct Hf as (Hexp & _ & _ & _ & _ & Hdash & Hname & _).
    cbn [Writer.writeFields sepBefore]. rewrite Hname, Hexp. cbn [negb].
    destruct (String.eqb_spec (Get (Tag f) "csv") "-") as [Heq|_]; [contradiction|].
    assert ((0 <? i)%nat = true) as Hpos by (apply Nat.ltb_lt; exact Hi).
    rewrite Hpos, bindW_WriteRune by exact Hb.
    rewrite Hby, Hexp, Hget. unfold bindW at 1. cbn [lift].
    rewrite bindW_WriteString by reflexivity.
    rewrite IH by (simpl; auto; lia).
    rewrite !emit_emit. reflexivity.
Qed.

Lemma writeFields_first (all : list StructField) (v : structValue)
      (fields : list StructField) (cells : list string) (b : bufioWriter) :
  cellsOf all v fields cells -> err b = None ->
  Writer.writeFields "," all (Some v) fields 0 b
  = (Return tt, emit (Strings.Join cells ",") b).
Proof.
  intros Hall Hb. destruct Hall as [|f c fields cells [Hf (x & Hby & Hget)] Hrest].
  - simpl. rewrite emit_nil by exact Hb. reflexivity.
  - destruct Hf as (Hexp & _ & _ & _ & _ & Hdash & Hname & _).
    rewrite Join_cons.
    cbn [Writer.writeFields]. rewrite Hname, Hexp. cbn [negb].
    destruct (String.eqb_spec (Get (Tag f) "csv") "-") as [Heq|_]; [contradiction|].
    cbn [Nat.ltb Nat.leb]. unfold bindW at 1. cbn [ret].
    rewrite Hby, Hexp, Hget. unfold bindW at 1. cbn [lift].
    rewrite bindW_WriteString by exact Hb.
    rewrite (writeFields_later all v fields cells Hrest) by (simpl; auto).
    rewrite !emit_emit. reflexivity.
Qed.

Lemma cellsOf_record (fields : list StructField) (record : structValue) :
  Forall plainField fields -> NoDup (map Name fields) ->
  Forall2 fits fields record ->
  cellsOf fields record fields (map render record).
Proof.
  intros Hplain Hnd Hfits.
  assert (forall fs vs, Forall2 fits fs vs ->
            (forall f x, In (f, x) (combine fs vs) ->
               plainField f /\ FieldByName fields record (Name f) = Some (f, x)) ->
            cellsOf fields record fs (map render vs)) as Hgen.
  { induction 1 as [|f x fs vs Hfx _ IH]; intros Hin; [constructor|].
    destruct (Hin f x (or_introl eq_refl)) as [Hp Hby].
    constructor.
    - split; [exact Hp|]. exists x. split; [exact Hby | apply getString_render; assumption].
    - apply IH. intros f' x' H'. apply Hin. right. exact H'. }
  apply Hgen; [exact Hfits|].
  intros f x Hin. apply In_nth_error in Hin as [i Hi].
  assert (nth_error fields i = Some f /\ nth_error record i = Some x) as [Hf Hx].
  { clear -Hi Hfits. revert i Hi. induction Hfits as [|g y fs vs _ _ IH]; intros i Hi.
    - destruct i; discriminate.
    - destruct i as [|i]; simpl in *.
      + inversion Hi; subst. auto.
      + apply IH. exact Hi. }
  split.
  - rewrite Forall_forall in Hplain. apply Hplain. apply nth_error_In with i. exact Hf.
  - apply (FieldByName_nth fields Hnd record i f x Hf Hx).
Qed.

Lemma writeElems_text (fields : list StructField) (records : list structValue) :
  Forall plainField fields -> NoDup (map Name fields) ->
  Forall (fun record => Forall2 fits fields record) records ->
  forall b, err b = None ->
    Writer.writeElems (Writer.NewWriter fresh) (writerType fields) Reader.LF
      (map StructElem records) b
    = (Return tt, emit (rowsText records) b).
Proof.
  intros Hplain Hnd. induction 1 as [|record records Hrec _ IH]; intros b Hb.
  - simpl. rewrite emit_nil by exact Hb. reflexivity.
  - cbn [map Writer.writeElems rowsText].
    unfold bindW at 1. unfold Writer.writeElem. cbn [writerType Writer.MarshalCSV
      Writer.VisibleFields Writer.NewWriter Writer.Comma].
    rewrite (writeFields_first fields record fields (map render record) b
               (cellsOf_record fields record Hplain Hnd Hrec) Hb).
    rewrite bindW_WriteString by reflexivity.
    rewrite IH by reflexivity. rewrite !emit_emit. reflexivity.
Qed.

(** The whole call: the document is in the sink, the buffer is empty. *)
Lemma WriteCSV_text (fields : list StructField) (records : list structValue) :
  records <> [] ->
  Forall plainField fields -> NoDup (map Name fields) ->
  Forall (fun record => Forall2 fits fields record) records ->
  Writer.run (Writer.NewWriter fresh) (writerType fields) (map StructElem records)
  = (Return tt, {| sink := documentText fields records; buf := ""; err := None |}).
Proof.
  intros Hne Hplain Hnd Hrecs.
  unfold Writer.run, Writer.WriteCSV.
  cbn [Writer.NewWriter Writer.WithHeader Writer.UseCRLF Writer.writer_].
  destruct records as [|record records]; [contradiction|].
  assert (Writer.writeHeader (Writer.NewWriter fresh) (writerType fields)
            (map StructElem (record :: records)) fresh
          = (Return tt, emit (Strings.Join (map columnName fields) ",") fresh)) as Hhead.
  { unfold Writer.writeHeader.
    cbn [map writerType Writer.Header Writer.VisibleFields Writer.NewWriter Writer.Comma].
    apply writeNames_first; [exact Hplain | reflexivity]. }
  erewrite bindW_Return.
  2:{ erewrite bindW_Return by exact Hhead. apply WriteString_ok. reflexivity. }
  cbn [ret]. rewrite emit_emit.
  erewrite bindW_Return.
  2:{ apply (writeElems_text fields (record :: records) Hplain Hnd Hrecs). reflexivity. }
  rewrite emit_emit. unfold Flush, emit, documentText. simpl.
  rewrite append_assoc. reflexivity.
Qed.

End WriterOutput.

(** ** What the reader reads back *)

Section ReaderInput.
Context {P : Platform} {M : Methods}.

Lemma cells_line (b : Reader.bufioReader) (cs : list string) :
  cs <> [] -> Forall clean cs -> lastCellKept cs ->
  Reader.cells (Reader.NewReader b) (Strings.Join cs "," ++ Reader.LF) = cs.
Proof.
  intros Hne Hclean Hlast. unfold Reader.cells.
  cbn [Reader.NewReader Reader.UseCRLF Reader.Comma].
  rewrite TrimSuffix_app.
  assert (Forall (fun e => Strings.ContainsRune e "," = false) cs) as Hcomma.
  { apply Forall_impl with (2 := Hclean). intros c [Hc _]. exact Hc. }
  rewrite TrimSuffix_absent; [apply Split_Join; assumption|].
  destruct cs as [|c [|c' cs']]; [contradiction| |].
  - simpl. apply endsWith_absent. inversion Hcomma; assumption.
  - apply Join_endsWith; [discriminate | exact Hcomma |].
    apply Hlast. simpl. lia.
Qed.

Lemma wrapInt_small (k : Kind.t) (i : Z) :
  (- 2 ^ (bitSize k - 1) <= i < 2 ^ (bitSize k - 1))%Z ->
  wrapInt (bitSize k) i = i /\ (- 2 ^ 63 <= i < 2 ^ 63)%Z.
Proof.
  unfold wrapInt. intros H.
  assert (bitSize k = 8 \/ bitSize k = 16 \/ bitSize k = 32 \/ bitSize k = 64)%Z as Hb
    by (destruct k; simpl; auto).
  destruct Hb as [Hb | [Hb | [Hb | Hb]]]; rewrite Hb in *; simpl in H;
    (split; [rewrite Z.mod_small; simpl; lia | simpl; lia]).
Qed.

Lemma wrapUint_small (k : Kind.t) (u : Z) :
  (0 <= u < 2 ^ bitSize k)%Z ->
  wrapUint (bitSize k) u = u /\ (0 <= u <= Strconv.maxUint64)%Z.
Proof.
  unfold wrapUint. intros H.
  assert (Strconv.maxUint64 = 18446744073709551615)%Z as Hm by reflexivity.
  assert (bitSize k = 8 \/ bitSize k = 16 \/ bitSize k = 32 \/ bitSize k = 64)%Z as Hb
    by (destruct k; simpl; auto).
  destruct Hb as [Hb | [Hb | [Hb | Hb]]]; rewrite Hb in *; simpl in H;
    (split; [rewrite Z.mod_small; simpl; lia | simpl; lia]).
Qed.

Lemma TrimSpace_numeric (s : string) : allb numeric s = true -> Strings.TrimSpace s = s.
Proof.
  intros H. apply TrimSpace_solid. apply (allb_impl numeric); [apply numeric_solid | exact H].
Qed.

(** [setField] on the cell of a value that fits the field stores this
    value. *)
Lemma setField_render (fields : list StructField) (item : structValue)
      (i : nat) (f : StructField) (x : govalue) :
  nth_error fields i = Some f -> (i < List.length item)%nat ->
  plainField f -> fits f x ->
  Reader.setField fields item i (render x) = Return (update i x item).
Proof.
  intros Hf Hi (Hexp & _ & (name & k & Ht & Hk) & Hparse & _) Hfit.
  destruct (nth_error item i) as [y|] eqn:Hy; [|apply nth_error_None in Hy; lia].
  unfold Reader.setField, Reader.Field, Reader.Interface.
  rewrite Hf, Hy. cbn [bind fst snd]. rewrite Hexp, Hparse. cbn [bind].
  rewrite ?Hf, Hy. cbn [bind fst snd].
  unfold fits in Hfit. rewrite Ht in *. cbn [kindOf] in *.
  destruct k; try discriminate Hk; destruct x; try contradiction;
    cbn [Kind.eqb negb render]; unfold Fmt.SprintInt, Fmt.SprintUint;
    match goal with
    | |- context [wrapInt (bitSize ?K) _] =>
        destruct (wrapInt_small K _ Hfit) as [Hw Hr];
        rewrite (TrimSpace_numeric _ (FormatInt_numeric _)),
          (ParseInt_FormatInt _ Hr); cbn [Reader.numError bind]; rewrite Hw; reflexivity
    | |- context [wrapUint (bitSize ?K) _] =>
        destruct (wrapUint_small K _ Hfit) as [Hw Hr];
        rewrite (TrimSpace_numeric _ (FormatUint_numeric _ (proj1 Hr))),
          (ParseUint_FormatUint _ Hr); cbn [Reader.numError bind]; rewrite Hw; reflexivity
    | _ => idtac
    end.
  - destruct b; reflexivity.
  - destruct Hfit as (_ & h & Hh & Hn). rewrite Hh. cbn [Reader.numError bind].
    rewrite Hn. reflexivity.
  - destruct Hfit as (_ & Hh). rewrite Hh. reflexivity.
  - destruct Hfit as (_ & Hp & Hs). rewrite (unquote_id s Hp Hs). reflexivity.
Qed.

Lemma update_app_r {A} (l1 l2 : list A) (j : nat) (x : A) :
  update (List.length l1 + j) x (l1 ++ l2)%list = (l1 ++ update j x l2)%list.
Proof.
  induction l1 as [|a l1 IH]; simpl; [reflexivity|]. rewrite IH. reflexivity.
Qed.

Lemma firstn_succ {A} (l : list A) (k : nat) (x : A) :
  nth_error l k = Some x -> firstn (S k) l = (firstn k l ++ [x])%list.
Proof.
  revert k. induction l as [|a l IH]; intros k H; [destruct k; discriminate|].
  destruct k as [|k]; simpl in *.
  - inversion H; subst. reflexivity.
  - rewrite <- (IH k H). reflexivity.
Qed.

Lemma skipn_nth {A} (l : list A) (k : nat) (x : A) :
  nth_error l k = Some x -> skipn k l = x :: skipn (S k) l.
Proof.
  revert k. induction l as [|a l IH]; intros k H; [destruct k; discriminate|].
  destruct k as [|k]; simpl in *.
  - inversion H; subst. reflexivity.
  - apply (IH k H).
Qed.

Lemma update_fill (record item : structValue) (k : nat) (x : govalue) :
  nth_error record k = Some x -> (k < List.length item)%nat ->
  update k x (fill k record item) = fill (S k) record item.
Proof.
  intros Hx Hk. unfold fill.
  assert (List.length (firstn k record) = k) as Hlen.
  { apply firstn_length_le. apply Nat.lt_le_incl. apply nth_error_Some. congruence. }
  destruct (nth_error item k) as [y|] eqn:Hy; [|apply nth_error_None in Hy; lia].
  rewrite (skipn_nth item k y Hy).
  replace k with (List.length (firstn k record) + 0)%nat at 1 by lia.
  rewrite update_app_r. cbn [update]. rewrite (firstn_succ record k x Hx).
  rewrite <- app_assoc. reflexivity.
Qed.

Lemma Forall2_nth {A B} (R : A -> B -> Prop) (l1 : list A) (l2 : list B) :
  Forall2 R l1 l2 ->
  forall k a, nth_error l1 k = Some a -> exists b, nth_error l2 k = Some b /\ R a b.
Proof.
  induction 1 as [|a b l1 l2 Hab _ IH]; intros k a' Hk; [destruct k; discriminate|].
  destruct k as [|k]; simpl in *.
  - inversion Hk; subst. exists b. auto.
  - apply IH. exact Hk.
Qed.

Lemma Forall2_length_eq {A B} (R : A -> B -> Prop) (l1 : list A) (l2 : list B) :
  Forall2 R l1 l2 -> List.length l1 = List.length l2.
Proof. induction 1; simpl; congruence. Qed.

(** The column loop from column [k] on, the first [k] fields being set. *)
Lemma bindFields_fill (fields : list StructField) (record item : structValue) :
  shapeOK fields -> Forall2 fits fields record ->
  List.length item = List.length fields ->
  forall n k, (k + n = List.length fields)%nat ->
    Reader.bindFields fields (skipn k (map columnName fields)) (map render record) k
      (fill k record item)
    = Return record.
Proof.
  intros (Hplain & _ & Hres & _) Hfits Hlen.
  pose proof (Forall2_length_eq _ _ _ Hfits) as Hlr.
  induction n as [|n IH]; intros k Hk.
  - rewrite skipn_all2 by (rewrite length_map; lia). simpl.
    unfold fill. rewrite firstn_all2 by lia. rewrite skipn_all2 by lia.
    rewrite app_nil_r. reflexivity.
  - destruct (nth_error fields k) as [f|] eqn:Hf; [|apply nth_error_None in Hf; lia].
    destruct (Forall2_nth _ _ _ Hfits k f Hf) as (x & Hx & Hfit).
    rewrite (skipn_nth (map columnName fields) k (columnName f))
      by (rewrite nth_error_map, Hf; reflexivity).
    cbn [Reader.bindFields]. rewrite (Hres k f Hf).
    rewrite nth_error_map, Hx. cbn [option_map].
    rewrite (setField_render fields _ k f x Hf).
    + cbn [bind]. rewrite update_fill by (try exact Hx; lia). apply IH. lia.
    + unfold fill. rewrite List.length_app, length_firstn, length_skipn. lia.
    + rewrite Forall_forall in Hplain. apply Hplain. apply nth_error_In with k. exact Hf.
    + exact Hfit.
Qed.

Lemma Forall2_clean_cells (fields : list StructField) (record : structValue) :
  Forall plainField fields -> Forall2 fits fields record ->
  Forall clean (map render record).
Proof.
  intros Hplain Hfits. induction Hfits as [|f x fs vs Hfx _ IH]; [constructor|].
  inversion Hplain; subst. constructor; [apply (render_clean f); assumption | auto].
Qed.

(** One line of the document decodes to its record. *)
Lemma decodeLine_row (b : Reader.bufioReader) (fields : list StructField)
      (record : structValue) :
  shapeOK fields -> recordOK fields record ->
  Reader.decodeLine (Reader.NewReader b) (readerType fields)
    (Reader.cells (Reader.NewReader b)
       (Strings.Join (map columnName fields) "," ++ Reader.LF))
    (Strings.Join (map render record) "," ++ Reader.LF)
  = Return record.
Proof.
  intros Hshape [Hfits Hlast].
  pose proof Hshape as (Hplain & _ & _ & Hnames).
  unfold Reader.decodeLine.
  cbn [Reader.NewReader Reader.WithHeader negb bind readerType
       Reader.UnmarshalCSVWithHeader Reader.VisibleFields].
  change {| Reader.reader_ := b; Reader.WithHeader := true; Reader.Comma := ",";
            Reader.UseCRLF := false |} with (Reader.NewReader b).
  destruct fields as [|f fields].
  - inversion Hfits; subst. reflexivity.
  - inversion Hfits as [|? x ? vs Hfx Hrest]; subst.
    rewrite (cells_line b (map columnName (f :: fields))); try assumption.
    + rewrite (cells_line b (map render (x :: vs))); try assumption.
      * unfold Reader.New. cbn [readerType Reader.VisibleFields].
        apply (bindFields_fill (f :: fields) (x :: vs) (map (fun g => Zero (Type_ g)) (f :: fields))
                 Hshape Hfits (length_map _ _) (List.length (f :: fields)) 0%nat).
        reflexivity.
      * discriminate.
      * apply (Forall2_clean_cells (f :: fields)); assumption.
    + discriminate.
    + apply Forall_map. apply Forall_impl with (2 := Hplain).
      intros g Hg. apply Hg.
Qed.

Lemma rowsText_length (record : structValue) (records : list structValue) :
  (length (rowsText records) < length (rowsText (record :: records)))%nat.
Proof. cbn [rowsText]. rewrite !string_length_app. simpl. lia. Qed.

(** The row loop on the lines of the records. *)
Lemma readRows_rows (b : Reader.bufioReader) (fields : list StructField)
      (attrs : list string) (records : list structValue) :
  Forall plainField fields ->
  Forall (fun record =>
            Forall2 fits fields record
            /\ Reader.decodeLine (Reader.NewReader b) (readerType fields) attrs
                 (Strings.Join (map render record) "," ++ Reader.LF) = Return record)
         records ->
  forall fuel result,
    (length (rowsText records) < fuel)%nat ->
    Reader.readRows fuel (Reader.NewReader b) (readerType fields) attrs
      (source (rowsText records)) result
    = Return (result ++ records)%list.
Proof.
  intros Hplain. induction 1 as [|record records [Hfits Hdec] _ IH]; intros fuel result Hfuel.
  - destruct fuel as [|fuel]; [simpl in Hfuel; lia|].
    simpl. rewrite app_nil_r. reflexivity.
  - destruct fuel as [|fuel]; [lia|].
    cbn [Reader.readRows rowsText]. unfold Reader.ReadString, source.
    cbn [Reader.pending Reader.final].
    change (Reader.LF ++ rowsText records) with (String Reader.EOL (rowsText records)).
    rewrite cutAfter_line.
    + change (Strings.Join (map render record) "," ++ String Reader.EOL "")
        with (Strings.Join (map render record) "," ++ Reader.LF).
      rewrite Hdec. cbn [bind].
      change {| Reader.pending := rowsText records; Reader.final := EOF |}
        with (source (rowsText records)).
      rewrite IH.
      * rewrite <- app_assoc. reflexivity.
      * pose proof (rowsText_length record records). unfold structValue in *. lia.
    + apply Join_absent; [reflexivity|].
      apply Forall_impl with (2 := Forall2_clean_cells fields record Hplain Hfits).
      intros c [_ Hc]. exact Hc.
Qed.

End ReaderInput.

(** ** Writing and reading back *)

(** C1, as the code has it.  Under the default configuration, for a
    record type whose fields are all exported, not embedded, not excluded,
    of text, integer, unsigned, float or boolean kind, without [Parse] or
    [String] methods, whose column names are clean and resolve each to its
    own field, and for a non-empty collection of records whose values fit
    their fields (a clean text that neither starts nor ends with a double
    quote, an integer in the range of its kind, a float whose text is clean
    and parses back to it), the last cell of a line being non-empty when
    the line has several cells: [WriteCSV] succeeds and leaves the document
    in the sink, and [ReadCSV] on this document returns the collection. *)
Theorem WriteCSV_then_ReadCSV
  (P : Platform) (M : Methods) (fields : list StructField)
  (records : list structValue) :
  records <> [] ->
  shapeOK fields ->
  Forall (recordOK fields) records ->
  Writer.run (Writer.NewWriter fresh) (writerType fields) (map StructElem records)
  = (Return tt, {| sink := documentText fields records; buf := ""; err := None |})
  /\ Reader.ReadCSV (Reader.NewReader (source (documentText fields records)))
       (readerType fields)
     = Return records.
Proof.
  intros Hne Hshape Hrecs.
  pose proof Hshape as (Hplain & Hnd & _ & _).
  assert (Forall (fun record => Forall2 fits fields record) records) as Hfits.
  { apply Forall_impl with (2 := Hrecs). intros record [H _]. exact H. }
  split; [apply WriteCSV_text; assumption|].
  rewrite ReadCSV_unfold.
  cbn [Reader.NewReader Reader.WithHeader Reader.reader_ source Reader.pending Reader.final].
  unfold documentText.
  change (Reader.LF ++ rowsText records) with (String Reader.EOL (rowsText records)).
  rewrite cutAfter_line.
  - change (Strings.Join (map columnName fields) "," ++ String Reader.EOL "")
      with (Strings.Join (map columnName fields) "," ++ Reader.LF).
    change {| Reader.pending := rowsText records; Reader.final := EOF |}
      with (source (rowsText records)).
    change {| Reader.reader_ :=
                source (Strings.Join (map columnName fields) ","
                        ++ String Reader.EOL (rowsText records));
              Reader.WithHeader := true; Reader.Comma := ","; Reader.UseCRLF := false |}
      with (Reader.NewReader
              (source (Strings.Join (map columnName fields) ","
                       ++ String Reader.EOL (rowsText records)))).
    apply readRows_rows; [exact Hplain | | lia].
    apply Forall_impl with (2 := Hrecs). intros record Hrec.
    split; [apply Hrec | apply decodeLine_row; assumption].
  - apply Join_absent; [reflexivity|].
    apply Forall_map. apply Forall_impl with (2 := Hplain).
    intros f Hf. apply Hf.
Qed.

Lemma WriteCSV_then_ReadCSV_witness :
  Writer.run (M := Run.plain) (Writer.NewWriter fresh) (writerType Data.NameAge)
    (map StructElem Data.Ada)
  = (Return tt,
     {| sink := documentText Data.NameAge Data.Ada; buf := ""; err := None |})
  /\ Reader.ReadCSV (M := Run.plain)
       (Reader.NewReader (source (documentText Data.NameAge Data.Ada)))
       (readerType Data.NameAge)
     = Return Data.Ada.
Proof.
  apply (WriteCSV_then_ReadCSV Run.platform Run.plain Data.NameAge Data.Ada).
  - discriminate.
  - split; [|split; [|split]].
    + repeat constructor; try discriminate;
        try (exists "string", Kind.String; split; reflexivity);
        try (exists "int", Kind.Int; split; reflexivity).
    + repeat constructor; simpl; intuition discriminate.
    + intros [|[|i]] f H; simpl in H; try (inversion H; subst; reflexivity).
      destruct i; discriminate H.
    + intros _. discriminate.
  - repeat constructor; simpl; try lia. discriminate.
Defined.

(** C1 as stated fails: the record type [struct { A string }] has one
    scalar field, the collection has one record, whose text, an [x] between
    double quotes, holds no delimiter; the writer writes it as it is, and
    the reader returns the record without the quotes. *)
Lemma WriteCSV_then_ReadCSV_strips_quotes :
  Writer.run (M := Run.plain) (Writer.NewWriter fresh) (writerType Data.OneText)
    (map StructElem Data.Quoted)
  = (Return tt,
     {| sink := "A" ++ Run.nl ++ Data.quotedX ++ Run.nl; buf := ""; err := None |})
  /\ Strings.ContainsRune Data.quotedX "," = false
  /\ Reader.ReadCSV (M := Run.plain)
       (Reader.NewReader (source ("A" ++ Run.nl ++ Data.quotedX ++ Run.nl)))
       (readerType Data.OneText)
     = Return Data.Unquoted
  /\ Data.Unquoted <> Data.Quoted.
Proof. repeat split; try reflexivity. discriminate. Qed.

(** The other conditions of [WriteCSV_then_ReadCSV] are needed too.  A
    text with a line break comes back as two records; a record whose last
    cell is empty loses this cell with the trailing delimiter, and the
    column loop then panics on the missing cell; of two fields whose names
    differ by case only, the first one is bound to both columns. *)
Example line_break_splits_record :
  Reader.ReadCSV (M := Run.plain)
    (Reader.NewReader
       (source (sink (snd (Writer.run (M := Run.plain) (Writer.NewWriter fresh)
                             (writerType Data.OneText) (map StructElem Data.twoLines))))))
    (readerType Data.OneText)
  = Return [[VString "a"]; [VString "b"]].
Proof. reflexivity. Qed.

Example empty_last_cell_is_lost :
  Reader.ReadCSV (M := Run.plain)
    (Reader.NewReader
       (source (sink (snd (Writer.run (M := Run.plain) (Writer.NewWriter fresh)
                             (writerType Data.TwoTexts) (map StructElem Data.emptyLast))))))
    (readerType Data.TwoTexts)
  = Panicked (IndexOutOfRange 1 1).
Proof. reflexivity. Qed.

Example names_equal_up_to_case :
  Reader.ReadCSV (M := Run.plain)
    (Reader.NewReader
       (source (sink (snd (Writer.run (M := Run.plain) (Writer.NewWriter fresh)
                             (writerType Data.Collide) (map StructElem Data.oneTwo))))))
    (readerType Data.Collide)
  = Return [[VInt 2; VInt 0]].
Proof. reflexivity. Qed.

(** ** The tests of the repository, run on the model *)

(** [TestArbitraryStruct], [TestStructWithTags] and
    [TestWriterCustomHeaderAndMarshaller] of the writer. *)
Example TestArbitraryStruct :
  sink (snd (Writer.run (M := Run.plain) (Writer.NewWriter fresh)
               (writerType Data.Arbitrary) [Data.sample]))
  = "String,Int,Float,Bool,Uint,PointerInt" ++ Run.nl ++ "string,1,2,true,1,0" ++ Run.nl.
Proof. reflexivity. Qed.

Example TestStructWithTags :
  sink (snd (Writer.run (M := Run.plain) (Writer.NewWriter fresh)
               (writerType Data.WithTags) [Data.sample]))
  = "string,weird tag,Float,Bool,Uint" ++ Run.nl ++ "string,1,2,true,1" ++ Run.nl.
Proof. reflexivity. Qed.

Example TestWriterCustomHeaderAndMarshaller :
  sink (snd (Writer.run (M := Run.plain) (Writer.NewWriter fresh) Data.HeaderBody
               [Data.sample]))
  = "Custom Header String,Custom Header Int,Custom Header Float,Custom Header Bool,"
    ++ "Custom Header Uint,Custom Header PointerInt" ++ Run.nl
    ++ "string,1,2,true,1,0" ++ Run.nl.
Proof. reflexivity. Qed.

(** The scenario of the specification: header [Name,Age], row [Ada,36]. *)
Example ReadCSV_Ada :
  Reader.ReadCSV (M := Run.plain)
    (Reader.NewReader (source ("Name,Age" ++ Run.nl ++ "Ada,36" ++ Run.nl)))
    (readerType Data.NameAge)
  = Return Data.Ada.
Proof. reflexivity. Qed.

(** [TestUnmarshalReflectionTagged] on a file with the columns of the
    tests: the fields are bound through their tags, surrounding white space
    is dropped from the numbers, and [PointerInt], tagged [_], stays nil. *)
Example TestUnmarshalReflectionTagged :
  Reader.ReadCSV (M := Run.plain)
    (Reader.NewReader
       (source ("String,Int,Float,Complex,Bool,Uint,PointerInt" ++ Run.nl
                ++ "a, 1, 2, 3, true, 4, 5" ++ Run.nl
                ++ "b, -1, 2, 3, false, 4, 5" ++ Run.nl)))
    (readerType Data.sTagged)
  = Return Data.taggedRows.
Proof. reflexivity. Qed.

(** [TestUnmarshalCustomStruct]: the field of struct kind is filled by its
    [Parse] method. *)
Example TestUnmarshalCustomStruct :
  Reader.ReadCSV (P := Run.platform) (M := Data.withCustom)
    (Reader.NewReader
       (source ("Custom" ++ Run.nl ++ "a" ++ Run.nl ++ "b" ++ Run.nl ++ "c" ++ Run.nl)))
    (readerType Data.sCustom)
  = Return [[VOther "a"]; [VOther "b"]; [VOther "c"]].
Proof. reflexivity. Qed.

(** ** Resolving a column *)

Section Resolve.
Context {P : Platform} {M : Methods}.

Lemma findIndex_first {A} (p : A -> bool) (l : list A) (i : nat) (x : A) :
  nth_error l i = Some x -> p x = true ->
  (forall j y, (j < i)%nat -> nth_error l j = Some y -> p y = false) ->
  findIndex p l = Some i.
Proof.
  revert i; induction l as [|a l IH]; intros i Hn Hp Hlt.
  - destruct i; discriminate.
  - destruct i as [|i]; simpl in *.
    + inversion Hn; subst. rewrite Hp. reflexivity.
    + rewrite (Hlt O a) by (auto; lia).
      rewrite (IH i Hn Hp); [reflexivity|].
      intros j y Hj Hy. apply (Hlt (S j) y); [lia | exact Hy].
Qed.

Lemma findIndex_None_iff {A} (p : A -> bool) (l : list A) :
  findIndex p l = None <-> forall x, In x l -> p x = false.
Proof.
  induction l as [|a l IH]; simpl.
  - split; [intros _ x [] | reflexivity].
  - destruct (p a) eqn:Ha.
    + split; [discriminate|]. intros H. rewrite (H a (or_introl eq_refl)) in Ha. discriminate.
    + destruct (findIndex p l) as [i|]; simpl.
      * split; [discriminate|]. intros H.
        assert (Some i = None) as Hn; [|discriminate Hn].
        apply (proj2 IH). intros x Hx. apply H. right. exact Hx.
      * split; [|reflexivity]. intros _ x [->|Hx]; [exact Ha|].
        apply (proj1 IH eq_refl x Hx).
Qed.

Lemma findIndex_lt {A} (p : A -> bool) (l : list A) (i : nat) :
  findIndex p l = Some i -> (i < List.length l)%nat.
Proof.
  intros H. apply findIndex_Some in H as (x & Hx & _).
  apply nth_error_Some. congruence.
Qed.

(** X1.  [getField] answers "field not found" exactly when no field has
    the column as its [csv] tag value and no field without a [csv] tag has
    it as its name, exactly or up to case; any other answer is the
    position of a field. *)
Theorem getField_not_found_iff (fields : list StructField) (attr : string) :
  (Reader.getField fields attr = Fail errFieldNotFound <->
   forall f, In f fields ->
     Get (Tag f) "csv" <> attr
     /\ (Lookup (Tag f) "csv" = None ->
         Name f <> attr /\ EqualFold (Name f) attr = false))
  /\ (Reader.getField fields attr = Fail errFieldNotFound
      \/ exists i, Reader.getField fields attr = Return i /\ (i < List.length fields)%nat).
Proof.
  unfold Reader.getField.
  destruct (findIndex (fun field => String.eqb (Get (Tag field) "csv") attr) fields)
    as [i|] eqn:H1.
  - split.
    + split; [discriminate|]. intros H.
      apply findIndex_Some in H1 as (f & Hf & Hp).
      apply nth_error_In in Hf. apply String.eqb_eq in Hp.
      destruct (H f Hf) as [Hne _]. contradiction.
    + right. exists i. split; [reflexivity | apply (findIndex_lt _ _ _ H1)].
  - match goal with
    | |- context [findIndex ?p fields] =>
        destruct (findIndex p fields) as [i|] eqn:H2
    end.
    + split.
      * split; [discriminate|]. intros H.
        apply findIndex_Some in H2 as (f & Hf & Hp).
        apply nth_error_In in Hf. destruct (H f Hf) as [_ Hname].
        apply andb_true_iff in Hp as [Hn Ht].
        destruct (Lookup (Tag f) "csv"); [discriminate|].
        destruct (Hname eq_refl) as [Hne Hfold].
        apply orb_true_iff in Hn as [Hn|Hn].
        -- apply String.eqb_eq in Hn. contradiction.
        -- congruence.
      * right. exists i. split; [reflexivity | apply (findIndex_lt _ _ _ H2)].
    + split; [|left; reflexivity].
      split; [|reflexivity]. intros _ f Hf.
      pose proof (proj1 (findIndex_None_iff _ _) H1 f Hf) as Ht.
      pose proof (proj1 (findIndex_None_iff _ _) H2 f Hf) as Hn.
      cbv beta in Ht, Hn. split.
      * intros Heq. apply String.eqb_eq in Heq. congruence.
      * intros Hnone. rewrite Hnone, andb_true_r in Hn.
        apply orb_false_iff in Hn as [Hn1 Hn2]. split; [|exact Hn2].
        intros Heq. apply String.eqb_eq in Heq. congruence.
Qed.

(** X2.  A match by tag comes before any match by name, whatever the
    order of the fields: [getField] answers the first field whose [csv]
    tag value is the column, also when an earlier field without a tag has
    the column as its name. *)
Theorem getField_tag_before_name
  (fields : list StructField) (attr : string) (i : nat) (f : StructField) :
  nth_error fields i = Some f ->
  Get (Tag f) "csv" = attr ->
  (forall j g, (j < i)%nat -> nth_error fields j = Some g -> Get (Tag g) "csv" <> attr) ->
  Reader.getField fields attr = Return i.
Proof.
  intros Hf Htag Hfirst. unfold Reader.getField.
  rewrite (findIndex_first _ fields i f Hf); [reflexivity | |].
  - apply String.eqb_eq. exact Htag.
  - intros j g Hj Hg. apply String.eqb_neq. apply (Hfirst j g Hj Hg).
Qed.

(** X3.  [Tag.Get] is empty for a field without a [csv] tag, so a column
    whose name is empty is bound by the tag loop: it goes to the first
    field that has no [csv] tag (or an empty one). *)
Theorem getField_empty_column
  (fields : list StructField) (i : nat) (f : StructField) :
  nth_error fields i = Some f ->
  Lookup (Tag f) "csv" = None ->
  (forall j g, (j < i)%nat -> nth_error fields j = Some g ->
     exists tag, Lookup (Tag g) "csv" = Some tag /\ tag <> "") ->
  Reader.getField fields "" = Return i.
Proof.
  intros Hf Htag Hfirst. unfold Reader.getField.
  rewrite (findIndex_first _ fields i f Hf); [reflexivity | |].
  - unfold Get. rewrite Htag. reflexivity.
  - intros j g Hj Hg. destruct (Hfirst j g Hj Hg) as (tag & Ht & Hne).
    unfold Get. rewrite Ht. apply String.eqb_neq. exact Hne.
Qed.

End Resolve.

(** ** Storing a cell *)

Section Store.
Context {P : Platform} {M : Methods}.

Lemma returns_Return {A} (Q : A -> Prop) (a : A) : Q a -> returns Q (Return a).
Proof. intros H a' E. inversion E; subst. exact H. Qed.

Lemma returns_Fail {A} (Q : A -> Prop) (e : error) : returns Q (Fail e).
Proof. intros a E. discriminate E. Qed.

Lemma returns_Panicked {A} (Q : A -> Prop) (p : panic) : returns Q (Panicked p).
Proof. intros a E. discriminate E. Qed.

Lemma returns_bind {A B} (Q : A -> Prop) (R : B -> Prop) (m : outcome A)
      (k : A -> outcome B) :
  returns Q m -> (forall a, Q a -> returns R (k a)) -> returns R (bind m k).
Proof.
  intros Hm Hk b E. destruct m as [a|e|p]; simpl in E; try discriminate E.
  apply (Hk a (Hm a eq_refl) b E).
Qed.

Lemma returns_any {A} (m : outcome A) : returns (fun _ => True) m.
Proof. intros a _. exact I. Qed.

Lemma sameBut_refl (field : nat) (item : structValue) : sameBut field item item.
Proof. split; [reflexivity | intros; reflexivity]. Qed.

Lemma sameBut_trans (field : nat) (a b c : structValue) :
  sameBut field a b -> sameBut field b c -> sameBut field a c.
Proof.
  intros [L1 F1] [L2 F2]. split; [congruence|].
  intros j Hj. rewrite (F2 j Hj). apply (F1 j Hj).
Qed.

Lemma length_update {A} (l : list A) (i : nat) (x : A) :
  List.length (update i x l) = List.length l.
Proof.
  revert i. induction l as [|a l IH]; intros i; [destruct i; reflexivity|].
  destruct i; simpl; [reflexivity | rewrite IH; reflexivity].
Qed.

Lemma nth_error_update_other {A} (l : list A) (i j : nat) (x : A) :
  j <> i -> nth_error (update i x l) j = nth_error l j.
Proof.
  revert i j. induction l as [|a l IH]; intros i j Hj; [destruct i; reflexivity|].
  destruct i as [|i], j as [|j]; simpl; try reflexivity; [contradiction|].
  apply IH. intros E. apply Hj. rewrite E. reflexivity.
Qed.

Lemma sameBut_update (field : nat) (item : structValue) (x : govalue) :
  sameBut field item (update field x item).
Proof.
  split; [apply length_update | intros j Hj; apply nth_error_update_other; exact Hj].
Qed.

Ltac same_but :=
  repeat first
    [ apply returns_Fail | apply returns_Panicked
    | apply returns_Return; first [apply sameBut_update | apply sameBut_refl]
    | apply returns_bind with (Q := fun _ => True); [apply returns_any | intros ? _]
    | match goal with
      | |- returns _ (if ?b then _ else _) => destruct b
      | |- returns _ (match ?x with _ => _ end) => destruct x
      end ].

(** The outcome of [setField] on a record: every other field is as
    before, and the record has as many fields as before. *)
Lemma setField_sameBut (fields : list StructField) (item : structValue)
      (field : nat) (value : string) :
  returns (sameBut field item) (Reader.setField fields item field value).
Proof.
  unfold Reader.setField.
  apply returns_bind with (Q := fun _ => True); [apply returns_any | intros [f v] _].
  apply returns_bind with (Q := fun _ => True); [apply returns_any | intros _ _].
  apply returns_bind with (Q := sameBut field item).
  { same_but. }
  intros item' Hitem'.
  assert (forall m, returns (sameBut field item') m -> returns (sameBut field item) m) as Hlift.
  { intros m Hm a E. apply (sameBut_trans field item item' a Hitem' (Hm a E)). }
  apply Hlift.
  apply returns_bind with (Q := fun _ => True); [apply returns_any | intros [f' v'] _].
  cbv zeta.
  destruct (Kind.eqb (kindOf (Type_ (fst (f, v)))) Kind.Pointer);
    cbn [negb];
    match goal with |- returns _ (match ?k with _ => _ end) => destruct k end;
    same_but.
Qed.

(** X4.  [setField] touches one field: when it returns, the record has as
    many fields as before, and every field other than the one it was
    called for holds the value it held. *)
Theorem setField_frame
  (fields : list StructField) (item item' : structValue) (field : nat)
  (value : string) :
  Reader.setField fields item field value = Return item' ->
  List.length item' = List.length item
  /\ forall j, j <> field -> nth_error item' j = nth_error item j.
Proof. apply setField_sameBut. Qed.

(** X5.  [reflect.VisibleFields] lists the unexported fields too, and
    [getField] can answer one; [setField] then panics in [Interface], before
    it looks at the cell: a column that resolves to an unexported field
    and has a cell in the row makes the column loop panic. *)
Theorem bindFields_unexported_field_panics
  (fields : list StructField) (attr : string) (attrs values : list string)
  (i field : nat) (item : structValue) (f : StructField) (value : string)
  (x : govalue) :
  Reader.getField fields attr = Return field ->
  nth_error fields field = Some f ->
  IsExported f = false ->
  nth_error values i = Some value ->
  nth_error item field = Some x ->
  Reader.bindFields fields (attr :: attrs) values i item
  = Panicked (ReflectPanic
      "reflect.Value.Interface: cannot return value obtained from unexported field or method").
Proof.
  intros Hg Hf Hexp Hv Hx. cbn [Reader.bindFields]. rewrite Hg, Hv.
  unfold Reader.setField, Reader.Field, Reader.Interface.
  rewrite Hf, Hx. cbn [bind fst snd]. rewrite Hexp. reflexivity.
Qed.

(** X6.  A field that is not a pointer and whose kind [setField] has no
    case for (a struct, a slice, a map, [uintptr], ...), exported and
    without a [Parse] method: whatever the cell, [setField] returns no error
    and leaves the record as it is. *)
Theorem setField_unsupported_kind_ignored
  (fields : list StructField) (item : structValue) (field : nat)
  (f : StructField) (name : string) (k : Kind.t) (x : govalue) (value : string) :
  nth_error fields field = Some f ->
  nth_error item field = Some x ->
  IsExported f = true ->
  Type_ f = Named name k ->
  decodedKind k = false ->
  parserOf (Type_ f) = None ->
  Reader.setField fields item field value = Return item.
Proof.
  intros Hf Hx Hexp Ht Hk Hparse.
  unfold Reader.setField, Reader.Field, Reader.Interface.
  rewrite Hf, Hx. cbn [bind fst snd]. rewrite Hexp, Hparse. cbn [bind].
  rewrite Hx. cbn [bind fst snd]. rewrite Ht. cbn [kindOf].
  destruct k; try discriminate Hk; reflexivity.
Qed.

(** X7.  The integer kinds are parsed as 64-bit integers and stored with
    [SetInt], which drops the high bits: for a field of a signed integer
    kind, the decimal text of any [int64] is accepted, and what is stored
    is the value wrapped to the size of the kind. *)
Theorem setField_integer_wraps
  (fields : list StructField) (item : structValue) (field : nat)
  (f : StructField) (name : string) (k : Kind.t) (x : govalue) (v : Z) :
  nth_error fields field = Some f ->
  nth_error item field = Some x ->
  IsExported f = true ->
  Type_ f = Named name k ->
  signedKind k = true ->
  parserOf (Type_ f) = None ->
  (- 2 ^ 63 <= v < 2 ^ 63)%Z ->
  Reader.setField fields item field (Strconv.FormatInt v)
  = Return (update field (VInt (wrapInt (bitSize k) v)) item).
Proof.
  intros Hf Hx Hexp Ht Hk Hparse Hv.
  unfold Reader.setField, Reader.Field, Reader.Interface.
  rewrite Hf, Hx. cbn [bind fst snd]. rewrite Hexp, Hparse. cbn [bind].
  rewrite Hx. cbn [bind fst snd]. rewrite Ht. cbn [kindOf].
  destruct k; try discriminate Hk; cbn [Kind.eqb negb];
    rewrite (TrimSpace_numeric _ (FormatInt_numeric v)), (ParseInt_FormatInt v Hv);
    reflexivity.
Qed.

(** X8.  Nothing stands for a missing number: a cell that is empty, or
    holds white space only, bound to an exported field of an integer,
    unsigned or boolean kind without a [Parse] method, makes [setField] fail
    with the syntax error of the [strconv] function of the kind. *)
Theorem setField_blank_cell_is_syntax_error
  (fields : list StructField) (item : structValue) (field : nat)
  (f : StructField) (name : string) (k : Kind.t) (func : string) (x : govalue)
  (value : string) :
  nth_error fields field = Some f ->
  nth_error item field = Some x ->
  IsExported f = true ->
  Type_ f = Named name k ->
  strconvFunc k = Some func ->
  parserOf (Type_ f) = None ->
  Strings.TrimSpace value = "" ->
  Reader.setField fields item field value = Fail (NumError func "" ErrSyntax).
Proof.
  intros Hf Hx Hexp Ht Hk Hparse Hblank.
  unfold Reader.setField, Reader.Field, Reader.Interface.
  rewrite Hf, Hx. cbn [bind fst snd]. rewrite Hexp, Hparse. cbn [bind].
  rewrite Hx. cbn [bind fst snd]. rewrite Ht. cbn [kindOf].
  destruct k; try discriminate Hk; cbn [Kind.eqb negb]; rewrite Hblank;
    inversion Hk; subst; reflexivity.
Qed.

End Store.

(** ** The cells of a line *)

Section Cells.
Context {P : Platform} {M : Methods}.

Lemma take_drop (n : nat) (s : string) : Strings.take n s ++ Strings.drop n s = s.
Proof.
  revert n. induction s as [|c s IH]; intros n; destruct n; simpl; try reflexivity.
  rewrite IH. reflexivity.
Qed.

Lemma HasSuffix_split (s suffix : string) :
  Strings.HasSuffix s suffix = true -> exists p, s = p ++ suffix.
Proof.
  unfold Strings.HasSuffix. intros H. apply andb_true_iff in H as [_ Heq].
  apply String.eqb_eq in Heq.
  remember (length s - length suffix)%nat as n eqn:Hn. clear Hn.
  exists (Strings.take n s). rewrite <- Heq. symmetry. apply take_drop.
Qed.

Lemma append_last_inj (s t : string) (a b : ascii) :
  s ++ String a "" = t ++ String b "" -> s = t /\ a = b.
Proof.
  revert t. induction s as [|c s IH]; intros t H.
  - destruct t as [|d t]; simpl in H.
    + inversion H. auto.
    + inversion H as [[Hc Ht]]. destruct t; discriminate Ht.
  - destruct t as [|d t]; simpl in H.
    + inversion H as [[Hc Hs]]. destruct s; discriminate Hs.
    + inversion H as [[Hc Hs]]. destruct (IH t Hs) as [-> ->]. auto.
Qed.

Lemma endsWith_last (s : string) (c : ascii) : endsWith c (s ++ String c "") = true.
Proof. rewrite endsWith_app by discriminate. simpl. apply Ascii.eqb_refl. Qed.

Lemma endsWith_last_neq (s : string) (c d : ascii) :
  d <> c -> endsWith c (s ++ String d "") = false.
Proof.
  intros H. rewrite endsWith_app by discriminate. simpl.
  apply Ascii.eqb_neq. exact H.
Qed.

Lemma TrimSuffix_none (s suffix : string) :
  Strings.HasSuffix s suffix = false -> Strings.TrimSuffix s suffix = s.
Proof. unfold Strings.TrimSuffix. intros ->. reflexivity. Qed.

(** A line that ends with a bare line feed does not end with CR LF. *)
Lemma HasSuffix_CRLF_bare (s : string) :
  endsWith CR s = false -> Strings.HasSuffix (s ++ Reader.LF) Reader.CRLF = false.
Proof.
  intros Hs. destruct (Strings.HasSuffix (s ++ Reader.LF) Reader.CRLF) eqn:H; [|reflexivity].
  apply HasSuffix_split in H as [p Hp].
  change Reader.CRLF with (String CR "" ++ Reader.LF) in Hp.
  rewrite <- append_assoc in Hp.
  apply append_last_inj in Hp as [Hp _]. subst s.
  rewrite endsWith_last in Hs. discriminate Hs.
Qed.

(** X9.  One trailing delimiter is taken off every line: a line and the
    same line with a delimiter added before the terminator have the same
    cells, so that an empty last cell cannot be told from no cell. *)
Theorem cells_trailing_delimiter (r : Reader.reader) (s : string) :
  endsWith (Reader.Comma r) s = false ->
  Reader.cells r (s ++ String (Reader.Comma r) "" ++ terminator r)
  = Reader.cells r (s ++ terminator r).
Proof.
  intros Hs. unfold Reader.cells, terminator.
  rewrite <- append_assoc.
  destruct (Reader.UseCRLF r); rewrite !TrimSuffix_app;
    rewrite (TrimSuffix_absent s _ Hs); reflexivity.
Qed.

(** X10.  The two line terminators are read alike when the option agrees
    with the text: a line that ends with CR LF, read with [UseCRLF], has the
    cells of the line that ends with LF, read without. *)
Theorem cells_CRLF (r r' : Reader.reader) (s : string) :
  Reader.UseCRLF r = true ->
  Reader.UseCRLF r' = false ->
  Reader.Comma r = Reader.Comma r' ->
  Reader.cells r (s ++ Reader.CRLF) = Reader.cells r' (s ++ Reader.LF).
Proof.
  intros Hr Hr' Hc. unfold Reader.cells. rewrite Hr, Hr', Hc, !TrimSuffix_app. reflexivity.
Qed.

(** X11.  When the option disagrees with the text, the terminator is
    not removed.  With [UseCRLF], a line that ends with a bare LF keeps
    the line feed in its last cell; without [UseCRLF], a line that ends
    with CR LF keeps the carriage return in its last cell. *)
Theorem cells_terminator_mismatch (r : Reader.reader) (s : string) :
  Reader.Comma r <> Reader.EOL ->
  Reader.Comma r <> CR ->
  endsWith CR s = false ->
  (Reader.UseCRLF r = true ->
   Reader.cells r (s ++ Reader.LF) = Strings.Split (s ++ Reader.LF) (Reader.Comma r))
  /\ (Reader.UseCRLF r = false ->
      Reader.cells r (s ++ Reader.CRLF)
      = Strings.Split (s ++ String CR "") (Reader.Comma r)).
Proof.
  intros Hc1 Hc2 Hs. unfold Reader.cells. split; intros ->.
  - rewrite (TrimSuffix_none _ _ (HasSuffix_CRLF_bare s Hs)).
    rewrite TrimSuffix_absent; [reflexivity|].
    apply endsWith_last_neq. intros E. apply Hc1. symmetry. exact E.
  - change Reader.CRLF with (String CR "" ++ Reader.LF).
    rewrite <- append_assoc, TrimSuffix_app.
    rewrite TrimSuffix_absent; [reflexivity|].
    apply endsWith_last_neq. intros E. apply Hc2. symmetry. exact E.
Qed.

End Cells.

(** ** The row loop *)

Section Rows.
Context {P : Platform} {M : Methods}.

Lemma cutAfter_count (d : ascii) (s : string) :
  match Reader.cutAfter d s with
  | Some (_, rest) => countByte d s = S (countByte d rest)
  | None => countByte d s = O
  end.
Proof.
  induction s as [|c s IH]; simpl; [reflexivity|].
  destruct (Ascii.eqb c d); [reflexivity|].
  destruct (Reader.cutAfter d s) as [[line rest]|]; simpl; exact IH.
Qed.

(** What the row loop returns: the records it was given, then one record
    per complete line, each a result of [decodeLine]; and the source ended
    with [EOF]. *)
Lemma readRows_Return (r : Reader.reader) (T : Reader.elemType) (attrs : list string)
      (Q : structValue -> Prop) :
  (forall line, returns Q (Reader.decodeLine r T attrs line)) ->
  forall fuel b result records,
    Reader.readRows fuel r T attrs b result = Return records ->
    exists more,
      records = (result ++ more)%list
      /\ List.length more = countByte Reader.EOL (Reader.pending b)
      /\ Forall Q more
      /\ Reader.final b = EOF.
Proof.
  intros HQ. induction fuel as [|fuel IH]; intros b result records H; [discriminate H|].
  cbn [Reader.readRows] in H. unfold Reader.ReadString in H.
  pose proof (cutAfter_count Reader.EOL (Reader.pending b)) as Hcount.
  destruct (Reader.cutAfter Reader.EOL (Reader.pending b)) as [[line rest]|].
  - destruct (Reader.decodeLine r T attrs line) as [item|e|p] eqn:Hd;
      cbn [bind] in H; try discriminate H.
    apply IH in H as (more & -> & Hlen & Hall & Hfinal).
    exists (item :: more). cbn [Reader.pending Reader.final] in *.
    rewrite <- app_assoc. split; [reflexivity|]. split; [simpl; lia|].
    split; [|exact Hfinal]. constructor; [apply (HQ line item Hd) | exact Hall].
  - destruct (Reader.final b) eqn:Hf; try discriminate H.
    inversion H; subst. exists []. rewrite app_nil_r. rewrite Hcount. auto.
Qed.

Lemma ReadCSV_Return (r : Reader.reader) (T : Reader.elemType)
      (Q : list string -> structValue -> Prop) (records : list structValue) :
  (forall attrs line, returns (Q attrs) (Reader.decodeLine r T attrs line)) ->
  Reader.ReadCSV r T = Return records ->
  exists attrs,
    List.length records + (if Reader.WithHeader r then 1 else 0)
    = countByte Reader.EOL (Reader.pending (Reader.reader_ r))
    /\ Forall (Q attrs) records
    /\ Reader.final (Reader.reader_ r) = EOF
    /\ attrs = (if Reader.WithHeader r then
                  match Reader.cutAfter Reader.EOL (Reader.pending (Reader.reader_ r)) with
                  | Some (header, _) => Reader.cells r header
                  | None => []
                  end
                else []).
Proof.
  intros HQ H. rewrite ReadCSV_unfold in H.
  pose proof (cutAfter_count Reader.EOL (Reader.pending (Reader.reader_ r))) as Hcount.
  destruct (Reader.WithHeader r).
  - destruct (Reader.cutAfter Reader.EOL (Reader.pending (Reader.reader_ r)))
      as [[header rest]|]; [|discriminate H].
    apply (readRows_Return r T _ _ (HQ (Reader.cells r header))) in H
      as (more & -> & Hlen & Hall & Hfinal).
    exists (Reader.cells r header). cbn [Reader.pending Reader.final app] in *.
    repeat split; try assumption. lia.
  - apply (readRows_Return r T _ _ (HQ [])) in H as (more & -> & Hlen & Hall & Hfinal).
    exists []. cbn [app] in *. repeat split; try assumption. lia.
Qed.

(** X12.  A successful [ReadCSV] returns one record per complete line of
    the input, the header line aside: the number of records, plus one in
    header mode, is the number of end-of-line bytes of the input. *)
Theorem ReadCSV_record_count
  (r : Reader.reader) (T : Reader.elemType) (records : list structValue) :
  Reader.ReadCSV r T = Return records ->
  List.length records + (if Reader.WithHeader r then 1 else 0)
  = countByte Reader.EOL (Reader.pending (Reader.reader_ r)).
Proof.
  intros H.
  destruct (ReadCSV_Return r T (fun _ _ => True) records) as (attrs & Hc & _);
    [intros attrs line item _; exact I | exact H | exact Hc].
Qed.

(** X13.  [ReadCSV] returns a collection only when the source ends with
    [io.EOF]: if the source ends with another error, the call does not
    succeed, whatever was read before. *)
Theorem ReadCSV_needs_EOF
  (r : Reader.reader) (T : Reader.elemType) (records : list structValue) :
  Reader.final (Reader.reader_ r) <> EOF ->
  Reader.ReadCSV r T <> Return records.
Proof.
  intros Hf H.
  destruct (ReadCSV_Return r T (fun _ _ => True) records) as (attrs & _ & _ & He & _);
    [intros attrs line item _; exact I | exact H | contradiction].
Qed.

Lemma bindFields_sameLength (fields : list StructField) (attrs values : list string) :
  forall i item,
    returns (fun item' => List.length item' = List.length item)
            (Reader.bindFields fields attrs values i item).
Proof.
  induction attrs as [|attr attrs IH]; intros i item; cbn [Reader.bindFields].
  - apply returns_Return. reflexivity.
  - destruct (Reader.getField fields attr) as [field|e|p].
    + destruct (nth_error values i) as [value|]; [|apply returns_Panicked].
      apply returns_bind with (Q := sameBut field item); [apply setField_sameBut|].
      intros item' [Hlen _] a E. rewrite <- Hlen. apply (IH (S i) item' a E).
    + destruct e; try apply returns_Fail. apply IH.
    + apply returns_Panicked.
Qed.

(** X14.  In header mode, for an element type without a header-aware
    decoder, every record of the collection [ReadCSV] returns has one value
    per visible field of the type, whatever the number of cells of its
    line. *)
Theorem ReadCSV_record_width
  (r : Reader.reader) (T : Reader.elemType) (records : list structValue) :
  Reader.WithHeader r = true ->
  Reader.UnmarshalCSVWithHeader T = None ->
  Reader.ReadCSV r T = Return records ->
  Forall (fun record => List.length record = List.length (Reader.VisibleFields T)) records.
Proof.
  intros Hh Hu H.
  destruct (ReadCSV_Return r T
              (fun _ record => List.length record = List.length (Reader.VisibleFields T))
              records) as (attrs & _ & Hall & _); [|exact H | exact Hall].
  intros attrs line. unfold Reader.decodeLine. rewrite Hh, Hu. cbn [negb bind].
  intros item E. apply bindFields_sameLength in E. rewrite E.
  unfold Reader.New. apply length_map.
Qed.

Lemma bindFields_untouched (fields : list StructField) (attrs values : list string)
      (j : nat) :
  (forall attr, In attr attrs -> Reader.getField fields attr <> Return j) ->
  forall i item,
    returns (fun item' => nth_error item' j = nth_error item j)
            (Reader.bindFields fields attrs values i item).
Proof.
  induction attrs as [|attr attrs IH]; intros Hno i item; cbn [Reader.bindFields].
  - apply returns_Return. reflexivity.
  - assert (forall a, In a attrs -> Reader.getField fields a <> Return j) as Hno'
      by (intros a Ha; apply Hno; right; exact Ha).
    pose proof (Hno attr (or_introl eq_refl)) as Hattr.
    destruct (Reader.getField fields attr) as [field|e|p].
    + destruct (nth_error values i) as [value|]; [|apply returns_Panicked].
      apply returns_bind with (Q := sameBut field item); [apply setField_sameBut|].
      intros item' [_ Hframe] a E.
      rewrite (IH Hno' (S i) item' a E). apply Hframe.
      intros Eq. apply Hattr. rewrite Eq. reflexivity.
    + destruct e; try apply returns_Fail. apply (IH Hno').
    + apply returns_Panicked.
Qed.

(** X15.  In header mode, for an element type without a header-aware
    decoder, a field that no column of the header resolves to holds the
    zero value of its type in every record of the collection returned. *)
Theorem ReadCSV_unbound_field_is_zero
  (r : Reader.reader) (T : Reader.elemType) (records : list structValue)
  (header rest : string) (j : nat) (f : StructField) :
  Reader.WithHeader r = true ->
  Reader.UnmarshalCSVWithHeader T = None ->
  Reader.cutAfter Reader.EOL (Reader.pending (Reader.reader_ r)) = Some (header, rest) ->
  nth_error (Reader.VisibleFields T) j = Some f ->
  (forall attr, In attr (Reader.cells r header) ->
     Reader.getField (Reader.VisibleFields T) attr <> Return j) ->
  Reader.ReadCSV r T = Return records ->
  Forall (fun record => nth_error record j = Some (Zero (Type_ f))) records.
Proof.
  intros Hh Hu Hcut Hf Hno H.
  destruct (ReadCSV_Return r T
              (fun attrs record =>
                 (forall attr, In attr attrs ->
                    Reader.getField (Reader.VisibleFields T) attr <> Return j) ->
                 nth_error record j = Some (Zero (Type_ f)))
              records) as (attrs & _ & Hall & _ & Hattrs); [|exact H|].
  - intros attrs line. unfold Reader.decodeLine. rewrite Hh, Hu. cbn [negb bind].
    intros item E Hnone. apply (bindFields_untouched _ _ _ j Hnone) in E. rewrite E.
    unfold Reader.New. rewrite nth_error_map, Hf. reflexivity.
  - rewrite Hh, Hcut in Hattrs. subst attrs.
    apply Forall_impl with (2 := Hall). intros record Hrec. apply Hrec. exact Hno.
Qed.

(** The row loop on a text of complete lines followed by more text: the
    loop on the complete lines, then, if it returns, the loop on the rest
    from the records it returned. *)
Lemma readRows_app (r : Reader.reader) (T : Reader.elemType) (attrs : list string)
      (t : string) (e : error) :
  forall fuel s result,
    (length s < fuel)%nat ->
    terminated s = true ->
    Reader.readRows (fuel + S (length t)) r T attrs
      {| Reader.pending := s ++ t; Reader.final := e |} result
    = match Reader.readRows fuel r T attrs
              {| Reader.pending := s; Reader.final := EOF |} result with
      | Return records =>
          Reader.readRows (S (length t)) r T attrs
            {| Reader.pending := t; Reader.final := e |} records
      | other => other
      end.
Proof.
  induction fuel as [|fuel IH]; intros s result Hfuel Hterm; [lia|].
  destruct s as [|c s].
  - cbn [append].
    change (Reader.readRows (S fuel) r T attrs
              {| Reader.pending := ""; Reader.final := EOF |} result)
      with (Return (A := list structValue) result).
    apply readRows_fuel; cbn [Reader.pending]; lia.
  - destruct (cutAfter_terminated _ Hterm) as (line & rest & Hcut & Hr); [discriminate|].
    cbn [Nat.add Reader.readRows]. unfold Reader.ReadString.
    cbn [Reader.pending Reader.final].
    rewrite (cutAfter_app _ _ t _ _ Hcut), Hcut.
    destruct (Reader.decodeLine r T attrs line) as [item|e'|p]; cbn [bind]; try reflexivity.
    apply cutAfter_length in Hcut.
    apply IH; [simpl in *; lia | exact Hr].
Qed.

(** [ReadCSV] on a non-empty text of complete lines followed by more
    text: if it returns on the complete lines, the row loop goes on with the
    rest from the records returned; otherwise the call ends as it does on
    the complete lines. *)
Lemma ReadCSV_app
  (r : Reader.reader) (T : Reader.elemType) (s t : string) :
  terminated s = true ->
  s <> "" ->
  Reader.ReadCSV (onInput r (s ++ t)) T
  = match Reader.ReadCSV (onInput r s) T with
    | Return records =>
        Reader.readRows (S (length t)) r T
          (if Reader.WithHeader r then
             match Reader.cutAfter Reader.EOL s with
             | Some (header, _) => Reader.cells r header
             | None => []
             end
           else [])
          (source t) records
    | other => other
    end.
Proof.
  intros Hterm Hne.
  assert (Hcfg : forall u fuel attrs b result,
             Reader.readRows fuel (onInput r u) T attrs b result
             = Reader.readRows fuel r T attrs b result).
  { intros. apply readRows_config; reflexivity. }
  rewrite !ReadCSV_unfold.
  cbn [onInput Reader.WithHeader Reader.reader_ Reader.pending Reader.final].
  destruct (Reader.WithHeader r).
  - destruct (cutAfter_terminated _ Hterm Hne) as (header & rest & Hcut & Hr).
    rewrite (cutAfter_app _ _ t _ _ Hcut), Hcut. rewrite !Hcfg.
    rewrite (cells_config (onInput r (s ++ t)) r header eq_refl eq_refl).
    rewrite (cells_config (onInput r s) r header eq_refl eq_refl).
    rewrite (readRows_fuel _ _ _ (S (length (rest ++ t))) (S (length rest) + S (length t)))
      by (cbn [Reader.pending]; rewrite ?string_length_app; lia).
    apply readRows_app; [lia | exact Hr].
  - rewrite !Hcfg.
    rewrite (readRows_fuel _ _ _ (S (length (s ++ t))) (S (length s) + S (length t)))
      by (cbn [Reader.pending]; rewrite ?string_length_app; lia).
    apply readRows_app; [lia | exact Hterm].
Qed.

(** The row loop only adds records behind those it was given. *)
Lemma readRows_extends (r : Reader.reader) (T : Reader.elemType) (attrs : list string)
      (fuel : nat) (b : Reader.bufioReader) (result records : list structValue) :
  Reader.readRows fuel r T attrs b result = Return records ->
  exists more, records = (result ++ more)%list.
Proof.
  intros H.
  destruct (readRows_Return r T attrs (fun _ => True)
              (fun line item _ => I) fuel b result records H) as (more & Hm & _).
  exists more. exact Hm.
Qed.

(** X16.  A failure is final, and the records come left to right.  For a
    non-empty text of complete lines [s] and any further text [t]: if
    [ReadCSV] on [s] ends with an error or a panic, it ends in the same way
    on [s ++ t]; and if it returns on both, the records of [s] are the
    first records of [s ++ t]. *)
Theorem ReadCSV_prefix
  (r : Reader.reader) (T : Reader.elemType) (s t : string) :
  terminated s = true ->
  s <> "" ->
  (forall e, Reader.ReadCSV (onInput r s) T = Fail e ->
             Reader.ReadCSV (onInput r (s ++ t)) T = Fail e)
  /\ (forall p, Reader.ReadCSV (onInput r s) T = Panicked p ->
                Reader.ReadCSV (onInput r (s ++ t)) T = Panicked p)
  /\ (forall records records',
        Reader.ReadCSV (onInput r s) T = Return records ->
        Reader.ReadCSV (onInput r (s ++ t)) T = Return records' ->
        exists more, records' = (records ++ more)%list).
Proof.
  intros Hterm Hne. pose proof (ReadCSV_app r T s t Hterm Hne) as Happ.
  split; [|split].
  - intros e H. rewrite H in Happ. exact Happ.
  - intros p H. rewrite H in Happ. exact Happ.
  - intros records records' H H'. rewrite H, H' in Happ. symmetry in Happ.
    apply (readRows_extends _ _ _ _ _ _ _ Happ).
Qed.

(** X17.  With header mode off, an element type with both decoders has
    both called on every line, the header-free one first and then the
    header-aware one, with no names: [ReadCSV] ends as it does for the type
    whose only decoder is the header-free one followed by the header-aware
    one. *)
Theorem ReadCSV_headerless_runs_both_decoders
  (r : Reader.reader) (T : Reader.elemType) :
  Reader.WithHeader r = false ->
  Reader.ReadCSV r T = Reader.ReadCSV r (chained T).
Proof.
  intros Hh. rewrite !ReadCSV_unfold, Hh.
  generalize (S (length (Reader.pending (Reader.reader_ r)))) as fuel.
  generalize (Reader.reader_ r) as b. generalize (@nil structValue) as result.
  intros result b fuel. revert b result.
  induction fuel as [|fuel IH]; intros b result; [reflexivity|].
  cbn [Reader.readRows].
  destruct (Reader.ReadString b Reader.EOL) as [[line [e|]] b']; [reflexivity|].
  assert (Reader.decodeLine r T [] line = Reader.decodeLine r (chained T) [] line) as Hd.
  { unfold Reader.decodeLine, chained, Reader.New. rewrite Hh.
    cbn [negb Reader.UnmarshalCSV Reader.UnmarshalCSVWithHeader Reader.VisibleFields
         Reader.bindFields].
    destruct (Reader.UnmarshalCSV T) as [unm|]; [|reflexivity].
    destruct (Reader.UnmarshalCSVWithHeader T) as [unm'|].
    - destruct (unm _ _); cbn [bind]; try reflexivity.
      destruct (unm' _ _ _); reflexivity.
    - reflexivity. }
  rewrite Hd. destruct (Reader.decodeLine r (chained T) [] line); cbn [bind];
    try reflexivity. apply IH.
Qed.

End Rows.

(** ** The lines of the writer *)

Section Lines.
Context {P : Platform} {M : Methods}.
Local Open Scope writer_scope.

Lemma joinedFrom_nil (i : nat) (sep : string) : joinedFrom i sep [] = "".
Proof. unfold joinedFrom. destruct (0 <? i)%nat; reflexivity. Qed.

Lemma joinedFrom_cons (i : nat) (sep e : string) (elems : list string) :
  joinedFrom i sep (e :: elems)
  = ((if (0 <? i)%nat then sep else "") ++ e) ++ joinedFrom (S i) sep elems.
Proof.
  unfold joinedFrom. change (0 <? S i)%nat with true. cbv iota.
  destruct (0 <? i)%nat.
  - cbn [sepBefore]. rewrite append_assoc. reflexivity.
  - rewrite Join_cons. reflexivity.
Qed.

Lemma separator_then (c : ascii) (i : nat) {B} (k : unit -> W B) (b : bufioWriter) :
  err b = None ->
  bindW (if (0 <? i)%nat then WriteRune c else ret tt) k b
  = k tt (emit (if (0 <? i)%nat then String c "" else "") b).
Proof.
  intros Hb. destruct (0 <? i)%nat.
  - apply bindW_WriteRune. exact Hb.
  - unfold bindW, ret. rewrite emit_nil by exact Hb. reflexivity.
Qed.

(** The value loop of the marshaler paths on clean values followed by
    other values. *)
Lemma writeValues_app (comma : ascii) (e : error) (clean rest : list string) :
  Forall (fun v => Strings.ContainsRune v comma = false) clean ->
  forall i b, err b = None ->
    Writer.writeValues comma e (clean ++ rest)%list i b
    = Writer.writeValues comma e rest (i + List.length clean)
        (emit (joinedFrom i (String comma "") clean) b).
Proof.
  induction 1 as [|v clean Hv _ IH]; intros i b Hb.
  - cbn [app List.length]. rewrite Nat.add_0_r, joinedFrom_nil, emit_nil by exact Hb.
    reflexivity.
  - cbn [app Writer.writeValues]. rewrite separator_then by exact Hb.
    rewrite Hv. unfold bindW at 1. cbn [ret].
    rewrite bindW_WriteString by reflexivity.
    rewrite IH by reflexivity. rewrite !emit_emit, joinedFrom_cons.
    cbn [List.length]. rewrite Nat.add_succ_r, ?append_assoc. reflexivity.
Qed.

(** X18.  The body-marshaler path checks and writes value by value.  When
    no value holds the delimiter, [writeElem] writes the values joined by
    the delimiter; at the first value that holds it, the call fails with
    [ErrNoCommasAllowedInBody], and the values before it, and the delimiter
    that follows them, are already written. *)
Theorem writeElem_marshaled_values
  (w : Writer.writer) (T : Writer.elemType) (e : elem)
  (mar : elem -> outcome (list string)) (clean : list string) (b : bufioWriter) :
  Writer.MarshalCSV T = Some mar ->
  err b = None ->
  Forall (fun v => Strings.ContainsRune v (Writer.Comma w) = false) clean ->
  (mar e = Return clean ->
   Writer.writeElem w T e b
   = (Return tt, emit (Strings.Join clean (String (Writer.Comma w) "")) b))
  /\ (forall bad rest,
        Strings.ContainsRune bad (Writer.Comma w) = true ->
        mar e = Return (clean ++ bad :: rest)%list ->
        Writer.writeElem w T e b
        = (Fail ErrNoCommasAllowedInBody,
           emit (Strings.Join clean (String (Writer.Comma w) "")
                 ++ (if (0 <? List.length clean)%nat
                     then String (Writer.Comma w) "" else "")) b)).
Proof.
  intros Hmar Hb Hclean. unfold Writer.writeElem. rewrite Hmar. split.
  - intros Hres. unfold bindW at 1, lift. rewrite Hres.
    rewrite <- (app_nil_r clean) at 1.
    rewrite (writeValues_app _ _ clean [] Hclean 0 b Hb). reflexivity.
  - intros bad rest Hbad Hres. unfold bindW at 1, lift. rewrite Hres.
    rewrite (writeValues_app _ _ clean (bad :: rest) Hclean 0 b Hb).
    cbn [Writer.writeValues Nat.add]. rewrite separator_then by reflexivity.
    rewrite Hbad. unfold bindW at 1, fail. rewrite emit_emit. reflexivity.
Qed.

(** The header loop on fields whose tags are free of the delimiter,
    followed by other fields. *)
Lemma writeNames_app (comma : ascii) (free rest : list StructField) :
  Forall (fun f => inHeader f = true -> forall tag,
                   Lookup (Tag f) "csv" = Some tag ->
                   Strings.ContainsRune tag comma = false) free ->
  forall i b, err b = None ->
    Writer.writeNames comma (free ++ rest)%list i b
    = Writer.writeNames comma rest (i + List.length (filter inHeader free))
        (emit (joinedFrom i (String comma "") (map columnName (filter inHeader free))) b).
Proof.
  induction 1 as [|f free Hf _ IH]; intros i b Hb.
  - cbn [app filter map List.length].
    rewrite Nat.add_0_r, joinedFrom_nil, emit_nil by exact Hb. reflexivity.
  - cbn [app Writer.writeNames filter].
    destruct (Anonymous f) eqn:Ha.
    { assert (inHeader f = false) as Hin by (unfold inHeader; rewrite Ha; reflexivity).
      rewrite Hin. cbn [orb]. apply IH. exact Hb. }
    destruct (IsExported f) eqn:He.
    2:{ assert (inHeader f = false) as Hin by (unfold inHeader; rewrite Ha, He; reflexivity).
        rewrite Hin. cbn [orb negb]. apply IH. exact Hb. }
    cbn [orb negb].
    destruct (Lookup (Tag f) "csv") as [tag|] eqn:Htag.
    + destruct (String.eqb tag "-") eqn:Hdash.
      { assert (inHeader f = false) as Hin
          by (unfold inHeader, Get; rewrite Ha, He, Htag, Hdash; reflexivity).
        rewrite Hin. apply IH. exact Hb. }
      assert (inHeader f = true) as Hin
        by (unfold inHeader, Get; rewrite Ha, He, Htag, Hdash; reflexivity).
      rewrite Hin, (Hf Hin tag eq_refl). rewrite separator_then by exact Hb.
      rewrite bindW_WriteString by reflexivity.
      rewrite IH by reflexivity. rewrite !emit_emit.
      cbn [map List.length]. rewrite joinedFrom_cons, Nat.add_succ_r.
      unfold columnName at 2. rewrite Htag, ?append_assoc. reflexivity.
    + assert (inHeader f = true) as Hin
        by (unfold inHeader, Get; rewrite Ha, He, Htag; reflexivity).
      rewrite Hin. rewrite separator_then by exact Hb.
      rewrite bindW_WriteString by reflexivity.
      rewrite IH by reflexivity. rewrite !emit_emit.
      cbn [map List.length]. rewrite joinedFrom_cons, Nat.add_succ_r.
      unfold columnName at 2. rewrite Htag, ?append_assoc. reflexivity.
Qed.

(** X19.  For an element type without a [Header] method and a collection
    whose first element is not a nil pointer, [writeHeader] writes the
    column names (the [csv] tag if there is one, the name otherwise) of the
    fields that are exported, not embedded and not tagged [-], in
    declaration order, joined by the delimiter; this needs no tag of these
    fields to hold the delimiter. *)
Theorem writeHeader_columns
  (w : Writer.writer) (T : Writer.elemType) (first : elem) (arr : list elem)
  (b : bufioWriter) :
  Writer.Header T = None ->
  first <> PointerElem None ->
  err b = None ->
  Forall (fun f => inHeader f = true -> forall tag,
                   Lookup (Tag f) "csv" = Some tag ->
                   Strings.ContainsRune tag (Writer.Comma w) = false)
         (Writer.VisibleFields T) ->
  Writer.writeHeader w T (first :: arr) b
  = (Return tt,
     emit (Strings.Join (map columnName (filter inHeader (Writer.VisibleFields T)))
             (String (Writer.Comma w) "")) b).
Proof.
  intros Hh Hfirst Hb Hfree. unfold Writer.writeHeader. rewrite Hh.
  assert (Writer.writeNames (Writer.Comma w) (Writer.VisibleFields T) 0 b
          = (Return tt,
             emit (Strings.Join (map columnName (filter inHeader (Writer.VisibleFields T)))
                     (String (Writer.Comma w) "")) b)) as Hnames.
  { rewrite <- (app_nil_r (Writer.VisibleFields T)) at 1.
    rewrite (writeNames_app _ _ [] Hfree 0 b Hb). reflexivity. }
  destruct first as [v|[v|]]; [exact Hnames | exact Hnames | contradiction].
Qed.

(** X20.  The header is checked and written name by name.  At the first
    field of the header whose [csv] tag holds the delimiter, [writeHeader]
    fails with [ErrNoCommasAllowedInHeader]; the names before it are already
    written, without a delimiter behind them. *)
Theorem writeHeader_tag_with_delimiter
  (w : Writer.writer) (T : Writer.elemType) (first : elem) (arr : list elem)
  (b : bufioWriter) (free rest : list StructField) (f : StructField) (tag : string) :
  Writer.Header T = None ->
  first <> PointerElem None ->
  err b = None ->
  Writer.VisibleFields T = (free ++ f :: rest)%list ->
  Forall (fun g => inHeader g = true -> forall t,
                   Lookup (Tag g) "csv" = Some t ->
                   Strings.ContainsRune t (Writer.Comma w) = false) free ->
  inHeader f = true ->
  Lookup (Tag f) "csv" = Some tag ->
  Strings.ContainsRune tag (Writer.Comma w) = true ->
  Writer.writeHeader w T (first :: arr) b
  = (Fail ErrNoCommasAllowedInHeader,
     emit (Strings.Join (map columnName (filter inHeader free))
             (String (Writer.Comma w) "")) b).
Proof.
  intros Hh Hfirst Hb Hfields Hfree Hin Htag Hbad. unfold Writer.writeHeader. rewrite Hh.
  assert (Writer.writeNames (Writer.Comma w) (Writer.VisibleFields T) 0 b
          = (Fail ErrNoCommasAllowedInHeader,
             emit (Strings.Join (map columnName (filter inHeader free))
                     (String (Writer.Comma w) "")) b)) as Hnames.
  { rewrite Hfields, (writeNames_app _ _ (f :: rest) Hfree 0 b Hb).
    cbn [Writer.writeNames]. unfold inHeader, Get in Hin. rewrite Htag in Hin.
    apply andb_true_iff in Hin as [Hin Hdash]. apply andb_true_iff in Hin as [Ha He].
    apply negb_true_iff in Ha, Hdash. rewrite Ha, He, Htag, Hdash, Hbad.
    reflexivity. }
  destruct first as [v|[v|]]; [exact Hnames | exact Hnames | contradiction].
Qed.

(** The field loop of [writeElem] on fields that render, followed by
    other fields. *)
Lemma writeFields_app (comma : ascii) (all : list StructField) (v : structValue)
      (fields rest : list StructField) (cells : list string) :
  Forall (fun f => Strings.ContainsRune (Name f) comma = false) fields ->
  rendered all v fields cells ->
  forall i b, err b = None ->
    Writer.writeFields comma all (Some v) (fields ++ rest)%list i b
    = Writer.writeFields comma all (Some v) rest (i + List.length cells)
        (emit (joinedFrom i (String comma "") cells) b).
Proof.
  unfold rendered. intros Hnames. revert cells.
  induction Hnames as [|f fields Hf _ IH]; intros cells Hcells i b Hb.
  - cbn [filter] in Hcells. inversion Hcells; subst.
    cbn [app List.length]. rewrite Nat.add_0_r, joinedFrom_nil, emit_nil by exact Hb.
    reflexivity.
  - cbn [app Writer.writeFields]. rewrite Hf. cbn [filter] in Hcells.
    unfold inRow at 1 in Hcells.
    destruct (IsExported f); cbn [negb andb] in *; [|apply IH; assumption].
    destruct (String.eqb (Get (Tag f) "csv") "-"); cbn [negb] in *; [apply IH; assumption|].
    inversion Hcells as [|? c ? cells' (f' & x & Hby & Hget) Hrest]; subst.
    rewrite separator_then by exact Hb.
    rewrite Hby, Hget. unfold bindW at 1. cbn [lift].
    rewrite bindW_WriteString by reflexivity.
    rewrite (IH cells' Hrest) by reflexivity. rewrite !emit_emit.
    cbn [List.length]. rewrite joinedFrom_cons, Nat.add_succ_r, ?append_assoc. reflexivity.
Qed.

(** X21.  For an element type without a [MarshalCSV] method, [writeElem]
    writes one cell for every field that is exported and not tagged [-],
    embedded fields included, in declaration order, joined by the
    delimiter: this needs no field name to hold the delimiter and every
    such field to render. *)
Theorem writeElem_cells
  (w : Writer.writer) (T : Writer.elemType) (e : elem) (v : structValue)
  (cells : list string) (b : bufioWriter) :
  Writer.MarshalCSV T = None ->
  e = StructElem v \/ e = PointerElem (Some v) ->
  err b = None ->
  Forall (fun f => Strings.ContainsRune (Name f) (Writer.Comma w) = false)
         (Writer.VisibleFields T) ->
  rendered (Writer.VisibleFields T) v (Writer.VisibleFields T) cells ->
  Writer.writeElem w T e b
  = (Return tt, emit (Strings.Join cells (String (Writer.Comma w) "")) b).
Proof.
  intros Hm He Hb Hnames Hcells. unfold Writer.writeElem. rewrite Hm.
  assert (match e with StructElem v0 => Some v0 | PointerElem p => p end = Some v) as ->
    by (destruct He as [-> | ->]; reflexivity).
  rewrite <- (app_nil_r (Writer.VisibleFields T)) at 2.
  rewrite (writeFields_app _ _ v _ [] cells Hnames Hcells 0 b Hb). reflexivity.
Qed.

End Lines.

(** ** The bytes of a call *)

Section Bytes.
Context {P : Platform} {M : Methods}.
Local Open Scope writer_scope.

















Lemma bindW_lift {A B} (m : outcome A) (k : A -> W B) (b : bufioWriter) :
  bindW (lift m) k b
  = match m with
    | Return a => k a b
    | Fail e => (Fail e, b)
    | Panicked p => (Panicked p, b)
    end.
Proof. unfold bindW, lift. destruct m; reflexivity. Qed.

Lemma bindW_ret {A B} (a : A) (k : A -> W B) (b : bufioWriter) :
  bindW (ret a) k b = k a b.
Proof. reflexivity. Qed.

(** The field loop of the earlier writer, with the delimiter of the
    previous cell already written, and the loop of the generic writer. *)
Lemma Legacy_writeFields_later (comma : ascii) (all : list StructField)
      (elem : option structValue) (fields : list StructField) :
  Forall (fun f => inRow f = true /\ Strings.ContainsRune (Name f) comma = false) fields ->
  forall i b,
    (0 < i)%nat -> fields <> [] -> (i + List.length fields = List.length all)%nat ->
    err b = None ->
    Legacy.writeFields comma all elem fields i (emit (String comma "") b)
    = Writer.writeFields comma all elem fields i b.
Proof.
  induction 1 as [|f fields [Hin Hname] Hrest IH]; intros i b Hi Hne Hlen Hb;
    [contradiction|].
  cbn [Legacy.writeFields Writer.writeFields]. rewrite Hname.
  unfold inRow in Hin. apply andb_true_iff in Hin as [He Hdash].
  apply negb_true_iff in Hdash. rewrite He, Hdash. cbn [negb].
  assert ((0 <? i)%nat = true) as Hpos by (apply Nat.ltb_lt; exact Hi).
  rewrite Hpos, bindW_WriteRune by exact Hb.
  set (b1 := emit (String comma "") b).
  rewrite !bindW_lift.
  match goal with
  | |- match ?o with Return _ => _ | Fail _ => _ | Panicked _ => _ end = _ =>
      destruct o as [str|e|p]; try reflexivity
  end.
  rewrite !bindW_WriteString by reflexivity.
  destruct fields as [|g fields].
  - cbn [List.length] in Hlen.
    assert ((i <? List.length all - 1)%nat = false) as Hlast by (apply Nat.ltb_ge; lia).
    rewrite Hlast. reflexivity.
  - cbn [List.length] in Hlen.
    assert ((i <? List.length all - 1)%nat = true) as Hmore by (apply Nat.ltb_lt; lia).
    rewrite Hmore, bindW_WriteRune by reflexivity.
    apply IH; [lia | discriminate | simpl; lia | reflexivity].
Qed.

(** X23.  The two writers write the same rows.  For an element type whose
    fields are all exported, none tagged [-], with names free of the
    delimiter, [writeElem] of the earlier writer (every field, a delimiter
    behind each but the last) ends as [writeElem] of the generic one (a
    delimiter in front of each written field but the first), with the same
    bytes written, also when a field fails to render. *)
Theorem Legacy_writeElem_agrees
  (w : Writer.writer) (T : Writer.elemType) (e : elem) (b : bufioWriter) :
  err b = None ->
  Forall (fun f => inRow f = true
                   /\ Strings.ContainsRune (Name f) (Writer.Comma w) = false)
         (Writer.VisibleFields T) ->
  Legacy.writeElem w T e b = Writer.writeElem w T e b.
Proof.
  intros Hb Hall. unfold Legacy.writeElem, Writer.writeElem.
  destruct (Writer.MarshalCSV T); [reflexivity|].
  set (elem := match e with StructElem v => Some v | PointerElem p => p end).
  set (all := Writer.VisibleFields T) in *.
  assert (forall fields, fields = all ->
            Legacy.writeFields (Writer.Comma w) all elem fields 0 b
            = Writer.writeFields (Writer.Comma w) all elem fields 0 b) as Hgen;
    [|apply Hgen; reflexivity].
  intros fields Hfields. destruct Hall as [|f rest [Hin Hname] Hrest].
  - subst fields. reflexivity.
  - subst fields.
    cbn [Legacy.writeFields Writer.writeFields]. rewrite Hname.
    unfold inRow in Hin. apply andb_true_iff in Hin as [He Hdash].
    apply negb_true_iff in Hdash. rewrite He, Hdash. cbn [negb Nat.ltb Nat.leb].
    rewrite bindW_ret, !bindW_lift.
    match goal with
    | |- match ?o with Return _ => _ | Fail _ => _ | Panicked _ => _ end = _ =>
        destruct o as [str|err0|p]; try reflexivity
    end.
    rewrite !bindW_WriteString by exact Hb.
    destruct rest as [|g rest].
    + reflexivity.
    + cbn [List.length Nat.sub Nat.ltb Nat.leb].
      rewrite bindW_WriteRune by reflexivity.
      apply (Legacy_writeFields_later (Writer.Comma w) (f :: g :: rest) elem (g :: rest) Hrest);
        [lia | discriminate | reflexivity | reflexivity].
Qed.

End Bytes.

(** ** Further properties of the writer and of the reader *)

Section Further.
Context {P : Platform} {M : Methods}.
Local Open Scope writer_scope.

(** X24.  When no type has a [String] method, [getString] follows the
    pointers of the value: if it meets a nil pointer it panics (in
    [Interface], on the zero Value), it does not return an error; otherwise
    it returns a text or the unsupported-type error, and nothing else. *)
Theorem getString_outcomes (t : type) (x : govalue) :
  (forall t', stringerOf t' = None) ->
  (reachesNil t x = true ->
   getString true t x
   = Panicked (ReflectPanic "reflect: call of reflect.Value.Interface on zero Value"))
  /\ (reachesNil t x = false ->
      (exists s, getString true t x = Return s)
      \/ getString true t x = Fail ErrUnsupportedType).
Proof.
  intros Hno. revert x. induction t as [name k|t IH]; intros x.
  - split; [discriminate|]. intros _. cbn [getString negb]. rewrite Hno.
    destruct k; try (right; reflexivity); left; eexists; reflexivity.
  - cbn [getString negb reachesNil]. rewrite Hno.
    destruct x; try (split; [reflexivity | discriminate]).
    apply IH.
Qed.

Lemma bindW_ext {A B} (m : W A) (k k' : A -> W B) (b : bufioWriter) :
  (forall a b', k a b' = k' a b') -> bindW m k b = bindW m k' b.
Proof.
  intros Hk. unfold bindW. destruct (m b) as [[a|e|p] b']; [apply Hk | reflexivity..].
Qed.

Lemma writeElems_stop (w : Writer.writer) (T : Writer.elemType) (EOL : string)
      (bad : elem) (done rest : list elem) :
  (forall b, fst (Writer.writeElem w T bad b) <> Return tt) ->
  forall b,
    Writer.writeElems w T EOL (done ++ bad :: rest)%list b
    = Writer.writeElems w T EOL (done ++ [bad])%list b.
Proof.
  intros Hbad. induction done as [|e done IH]; intros b; cbn [app Writer.writeElems].
  - unfold bindW. specialize (Hbad b).
    destruct (Writer.writeElem w T bad b) as [[[]|e|p] b']; cbn [fst] in Hbad;
      [contradiction | reflexivity | reflexivity].
  - unfold bindW. destruct (Writer.writeElem w T e b) as [[[]|e'|p] b']; try reflexivity.
    destruct (WriteString EOL b') as [[[]|e'|p] b'']; try reflexivity.
    apply IH.
Qed.

(** X25.  [WriteCSV] stops at the first element it cannot write: when
    [writeElem] does not succeed on an element, the call ends in the same
    way, with the same bytes written, whatever elements come after it. *)
Theorem WriteCSV_stops_at_failure
  (w : Writer.writer) (T : Writer.elemType) (bad : elem) (done rest : list elem)
  (b : bufioWriter) :
  (forall b', fst (Writer.writeElem w T bad b') <> Return tt) ->
  Writer.WriteCSV w T (done ++ bad :: rest)%list b
  = Writer.WriteCSV w T (done ++ [bad])%list b.
Proof.
  intros Hbad. unfold Writer.WriteCSV.
  assert (Writer.writeHeader w T (done ++ bad :: rest)%list
          = Writer.writeHeader w T (done ++ [bad])%list) as Hhead
    by (destruct done; reflexivity).
  rewrite Hhead. apply bindW_ext. intros [] b'.
  unfold bindW. rewrite (writeElems_stop w T _ bad done rest Hbad b'). reflexivity.
Qed.

Lemma bindFields_unmatched (fields : list StructField) (attrs values : list string) :
  (forall attr, In attr attrs -> Reader.getField fields attr = Fail errFieldNotFound) ->
  forall i item, Reader.bindFields fields attrs values i item = Return item.
Proof.
  induction attrs as [|attr attrs IH]; intros Hno i item; cbn [Reader.bindFields];
    [reflexivity|].
  rewrite (Hno attr (or_introl eq_refl)). apply IH.
  intros a Ha. apply Hno. right. exact Ha.
Qed.

Lemma readRows_constant (r : Reader.reader) (T : Reader.elemType) (attrs : list string)
      (item : structValue) :
  (forall line, Reader.decodeLine r T attrs line = Return item) ->
  forall fuel s result,
    (length s < fuel)%nat ->
    Reader.readRows fuel r T attrs (source s) result
    = Return (result ++ repeat item (countByte Reader.EOL s))%list.
Proof.
  intros Hd. induction fuel as [|fuel IH]; intros s result Hfuel; [lia|].
  cbn [Reader.readRows]. unfold Reader.ReadString, source.
  cbn [Reader.pending Reader.final].
  pose proof (cutAfter_count Reader.EOL s) as Hcount.
  destruct (Reader.cutAfter Reader.EOL s) as [[line rest]|] eqn:Hcut.
  - rewrite Hd. cbn [bind]. apply cutAfter_length in Hcut.
    change {| Reader.pending := rest; Reader.final := EOF |} with (source rest).
    rewrite IH by lia. rewrite Hcount. cbn [repeat]. rewrite <- app_assoc. reflexivity.
  - rewrite Hcount. cbn [repeat]. rewrite app_nil_r. reflexivity.
Qed.

(** X26.  Columns that resolve to no field are skipped, and their cells
    are never looked at.  In header mode, for an element type without a
    header-aware decoder, when no column of the header resolves to a field
    (in particular when the type has no field), [ReadCSV] succeeds on every
    input that has a header line and returns one zero record per complete
    line behind it, whatever these lines hold. *)
Theorem ReadCSV_unmatched_header
  (r : Reader.reader) (T : Reader.elemType) (s header rest : string) :
  Reader.WithHeader r = true ->
  Reader.UnmarshalCSVWithHeader T = None ->
  Reader.cutAfter Reader.EOL s = Some (header, rest) ->
  (forall attr, In attr (Reader.cells r header) ->
     Reader.getField (Reader.VisibleFields T) attr = Fail errFieldNotFound) ->
  Reader.ReadCSV (onInput r s) T
  = Return (repeat (Reader.New T) (countByte Reader.EOL rest)).
Proof.
  intros Hh Hu Hcut Hno. rewrite ReadCSV_unfold.
  cbn [onInput Reader.WithHeader Reader.reader_ Reader.pending Reader.final].
  rewrite Hh, Hcut.
  rewrite (readRows_config (onInput r s) r T _ eq_refl eq_refl eq_refl).
  rewrite (cells_config (onInput r s) r header eq_refl eq_refl).
  change {| Reader.pending := rest; Reader.final := EOF |} with (source rest).
  rewrite (readRows_constant r T _ (Reader.New T)); [reflexivity | | lia].
  intros line. unfold Reader.decodeLine. rewrite Hh, Hu. cbn [negb bind].
  apply bindFields_unmatched. exact Hno.
Qed.

End Further.

(** ** The properties on concrete records *)

#[local] Existing Instance Run.platform.
#[local] Existing Instance Run.plain.

Lemma getField_tag_before_name_witness :
  Reader.getField Samples.Shadowed "Int" = Return 1%nat.
Proof.
  apply (getField_tag_before_name Samples.Shadowed "Int" 1
           (Run.tagged "Other" Run.intT "Int")).
  - reflexivity.
  - reflexivity.
  - intros j g Hj Hg. destruct j as [|j]; [|lia].
    cbn in Hg. inversion Hg; subst g. cbn. discriminate.
Defined.

Lemma getField_empty_column_witness :
  Reader.getField Data.sTagged "" = Fail errFieldNotFound
  /\ Reader.getField Data.NameAge "" = Return 0%nat.
Proof.
  split; [reflexivity|].
  apply (getField_empty_column Data.NameAge 0
           (Run.field "Name" Reader.stringT)).
  - reflexivity.
  - reflexivity.
  - intros j g Hj. lia.
Defined.

Lemma setField_frame_witness :
  List.length [VString "Ada"; VInt 36] = List.length [VString "Ada"; VInt 0]
  /\ forall j, j <> 1%nat ->
       nth_error [VString "Ada"; VInt 36] j = nth_error [VString "Ada"; VInt 0] j.
Proof.
  apply (setField_frame Data.NameAge
           [VString "Ada"; VInt 0] [VString "Ada"; VInt 36] 1 "36").
  reflexivity.
Defined.

Lemma bindFields_unexported_field_panics_witness :
  Reader.bindFields Data.Arbitrary
    ["complex"] ["1"] 0 (Reader.New (readerType Data.Arbitrary))
  = Panicked (ReflectPanic
      "reflect.Value.Interface: cannot return value obtained from unexported field or method").
Proof.
  apply (bindFields_unexported_field_panics
           Data.Arbitrary "complex" [] ["1"] 0 3 _
           (Run.unexported "complex" Run.complex64T) "1" (VComplex complex_zero));
    reflexivity.
Defined.

Lemma setField_unsupported_kind_ignored_witness :
  Reader.setField Data.sCustom [VOther ""] 0 "abc"
  = Return [VOther ""].
Proof.
  apply (setField_unsupported_kind_ignored
           Data.sCustom [VOther ""] 0 (Run.field "Custom" Data.customT)
           "custom" Kind.Struct (VOther "") "abc");
    reflexivity.
Defined.

Lemma setField_integer_wraps_witness :
  Reader.setField Samples.Tiny [VInt 0] 0 "300"
  = Return [VInt 44].
Proof.
  apply (setField_integer_wraps
           Samples.Tiny [VInt 0] 0 (Run.field "N" (Named "int8" Kind.Int8))
           "int8" Kind.Int8 (VInt 0) 300%Z);
    try reflexivity.
  lia.
Defined.

Lemma setField_blank_cell_is_syntax_error_witness :
  Reader.setField Data.NameAge
    [VString "Ada"; VInt 0] 1 " "
  = Fail (NumError "ParseInt" "" ErrSyntax).
Proof.
  apply (setField_blank_cell_is_syntax_error
           Data.NameAge [VString "Ada"; VInt 0] 1 (Run.field "Age" Run.intT)
           "int" Kind.Int "ParseInt" (VInt 0) " ");
    reflexivity.
Defined.

Lemma cells_trailing_delimiter_witness :
  Reader.cells (Reader.NewReader (source "")) ("a,b" ++ "," ++ Reader.LF)
  = Reader.cells (Reader.NewReader (source "")) ("a,b" ++ Reader.LF).
Proof.
  apply (cells_trailing_delimiter (Reader.NewReader (source "")) "a,b").
  reflexivity.
Defined.

Lemma cells_CRLF_witness :
  Reader.cells (Samples.crlf "") ("a,b" ++ Reader.CRLF)
  = Reader.cells (Reader.NewReader (source "")) ("a,b" ++ Reader.LF).
Proof.
  apply (cells_CRLF (Samples.crlf "") (Reader.NewReader (source "")) "a,b");
    reflexivity.
Defined.

Lemma cells_terminator_mismatch_witness :
  Reader.cells (Samples.crlf "") ("a,b" ++ Reader.LF) = ["a"; "b" ++ Reader.LF].
Proof.
  apply (cells_terminator_mismatch (Samples.crlf "") "a,b");
    try reflexivity; cbn; discriminate.
Defined.

Lemma ReadCSV_record_count_witness :
  (List.length Data.Ada + 1 = 2)%nat.
Proof.
  apply (ReadCSV_record_count
           (Reader.NewReader (source ("Name,Age" ++ Run.nl ++ "Ada,36" ++ Run.nl)))
           (readerType Data.NameAge) Data.Ada).
  reflexivity.
Defined.

Lemma ReadCSV_needs_EOF_witness :
  Reader.ReadCSV
    (Samples.broken ("Name,Age" ++ Run.nl ++ "Ada,36" ++ Run.nl))
    (readerType Data.NameAge)
  <> Return Data.Ada.
Proof.
  apply (ReadCSV_needs_EOF
           (Samples.broken ("Name,Age" ++ Run.nl ++ "Ada,36" ++ Run.nl))
           (readerType Data.NameAge) Data.Ada).
  cbn. discriminate.
Defined.

Lemma ReadCSV_record_width_witness :
  Forall (fun record : structValue => List.length record = 2%nat) Data.Ada.
Proof.
  apply (ReadCSV_record_width
           (Reader.NewReader (source ("Name,Age,Town" ++ Run.nl ++ "Ada,36,London" ++ Run.nl)))
           (readerType Data.NameAge) Data.Ada);
    reflexivity.
Defined.

Lemma ReadCSV_unbound_field_is_zero_witness :
  Forall (fun record : structValue => nth_error record 1 = Some (VInt 0))
         [[VString "Ada"; VInt 0]].
Proof.
  apply (ReadCSV_unbound_field_is_zero
           (Reader.NewReader (source ("Name" ++ Run.nl ++ "Ada" ++ Run.nl)))
           (readerType Data.NameAge) [[VString "Ada"; VInt 0]]
           ("Name" ++ Run.nl) ("Ada" ++ Run.nl) 1 (Run.field "Age" Run.intT));
    try reflexivity.
  intros attr [<-|[]]. cbn. discriminate.
Defined.

Lemma ReadCSV_prefix_witness :
  exists more : list structValue,
    [[VString "Ada"; VInt 36]; [VString "Bob"; VInt 1]] = (Data.Ada ++ more)%list.
Proof.
  apply (ReadCSV_prefix
           (Reader.NewReader (source "")) (readerType Data.NameAge)
           ("Name,Age" ++ Run.nl ++ "Ada,36" ++ Run.nl) ("Bob,1" ++ Run.nl));
    try reflexivity.
  cbn. discriminate.
Defined.

Lemma ReadCSV_headerless_runs_both_decoders_witness :
  Reader.ReadCSV
    (Data.headerless ("x,y" ++ Run.nl)) Samples.Both
  = Return [[VString "x"; VString "0"]]
  /\ Reader.ReadCSV
       (Data.headerless ("x,y" ++ Run.nl)) Samples.Both
     = Reader.ReadCSV
         (Data.headerless ("x,y" ++ Run.nl)) (chained Samples.Both).
Proof.
  split; [reflexivity|].
  apply (ReadCSV_headerless_runs_both_decoders
           (Data.headerless ("x,y" ++ Run.nl)) Samples.Both).
  reflexivity.
Defined.

Lemma writeElem_marshaled_values_witness :
  Writer.writeElem (Writer.NewWriter fresh)
    Data.HeaderBody Data.sample fresh
  = (Return tt, emit "string,1,2,true,1,0" fresh).
Proof.
  refine (proj1 (writeElem_marshaled_values
                   (Writer.NewWriter fresh) Data.HeaderBody Data.sample _
                   Samples.sampleCells fresh eq_refl eq_refl _) eq_refl).
  repeat constructor.
Defined.

Lemma writeHeader_columns_witness :
  Writer.writeHeader (Writer.NewWriter fresh)
    (writerType Data.WithTags) [Data.sample] fresh
  = (Return tt, emit "string,weird tag,Float,Bool,Uint" fresh).
Proof.
  apply (writeHeader_columns (Writer.NewWriter fresh)
           (writerType Data.WithTags) Data.sample [] fresh);
    try reflexivity.
  - discriminate.
  - repeat constructor; intros _ tag Htag; cbn in Htag; inversion Htag; reflexivity.
Defined.

Lemma writeHeader_tag_with_delimiter_witness :
  Writer.writeHeader (Writer.NewWriter fresh)
    (writerType Samples.CommaTag) [StructElem [VString "a"; VString "b"]] fresh
  = (Fail ErrNoCommasAllowedInHeader, emit "A" fresh).
Proof.
  apply (writeHeader_tag_with_delimiter
           (Writer.NewWriter fresh) (writerType Samples.CommaTag)
           (StructElem [VString "a"; VString "b"]) [] fresh
           [Run.field "A" Reader.stringT] [] (Run.tagged "B" Reader.stringT "b,c") "b,c");
    try reflexivity.
  - discriminate.
  - repeat constructor. intros _ t Ht. cbn in Ht. discriminate.
Defined.

Lemma writeElem_cells_witness :
  Writer.writeElem (Writer.NewWriter fresh)
    (writerType Data.Arbitrary) Data.sample fresh
  = (Return tt, emit "string,1,2,true,1,0" fresh).
Proof.
  apply (writeElem_cells (Writer.NewWriter fresh)
           (writerType Data.Arbitrary) Data.sample
           Samples.sampleValue Samples.sampleCells fresh);
    try reflexivity.
  - right. reflexivity.
  - repeat constructor.
  - repeat (constructor; [eexists; eexists; split; reflexivity|]). constructor.
Defined.


Lemma Legacy_writeElem_agrees_witness :
  Legacy.writeElem (Writer.NewWriter fresh)
    (writerType Data.NameAge) (StructElem Samples.ada) fresh
  = (Return tt, emit "Ada,36" fresh).
Proof.
  rewrite (Legacy_writeElem_agrees
             (Writer.NewWriter fresh) (writerType Data.NameAge)
             (StructElem Samples.ada) fresh eq_refl).
  - reflexivity.
  - repeat constructor.
Defined.

Lemma getString_outcomes_witness :
  getString true (PtrTo Run.intT) VNil
  = Panicked (ReflectPanic "reflect: call of reflect.Value.Interface on zero Value").
Proof.
  apply (getString_outcomes (PtrTo Run.intT) VNil).
  - reflexivity.
  - reflexivity.
Defined.

Lemma WriteCSV_stops_at_failure_witness :
  Writer.WriteCSV (Writer.NewWriter fresh)
    (writerType Data.OneComplex)
    ([] ++ Samples.complexOne :: [Samples.complexTwo])%list fresh
  = Writer.WriteCSV (Writer.NewWriter fresh)
      (writerType Data.OneComplex) ([] ++ [Samples.complexOne])%list fresh.
Proof.
  apply (WriteCSV_stops_at_failure
           (Writer.NewWriter fresh) (writerType Data.OneComplex)
           (Samples.complexOne) [] [Samples.complexTwo] fresh).
  intros b'. unfold Writer.writeElem, writerType, Data.OneComplex.
  cbn. destruct (err b'); cbn; discriminate.
Defined.

Lemma ReadCSV_unmatched_header_witness :
  Reader.ReadCSV
    (onInput (Reader.NewReader (source "")) ("Town" ++ Run.nl ++ "London,x,y" ++ Run.nl))
    (readerType Data.NameAge)
  = Return [[VString ""; VInt 0]].
Proof.
  apply (ReadCSV_unmatched_header
           (Reader.NewReader (source "")) (readerType Data.NameAge)
           ("Town" ++ Run.nl ++ "London,x,y" ++ Run.nl)
           ("Town" ++ Run.nl) ("London,x,y" ++ Run.nl));
    try reflexivity.
  intros attr [<-|[]]. reflexivity.
Defined.
